(** * pr-skills-extractor: normalizer, similarity matcher, validator and
    document builder

    A shallow embedding of
    - [scripts/utils/skill-manager.js]  (class SkillManager),
    - [scripts/utils/skill-validator.js] (class SkillValidator),
    - [scripts/generate-skill.js]       (class SkillGenerator),
    - [scripts/utils/ai-processor.js]   (the keyword classifier
      [fallbackCategorization]),
    - [scripts/utils/github-api.js]     ([parseRepository]),
    together with the properties stated for them.

    Conventions of the embedding.
    - A JavaScript string is the list of its code units.  The code units are
      the 8-bit ones (U+0000 .. U+00FF); every pattern and every literal of
      the sources lies in that range.
      [calculateSimilarity] is embedded a second time on 16-bit code units
      (module [Wide]), where lower-casing can lengthen a word.
    - The fields of a skill are strings, as the classifier and
      [parseSkillFile] give them; where the sources only test a string or a
      number for truth, the empty string and 0 also stand for an absent
      value.  A list or a record that may be absent ([keywords], [sources],
      [source], the [sourceInfo] argument) is an [option].
    - File-system reads are inputs of the functions, file-system writes are
      part of their results; a path is the list of its segments.
    - A similarity score is the quotient of two set sizes; it is kept as a
      rational.  The IEEE quotient of two integers below 2^26 is the
      rounding of that rational and rounding is monotone and separates two
      such quotients that differ, so every comparison the code makes on the
      scores has the outcome computed here. *)

From Stdlib Require Import List Ascii String Arith Lia Bool QArith.
From Stdlib Require Import Sorting.Sorted Sorting.Permutation.
From Stdlib Require Import DecimalString.
From stdpp Require Import gmap strings.
Import ListNotations.

Open Scope string_scope.
Open Scope list_scope.
Open Scope nat_scope.

(** ** Strings *)

Abbreviation jsstring := (list ascii).

Definition lit (s : string) : jsstring := list_ascii_of_string s.
Coercion lit : string >-> list.

Definition code (c : ascii) : nat := nat_of_ascii c.

Definition inRange (lo hi : nat) (c : ascii) : bool :=
  (lo <=? code c) && (code c <=? hi).

Definition isChar (n : nat) (c : ascii) : bool := code c =? n.

(** The line feed written [\n] in the sources. *)
Definition LF : jsstring := [ascii_of_nat 10].

Definition isDigit : ascii -> bool := inRange 48 57.
Definition isLower : ascii -> bool := inRange 97 122.
Definition isUpper : ascii -> bool := inRange 65 90.
Definition isHyphen : ascii -> bool := isChar 45.
Definition isUnderscore : ascii -> bool := isChar 95.

(** [\w] is [[A-Za-z0-9_]]. *)
Definition isWordChar (c : ascii) : bool :=
  isUpper c || isLower c || isDigit c || isUnderscore c.

(** [\s]: TAB, LF, VT, FF, CR, space and the no-break space. *)
Definition isWhiteSpace (c : ascii) : bool :=
  inRange 9 13 c || isChar 32 c || isChar 160 c.

(** The line terminators, which [.] refuses and at which [^] and [$] hold
    under the [m] flag. *)
Definition isLineTerminator (c : ascii) : bool := isChar 10 c || isChar 13 c.

(** [String.prototype.toLowerCase]: A-Z and the upper-case letters of the
    Latin-1 block (U+00C0 .. U+00DE but the multiplication sign) move up by
    32.  [toUpperCase] is its inverse on letters and writes SS for the sharp
    s; the micro sign and y-diaeresis, whose upper case is outside the code
    units kept here, stay.  [upperChar] is also the Canonicalize of a
    pattern with the [i] flag, which works on one code unit and so leaves
    the sharp s. *)
Definition lowerChar (c : ascii) : ascii :=
  if isUpper c || (inRange 192 222 c && negb (isChar 215 c))
  then ascii_of_nat (code c + 32) else c.

Definition upperChar (c : ascii) : ascii :=
  if isLower c || (inRange 224 254 c && negb (isChar 247 c))
  then ascii_of_nat (code c - 32) else c.

Definition toLowerCase (s : jsstring) : jsstring := List.map lowerChar s.

Definition toUpperCase (s : jsstring) : jsstring :=
  flat_map (fun c => if isChar 223 c then lit "SS" else [upperChar c]) s.

Fixpoint startsWith (p s : jsstring) : bool :=
  match p, s with
  | [], _ => true
  | _ :: _, [] => false
  | a :: p', b :: s' => Ascii.eqb a b && startsWith p' s'
  end.

(** [s.includes(p)]. *)
Fixpoint includes (p s : jsstring) : bool :=
  startsWith p s ||
  match s with
  | [] => false
  | _ :: s' => includes p s'
  end.

Definition endsWith (p s : jsstring) : bool := startsWith (rev p) (rev s).

(** [s.replace(pat, rep)] for a string [pat]: the first occurrence only.
    No replacement text of the sources holds a [$]. *)
Fixpoint replaceFirst (pat rep s : jsstring) : jsstring :=
  if startsWith pat s then rep ++ skipn (length pat) s
  else match s with
       | [] => []
       | c :: s' => c :: replaceFirst pat rep s'
       end.

(** [s.trim()]. *)
Fixpoint trimStart (s : jsstring) : jsstring :=
  match s with
  | c :: s' => if isWhiteSpace c then trimStart s' else s
  | [] => []
  end.

Definition trimEnd (s : jsstring) : jsstring := rev (trimStart (rev s)).
Definition trim (s : jsstring) : jsstring := trimEnd (trimStart s).

(** [s.split('\n').length]. *)
Definition countChar (n : nat) (s : jsstring) : nat :=
  length (List.filter (isChar n) s).

Definition lineCount (s : jsstring) : nat := S (countChar 10 s).

(** [s.split(sep)] for a one-character separator. *)
Fixpoint splitOn (sep : ascii -> bool) (cur s : jsstring) : list jsstring :=
  match s with
  | [] => [rev cur]
  | c :: s' => if sep c then rev cur :: splitOn sep [] s'
               else splitOn sep (c :: cur) s'
  end.

(** [a.join(sep)]. *)
Fixpoint join (sep : jsstring) (a : list jsstring) : jsstring :=
  match a with
  | [] => []
  | [x] => x
  | x :: a' => x ++ sep ++ join sep a'
  end.

(** [a.indexOf(v)], the length of [a] standing for -1. *)
Fixpoint indexOf (v : jsstring) (a : list jsstring) : nat :=
  match a with
  | [] => 0
  | x :: a' => if decide (x = v) then 0 else S (indexOf v a')
  end.

(** A number in a template literal. *)
Definition showNat (n : nat) : jsstring :=
  lit (NilEmpty.string_of_uint (Nat.to_uint n)).

Definition isEmpty (s : jsstring) : bool :=
  match s with [] => true | _ :: _ => false end.

(** [a === b] on strings. *)
Definition strEq (a b : jsstring) : bool := bool_decide (a = b).

Definition isEmpty_list {A : Type} (l : list A) : bool :=
  match l with [] => true | _ :: _ => false end.

(** [a || b] on strings. *)
Definition orElse (a b : jsstring) : jsstring := if isEmpty a then b else a.

(** ** Data model *)

(** The attribution of a skill.  [pr] is a number, falsy when 0; an absent
    field is the falsy value of its type, which no reader in the sources
    tells from [undefined]. *)
Record SourceInfo : Type := MkSource {
  pr : nat;
  author : jsstring;
  date : jsstring;
  file : jsstring
}.

(** A file path, as its segments. *)
Abbreviation fspath := (list jsstring).

(** The skill objects: the classification result handed to the generator,
    the records read back from disk and the merged records. *)
Record Skill : Type := MkSkill {
  name : jsstring;
  description : jsstring;
  title : jsstring;
  instructions : jsstring;
  keywords : option (list jsstring);
  path : fspath;
  domain : jsstring;
  category : jsstring;
  skillName : jsstring;
  antiPattern : jsstring;
  bestPractice : jsstring;
  badExample : jsstring;
  goodExample : jsstring;
  sources : option (list SourceInfo);
  source : option SourceInfo
}.

(** ** Regular expressions

    The patterns of the sources are kept as syntax and run by a backtracking
    matcher in continuation-passing style, which tries the alternatives in
    the order the ECMAScript matcher does: the left branch of [|] first, the
    longest repetition first for [*] and [+], the shortest first for [*?]. *)

Module Regex.

Inductive regex : Type :=
| Eps
| Chr (c : ascii)
| Cls (cls : ascii -> bool)
| Seq (r1 r2 : regex)
| Alt (r1 r2 : regex)
| Star (greedy : bool) (r : regex)
| Group (n : nat) (r : regex)
| Bol
| Eol
| WordBoundary.

(** A pattern text, [r+], [r?] and [r{4}]. *)
Fixpoint Str (s : jsstring) : regex :=
  match s with
  | [] => Eps
  | c :: s' => Seq (Chr c) (Str s')
  end.

Definition Plus (r : regex) : regex := Seq r (Star true r).
Definition Opt (r : regex) : regex := Alt r Eps.
Definition Times4 (r : regex) : regex := Seq r (Seq r (Seq r r)).

(** [[\s\S]] and [.]. *)
Definition anyChar : regex := Cls (fun _ => true).
Definition dot : regex := Cls (fun c => negb (isLineTerminator c)).

(** A position in the input: the text before it, nearest character first,
    and the text after it. *)
Record pos : Type := Pos { before : jsstring; after : jsstring }.

Definition caps : Type := list (nat * jsstring).
Definition result : Type := option (pos * caps).
Definition cont : Type := pos -> caps -> result.

Definition consumed (p p' : pos) : jsstring :=
  firstn (length (after p) - length (after p')) (after p).

Record flags : Type := Flags { ignoreCase : bool; multiline : bool }.

Section Matcher.

Variable fl : flags.

(** Canonicalize of the [i] flag goes through the upper case. *)
Definition canon (c : ascii) : ascii :=
  if ignoreCase fl then upperChar c else c.

Definition step (ok : ascii -> bool) (p : pos) (cs : caps) (k : cont) : result :=
  match after p with
  | x :: rest => if ok x then k (Pos (x :: before p) rest) cs else None
  | [] => None
  end.

Definition atLineStart (p : pos) : bool :=
  match before p with
  | [] => true
  | x :: _ => multiline fl && isLineTerminator x
  end.

Definition atLineEnd (p : pos) : bool :=
  match after p with
  | [] => true
  | x :: _ => multiline fl && isLineTerminator x
  end.

Definition headIsWord (s : jsstring) : bool :=
  match s with
  | x :: _ => isWordChar x
  | [] => false
  end.

Definition atWordBoundary (p : pos) : bool :=
  xorb (headIsWord (before p)) (headIsWord (after p)).

(** The iterations of [r*]: an iteration that consumes nothing is refused;
    [fuel] is above the number of characters left, so that it never runs
    out. *)
Fixpoint starLoop (body : pos -> caps -> cont -> result) (greedy : bool)
    (k : cont) (fuel : nat) (p : pos) (cs : caps) : result :=
  match fuel with
  | 0 => k p cs
  | S fuel' =>
      let again (_ : unit) :=
        body p cs (fun p' cs' =>
          if length (after p') <? length (after p)
          then starLoop body greedy k fuel' p' cs'
          else None) in
      if greedy
      then match again tt with Some x => Some x | None => k p cs end
      else match k p cs with Some x => Some x | None => again tt end
  end.

Fixpoint run (r : regex) (p : pos) (cs : caps) (k : cont) : result :=
  match r with
  | Eps => k p cs
  | Chr c => step (fun x => Ascii.eqb (canon x) (canon c)) p cs k
  | Cls cls => step cls p cs k
  | Seq r1 r2 => run r1 p cs (fun p' cs' => run r2 p' cs' k)
  | Alt r1 r2 =>
      match run r1 p cs k with
      | Some x => Some x
      | None => run r2 p cs k
      end
  | Star greedy r1 => starLoop (run r1) greedy k (S (length (after p))) p cs
  | Group n r1 => run r1 p cs (fun p' cs' => k p' ((n, consumed p p') :: cs'))
  | Bol => if atLineStart p then k p cs else None
  | Eol => if atLineEnd p then k p cs else None
  | WordBoundary => if atWordBoundary p then k p cs else None
  end.

(** One match: where it starts, where it ends and its groups. *)
Record found : Type :=
  Found { mstart : pos; mend : pos; groups : caps }.

Definition matchAt (r : regex) (p : pos) : option found :=
  match run r p [] (fun p' cs' => Some (p', cs')) with
  | Some (p', cs') => Some (Found p p' cs')
  | None => None
  end.

(** The leftmost match at or after a position. *)
Fixpoint search (r : regex) (bef aft : jsstring) : option found :=
  match matchAt r (Pos bef aft) with
  | Some m => Some m
  | None =>
      match aft with
      | [] => None
      | c :: aft' => search r (c :: bef) aft'
      end
  end.

(** [r.exec(s)], [r.test(s)], [m[0]] and [m[n]]. *)
Definition exec (r : regex) (s : jsstring) : option found := search r [] s.

Definition test (r : regex) (s : jsstring) : bool :=
  match exec r s with Some _ => true | None => false end.

Definition matched (m : found) : jsstring := consumed (mstart m) (mend m).

Fixpoint lookupGroup (n : nat) (cs : caps) : jsstring :=
  match cs with
  | [] => []
  | (i, s) :: cs' => if i =? n then s else lookupGroup n cs'
  end.

Definition group (n : nat) (m : found) : jsstring := lookupGroup n (groups m).

(** The matches of a [g] pattern, left to right; after an empty match the
    search resumes one character further. *)
Fixpoint matchesFrom (fuel : nat) (r : regex) (bef aft : jsstring)
    : list found :=
  match fuel with
  | 0 => []
  | S fuel' =>
      match search r bef aft with
      | None => []
      | Some m =>
          m :: match matched m, after (mend m) with
               | [], [] => []
               | [], c :: aft' => matchesFrom fuel' r (c :: before (mend m)) aft'
               | _ :: _, _ =>
                   matchesFrom fuel' r (before (mend m)) (after (mend m))
               end
      end
  end.

(** [s.match(r)] for a [g] pattern [r]: the matched texts. *)
Definition matchAll (r : regex) (s : jsstring) : list jsstring :=
  List.map matched (matchesFrom (S (length s)) r [] s).

(** The text between the end of one match and the start of the next. *)
Definition between (p q : pos) : jsstring :=
  firstn (length (after p) - length (after q)) (after p).

Fixpoint stitch (rep : jsstring) (p : pos) (ms : list found) : jsstring :=
  match ms with
  | [] => after p
  | m :: ms' => between p (mstart m) ++ rep ++ stitch rep (mend m) ms'
  end.

(** [s.replace(r, rep)] for a [g] pattern, and for one without [g]. *)
Definition replaceAll (r : regex) (rep s : jsstring) : jsstring :=
  stitch rep (Pos [] s) (matchesFrom (S (length s)) r [] s).

Definition replaceOne (r : regex) (rep s : jsstring) : jsstring :=
  match exec r s with
  | None => s
  | Some m => stitch rep (Pos [] s) [m]
  end.

(** [s.split(r)] for a pattern without groups: the text is cut at every
    match found when trying each position in turn, a match that is empty and
    starts the current piece being passed over. *)
Fixpoint splitFrom (fuel : nat) (r : regex) (cur bef aft : jsstring)
    : list jsstring :=
  match fuel with
  | 0 => [rev cur ++ aft]
  | S fuel' =>
      match aft with
      | [] => [rev cur]
      | x :: aft' =>
          match matchAt r (Pos bef aft) with
          | Some m =>
              match matched m, cur with
              | [], [] => splitFrom fuel' r (x :: cur) (x :: bef) aft'
              | _, _ =>
                  rev cur ::
                  splitFrom fuel' r [] (before (mend m)) (after (mend m))
              end
          | None => splitFrom fuel' r (x :: cur) (x :: bef) aft'
          end
      end
  end.

Definition split (r : regex) (s : jsstring) : list jsstring :=
  match s with
  | [] => match matchAt r (Pos [] []) with Some _ => [] | None => [[]] end
  | _ :: _ => splitFrom (S (2 * length s)) r [] [] s
  end.

End Matcher.

Definition plain : flags := Flags false false.
Definition flagI : flags := Flags true false.
Definition flagM : flags := Flags false true.

End Regex.

Import Regex.

(** *** Building patterns *)

Fixpoint seqs (rs : list regex) : regex :=
  match rs with
  | [] => Eps
  | [r] => r
  | r :: rs' => Seq r (seqs rs')
  end.

Fixpoint alts (ws : list jsstring) : regex :=
  match ws with
  | [] => Eps
  | [w] => Str w
  | w :: ws' => Alt (Str w) (alts ws')
  end.

Definition lits (ws : list string) : list jsstring := List.map lit ws.

Definition space : regex := Cls isWhiteSpace.
Definition word : regex := Cls isWordChar.
Definition digit : regex := Cls isDigit.
Definition notChar (n : nat) : regex := Cls (fun c => negb (isChar n c)).
Definition letter : regex := Cls (fun c => isLower c || isUpper c).

(** [r(?=a)], a pattern closed by a lookahead: [a] has to match where [r]
    ends and the match ends there.  No lookahead of the sources holds a
    group. *)
Definition matchAtAhead (fl : flags) (r a : regex) (p : pos) : option found :=
  match run fl r p []
          (fun p' cs' =>
             match run fl a p' cs' (fun p'' cs'' => Some (p'', cs'')) with
             | Some _ => Some (p', cs')
             | None => None
             end) with
  | Some (p', cs') => Some (Found p p' cs')
  | None => None
  end.

Fixpoint searchAhead (fl : flags) (r a : regex) (bef aft : jsstring)
    : option found :=
  match matchAtAhead fl r a (Pos bef aft) with
  | Some m => Some m
  | None =>
      match aft with
      | [] => None
      | c :: aft' => searchAhead fl r a (c :: bef) aft'
      end
  end.

Definition execAhead (fl : flags) (r a : regex) (s : jsstring)
    : option found :=
  searchAhead fl r a [] s.

(** ** The normalizer (skill-manager.js) *)

Module SkillManager.

Definition verbMappings : list (jsstring * jsstring) :=
  [ ("avoid" : jsstring, "avoiding" : jsstring);
    ("prefer" : jsstring, "preferring" : jsstring);
    ("use" : jsstring, "using" : jsstring);
    ("implement" : jsstring, "implementing" : jsstring);
    ("handle" : jsstring, "handling" : jsstring);
    ("manage" : jsstring, "managing" : jsstring);
    ("process" : jsstring, "processing" : jsstring);
    ("validate" : jsstring, "validating" : jsstring);
    ("check" : jsstring, "checking" : jsstring);
    ("test" : jsstring, "testing" : jsstring);
    ("create" : jsstring, "creating" : jsstring);
    ("update" : jsstring, "updating" : jsstring);
    ("delete" : jsstring, "deleting" : jsstring);
    ("remove" : jsstring, "removing" : jsstring);
    ("add" : jsstring, "adding" : jsstring);
    ("fix" : jsstring, "fixing" : jsstring);
    ("optimize" : jsstring, "optimizing" : jsstring);
    ("refactor" : jsstring, "refactoring" : jsstring);
    ("extract" : jsstring, "extracting" : jsstring);
    ("configure" : jsstring, "configuring" : jsstring);
    ("setup" : jsstring, "setting-up" : jsstring);
    ("initialize" : jsstring, "initializing" : jsstring) ].

(** The loop over [Object.entries(verbMappings)], which lists the keys in
    the order they are written. *)
Fixpoint gerundLoop (entries : list (jsstring * jsstring)) (name : jsstring)
    : jsstring :=
  match entries with
  | [] => name
  | (verb, gerund) :: rest =>
      if startsWith (verb ++ "-") name
      then replaceFirst (verb ++ "-") (gerund ++ "-") name
      else gerundLoop rest name
  end.

Definition convertToGerundForm (name : jsstring) : jsstring :=
  gerundLoop verbMappings name.

(** [/[^\w\s-]/g], [/\s+/g], [/-+/g], [/^-|-$/g] and [/-$/] *)
Definition notWordSpaceHyphen : regex :=
  Cls (fun c => negb (isWordChar c || isWhiteSpace c || isHyphen c)).
Definition spaces : regex := Plus space.
Definition hyphens : regex := Plus (Chr "-").
Definition hyphenAtEnds : regex :=
  Alt (Seq Bol (Chr "-")) (Seq (Chr "-") Eol).
Definition hyphenAtEnd : regex := Seq (Chr "-") Eol.

Definition normalizeSkillName (name : jsstring) : jsstring :=
  let normalized :=
    replaceAll plain hyphenAtEnds []
      (replaceAll plain hyphens "-"
        (replaceAll plain spaces "-"
          (replaceAll plain notWordSpaceHyphen [] (toLowerCase name)))) in
  let normalized := convertToGerundForm normalized in
  if 64 <? length normalized
  then replaceOne plain hyphenAtEnd [] (firstn 64 normalized)
  else normalized.

(** The text that [calculateSimilarity] compares. *)
Definition similarityText (sk : Skill) : jsstring :=
  toLowerCase
    (title sk ++ " " ++ description sk ++ " " ++
     match keywords sk with
     | Some ks => join " " ks
     | None => []
     end).

Definition significantWords (text : jsstring) : gset jsstring :=
  list_to_set
    (List.filter (fun w => 3 <? length w) (split plain (Plus space) text)).

(** [calculateSimilarity].  A [Set] is a [gset]: the code reads only the
    members and the sizes of its sets, not their order. *)
Definition calculateSimilarity (skill1 skill2 : Skill) : Q :=
  let words1 := significantWords (similarityText skill1) in
  let words2 := significantWords (similarityText skill2) in
  let intersection : gset jsstring :=
    list_to_set
      (List.filter (fun x => bool_decide (x ∈ words2)) (elements words1)) in
  let union : gset jsstring :=
    list_to_set (elements words1 ++ elements words2) in
  if size union =? 0 then 0%Q
  else (Z.of_nat (size intersection) # Pos.of_nat (size union))%Q.

Definition similarityThreshold : Q := (8 # 10)%Q.

Record Similar : Type := MkSimilar { skill : Skill; similarity : Q }.

(** [Array.prototype.sort] with the comparator
    [(a, b) => b.similarity - a.similarity]: the sort is stable, an element
    goes behind those that do not compare after it. *)
Fixpoint insertSimilar (x : Similar) (l : list Similar) : list Similar :=
  match l with
  | [] => [x]
  | y :: l' =>
      if Qle_bool (similarity x) (similarity y)
      then y :: insertSimilar x l'
      else x :: l
  end.

Definition sortSimilar (l : list Similar) : list Similar :=
  fold_left (fun acc x => insertSimilar x acc) l [].

(** [findSimilarSkills], on the skills that [getAllSkills] has read. *)
Definition findSimilarSkills (existingSkills : list Skill) (newSkill : Skill)
    : list Similar :=
  sortSimilar
    (flat_map
       (fun existing =>
          let similarity := calculateSimilarity newSkill existing in
          if Qle_bool similarityThreshold similarity
          then [MkSimilar existing similarity]
          else [])
       existingSkills).

(** [a.filter((v, i, a) => a.indexOf(v) === i)]. *)
Definition removeDuplicates (a : list jsstring) : list jsstring :=
  List.map fst
    (List.filter (fun vi => indexOf (fst vi) a =? snd vi)
       (combine a (seq 0 (length a)))).

Definition optList {A : Type} (o : option (list A)) : list A :=
  match o with Some l => l | None => [] end.

(** The entry that [mergeSkills] appends: the four fields of
    [newSkill.source], read through [?.]. *)
Definition sourceEntry (src : option SourceInfo) : SourceInfo :=
  match src with
  | Some i => MkSource (pr i) (author i) (date i) (file i)
  | None => MkSource 0 [] [] []
  end.

Definition mergeSkills (existingSkill newSkill : Skill) : Skill :=
  let mergedInstructions :=
    instructions existingSkill ++ LF ++ LF ++ "---" ++ LF ++ LF ++
    instructions newSkill in
  let mergedKeywords :=
    removeDuplicates
      (optList (keywords existingSkill) ++ optList (keywords newSkill)) in
  let mergedDescription :=
    orElse (description newSkill) (description existingSkill) in
  {| name := name existingSkill;
     description := mergedDescription;
     title := title existingSkill;
     instructions := mergedInstructions;
     keywords := Some mergedKeywords;
     path := path existingSkill;
     domain := domain existingSkill;
     category := category existingSkill;
     skillName := skillName existingSkill;
     antiPattern := antiPattern existingSkill;
     bestPractice := bestPractice existingSkill;
     badExample := badExample existingSkill;
     goodExample := goodExample existingSkill;
     sources :=
       Some (optList (sources existingSkill) ++
             [sourceEntry (source newSkill)]);
     source := source existingSkill |}.

Definition skillsDir : fspath := [".claude" : jsstring; "skills" : jsstring].

Definition getSkillPath (domain category skillName : jsstring) : fspath :=
  skillsDir ++ [domain; category; skillName].

Definition getCategoryFolder (category : jsstring) : jsstring :=
  if strEq category "anti-pattern" then "anti-patterns"
  else if strEq category "best-practice" then "best-practices"
  else "general".

(** [/^---\n([\s\S]*?)\n---/], [/name:\s*(.+)/] and [/description:\s*(.+)/],
    [/^#\s+(.+)$/m], and [/## Instructions\n([\s\S]*?)(?=\n## |$)/] as the
    pattern before its lookahead and the pattern looked for. *)
Definition yamlRe : regex :=
  seqs [Bol; Str ("---" ++ LF); Group 1 (Star false anyChar);
        Str (LF ++ "---")].

Definition yamlFieldRe (key : jsstring) : regex :=
  seqs [Str key; Star true space; Group 1 (Plus dot)].

Definition titleRe : regex :=
  seqs [Bol; Chr "#"; Plus space; Group 1 (Plus dot); Eol].

Definition instructionsRe : regex :=
  seqs [Str ("## Instructions" ++ LF); Group 1 (Star false anyChar)].

Definition instructionsEnd : regex := Alt (Str (LF ++ "## ")) Eol.

(** [m ? m[1].trim() : ''] *)
Definition trimmedGroup (m : option found) : jsstring :=
  match m with
  | Some m => trim (group 1 m)
  | None => []
  end.

(** [parseSkillFile].  The object it returns has the five fields set here
    and no other. *)
Definition parseSkillFile (content : jsstring) : Skill :=
  let yamlMatch := exec plain yamlRe content in
  let yaml :=
    match yamlMatch with
    | Some m => group 1 m
    | None => []
    end in
  let nameMatch := exec plain (yamlFieldRe "name:") yaml in
  let descMatch := exec plain (yamlFieldRe "description:") yaml in
  let titleMatch := exec flagM titleRe content in
  let instructionsMatch :=
    execAhead plain instructionsRe instructionsEnd content in
  {| name := trimmedGroup nameMatch;
     description := trimmedGroup descMatch;
     title := trimmedGroup titleMatch;
     instructions := trimmedGroup instructionsMatch;
     keywords := Some [];
     path := [];
     domain := [];
     category := [];
     skillName := [];
     antiPattern := [];
     bestPractice := [];
     badExample := [];
     goodExample := [];
     sources := None;
     source := None |}.

(** [detectDomain] *)
Definition detectDomain (filePath content : jsstring) : jsstring :=
  let lowerPath := toLowerCase filePath in
  let lowerContent := toLowerCase content in
  if includes "ohif" lowerPath ||
     includes "viewer" lowerPath ||
     includes "ohif" lowerContent ||
     includes "viewerport" lowerContent
  then "ohif"
  else if includes "cornerstone" lowerPath ||
          includes "cs3d" lowerPath ||
          includes "cornerstone" lowerContent ||
          includes "renderingengine" lowerContent
  then "cornerstone3d"
  else "general".

End SkillManager.

(** ** The validator (skill-validator.js) *)

Definition DQ : jsstring := [ascii_of_nat 34].
Definition backslash : ascii := ascii_of_nat 92.

Module SkillValidator.

Definition maxSkillLines : nat := 500.
Definition maxNameLength : nat := 64.
Definition maxDescriptionLength : nat := 1024.
Definition reservedWords : list jsstring :=
  ["anthropic" : jsstring; "claude" : jsstring].

Inductive Severity : Type := error | warning | info.

Record Issue : Type := MkIssue {
  severity : Severity;
  icode : jsstring;
  message : jsstring;
  fix_ : jsstring
}.

Definition isError (i : Issue) : bool :=
  match severity i with error => true | _ => false end.
Definition isWarning (i : Issue) : bool :=
  match severity i with warning => true | _ => false end.
Definition isInfo (i : Issue) : bool :=
  match severity i with info => true | _ => false end.

(** [/^---\n([\s\S]*?)\n---/] *)
Definition frontmatterRe : regex :=
  seqs [Bol; Str ("---" ++ LF); Group 1 (Star false anyChar);
        Str (LF ++ "---")].

(** [/^---\n[\s\S]*?\n---\n*/] *)
Definition frontmatterBlockRe : regex :=
  seqs [Bol; Str ("---" ++ LF); Star false anyChar; Str (LF ++ "---");
        Star true (Str LF)].

(** [/^name:\s*(.+)$/m] and [/^description:\s*(.+)$/m] *)
Definition fieldRe (key : jsstring) : regex :=
  seqs [Bol; Str key; Star true space; Group 1 (Plus dot); Eol].

Record Parsed : Type := MkParsed {
  frontmatter : jsstring;
  body : jsstring;
  pname : jsstring;
  pdescription : jsstring;
  lines : nat
}.

Definition fieldOf (key frontmatter : jsstring) : jsstring :=
  match exec flagM (fieldRe key) frontmatter with
  | Some m => trim (group 1 m)
  | None => []
  end.

Definition parseSkillContent (content : jsstring) : Parsed :=
  let frontmatterMatch := exec plain frontmatterRe content in
  let frontmatter :=
    match frontmatterMatch with
    | Some m => group 1 m
    | None => []
    end in
  let body := replaceOne plain frontmatterBlockRe [] content in
  {| frontmatter := frontmatter;
     body := body;
     pname := fieldOf "name:" frontmatter;
     pdescription := fieldOf "description:" frontmatter;
     lines := lineCount content |}.

(** [isGerundForm] *)
Definition isGerundForm (name : jsstring) : bool :=
  let parts := splitOn isHyphen [] name in
  let firstWord := hd [] parts in
  endsWith "ing" firstWord ||
  existsb (fun g => startsWith g name)
    ["setting-up" : jsstring; "working-with" : jsstring].

(** [isFirstOrSecondPerson] *)
Definition personPatterns : list regex :=
  [ seqs [WordBoundary; Str "I"; Plus space;
          Group 1 (alts (lits ["can"; "will"; "help"; "am"; "have"])); WordBoundary];
    seqs [WordBoundary; Str "you"; Plus space;
          Group 1 (alts (lits ["can"; "will"; "should"; "could"; "may"; "might";
                         "are"; "have"])); WordBoundary];
    seqs [WordBoundary; Str "we"; Plus space;
          Group 1 (alts (lits ["can"; "will"; "should"; "are"; "have"]));
          WordBoundary];
    seqs [WordBoundary; Str "help"; Opt (Chr "s"); Str " you"; WordBoundary] ].

Definition isFirstOrSecondPerson (text : jsstring) : bool :=
  existsb (fun p => test flagI p text) personPatterns.

(** [hasWhenToUse] of the validator: five patterns. *)
Definition whenToUsePatterns : list regex :=
  [ seqs [WordBoundary; Str "use when"; WordBoundary];
    seqs [WordBoundary; Str "use for"; WordBoundary];
    seqs [WordBoundary; Str "when ";
          Group 1 (alts (lits ["working"; "dealing"; "processing"; "handling"]));
          WordBoundary];
    seqs [WordBoundary; Str "for ";
          Group 1 (alts (lits ["working"; "dealing"; "processing"; "handling"]));
          WordBoundary];
    seqs [WordBoundary; Str "if ";
          Group 1 (alts (lits ["the user"; "you need"; "working"])); WordBoundary] ].

Definition hasWhenToUse (text : jsstring) : bool :=
  existsb (fun p => test flagI p text) whenToUsePatterns.

(** [/^[a-z0-9-]+$/] *)
Definition nameFormatRe : regex :=
  seqs [Bol; Plus (Cls (fun c => isLower c || isDigit c || isHyphen c)); Eol].

(** [/<[^>]+>/] *)
Definition xmlTagRe : regex := seqs [Chr "<"; Plus (notChar 62); Chr ">"].

Definition validateFrontmatter (frontmatter name description : jsstring)
    : list Issue :=
  (if isEmpty name then
     [MkIssue error "MISSING_NAME"
        "Skill must have a name field in frontmatter"
        ("Add " ++ DQ ++ "name: your-skill-name" ++ DQ ++
         " to the YAML frontmatter")]
   else
     (if maxNameLength <? length name then
        [MkIssue error "NAME_TOO_LONG"
           ("Name exceeds " ++ showNat maxNameLength ++ " characters (" ++
            showNat (length name) ++ ")")
           ("Shorten the name to " ++ showNat maxNameLength ++
            " characters or less")]
      else []) ++
     (if negb (test plain nameFormatRe name) then
        [MkIssue error "INVALID_NAME_FORMAT"
           "Name must contain only lowercase letters, numbers, and hyphens"
           ("Use kebab-case with lowercase letters: " ++ DQ ++
            "my-skill-name" ++ DQ)]
      else []) ++
     (if existsb (fun w => includes w name) reservedWords then
        [MkIssue error "RESERVED_WORD"
           ("Name contains reserved word: " ++
            match List.find (fun w => includes w name) reservedWords with
            | Some w => w
            | None => "undefined"
            end)
           ("Remove " ++ DQ ++ "anthropic" ++ DQ ++ " or " ++ DQ ++ "claude" ++
            DQ ++ " from the skill name")]
      else []) ++
     (if negb (isGerundForm name) then
        [MkIssue warning "NON_GERUND_NAME"
           "Skill name should use gerund form (verb + -ing)"
           ("Rename to gerund form: e.g., " ++ DQ ++ "avoiding-x" ++ DQ ++
            " instead of " ++ DQ ++ "avoid-x" ++ DQ)]
      else [])) ++
  (if isEmpty description then
     [MkIssue error "MISSING_DESCRIPTION"
        "Skill must have a description field in frontmatter"
        ("Add " ++ DQ ++ "description: Your skill description" ++ DQ ++
         " to the YAML frontmatter")]
   else
     (if maxDescriptionLength <? length description then
        [MkIssue error "DESCRIPTION_TOO_LONG"
           ("Description exceeds " ++ showNat maxDescriptionLength ++
            " characters (" ++ showNat (length description) ++ ")")
           ("Shorten the description to " ++ showNat maxDescriptionLength ++
            " characters or less")]
      else []) ++
     (if test plain xmlTagRe description then
        [MkIssue error "XML_IN_DESCRIPTION"
           "Description cannot contain XML tags"
           "Remove any XML/HTML tags from the description"]
      else []) ++
     (if isFirstOrSecondPerson description then
        [MkIssue warning "NON_THIRD_PERSON"
           "Description should be written in third person"
           ("Rewrite to third person: " ++ DQ ++ "Processes files..." ++ DQ ++
            " not " ++ DQ ++ "I process files..." ++ DQ ++ " or " ++ DQ ++
            "You can process..." ++ DQ)]
      else []) ++
     (if negb (hasWhenToUse description) then
        [MkIssue warning "MISSING_WHEN_TO_USE"
           "Description should include when to use the skill"
           ("Add context: " ++ DQ ++ "...Use when working with X" ++ DQ ++
            " or " ++ DQ ++ "Use for Y scenarios" ++ DQ)]
      else [])).

(** The five date-relative patterns of [validateContent], all [/i]. *)
Definition timePatterns : list regex :=
  [ seqs [Str "before "; Plus word; Chr " "; Times4 digit];
    seqs [Str "after "; Plus word; Chr " "; Times4 digit];
    seqs [Str "starting "; Plus word; Chr " "; Times4 digit];
    seqs [Str "until "; Plus word; Chr " "; Times4 digit];
    seqs [Str "as of "; Times4 digit] ].

(** [/[a-zA-Z]:\\|\\[a-zA-Z]+\\/] *)
Definition windowsPathRe : regex :=
  Alt (seqs [letter; Chr ":"; Chr backslash])
      (seqs [Chr backslash; Plus letter; Chr backslash]).

Definition validateContent (content : jsstring) (parsed : Parsed)
    : list Issue :=
  (if maxSkillLines <? lines parsed then
     [MkIssue warning "TOO_MANY_LINES"
        ("Skill exceeds recommended " ++ showNat maxSkillLines ++ " lines (" ++
         showNat (lines parsed) ++ ")")
        "Split content into separate reference files using progressive disclosure"]
   else []) ++
  (if existsb (fun p => test flagI p content) timePatterns then
     [MkIssue warning "TIME_SENSITIVE_INFO"
        "Content contains time-sensitive information"
        ("Move time-sensitive info to an " ++ DQ ++ "old patterns" ++ DQ ++
         " section or remove it")]
   else []) ++
  (if test plain windowsPathRe content then
     [MkIssue warning "WINDOWS_PATHS"
        "Content contains Windows-style paths"
        "Use forward slashes for cross-platform compatibility"]
   else []).

(** [/See \[.*?\]\(.*?\)/g] and [/\(([^)]+)\)/] *)
Definition referenceRe : regex :=
  seqs [Str "See ["; Star false dot; Str "]("; Star false dot; Chr ")"].

Definition linkTargetRe : regex :=
  seqs [Chr "("; Group 1 (Plus (notChar 41)); Chr ")"].

Definition isNestedRef (ref : jsstring) : bool :=
  match exec plain linkTargetRe ref with
  | Some m =>
      includes "/" (group 1 m) &&
      (2 <? length (splitOn (isChar 47) [] (group 1 m)))
  | None => false
  end.

Definition validateStructure (parsed : Parsed) : list Issue :=
  let referenceMatches := matchAll plain referenceRe (body parsed) in
  let nestedRefs := List.filter isNestedRef referenceMatches in
  (if negb (includes "## " (body parsed)) then
     [MkIssue warning "NO_SECTIONS"
        "Skill should have structured sections"
        ("Add sections like " ++ DQ ++ "## Instructions" ++ DQ ++ ", " ++ DQ ++
         "## Examples" ++ DQ)]
   else []) ++
  (if 0 <? length nestedRefs then
     [MkIssue warning "DEEPLY_NESTED_REFS"
        "References should be one level deep from SKILL.md"
        "Keep all reference files directly accessible from SKILL.md"]
   else []).

Record VerbosePattern : Type := MkVerbose {
  pattern : regex;
  isGlobal : bool;
  count : option nat;
  vmessage : jsstring
}.

Definition verbosePatterns : list VerbosePattern :=
  [ MkVerbose
      (seqs [Str "there are many ";
             Group 1 (alts (lits ["libraries"; "options"; "ways"]))])
      false None "Avoid listing multiple options - provide a default";
    MkVerbose
      (seqs [Str "first"; Opt (Chr ","); Str " you";
             Group 1 (Alt (Str "'ll") (Str " will")); Str " need to"])
      false None "Remove step-by-step explanations of obvious actions";
    MkVerbose
      (seqs [Str "this "; Group 1 (alts (lits ["is"; "means"; "allows"]))])
      false (Some 5) "Excessive explanatory phrases detected";
    MkVerbose
      (seqs [WordBoundary;
             Group 1 (alts (lits ["basically"; "essentially"; "simply"; "just"]));
             WordBoundary])
      true (Some 3) "Remove filler words" ].

Fixpoint groupCount (r : regex) : nat :=
  match r with
  | Seq r1 r2 | Alt r1 r2 => groupCount r1 + groupCount r2
  | Star _ r1 => groupCount r1
  | Group _ r1 => S (groupCount r1)
  | _ => 0
  end.

(** The length of [content.match(pattern)], 0 standing for [null]: the
    number of matches for a [g] pattern, else one more than the number of
    groups. *)
Definition matchLength (v : VerbosePattern) (content : jsstring) : nat :=
  if isGlobal v then length (matchAll flagI (pattern v) content)
  else match exec flagI (pattern v) content with
       | Some _ => S (groupCount (pattern v))
       | None => 0
       end.

Definition threshold (v : VerbosePattern) : nat :=
  match count v with
  | Some 0 | None => 1
  | Some n => n
  end.

Definition commonConcepts : list jsstring :=
  lits ["pdf"; "json"; "api"; "http"; "database"; "function"; "class"].

Definition explainPattern (concept : jsstring) : regex :=
  seqs [Str concept; Star true (notChar 46); Str "is a";
        Star true (notChar 46); Str "that"; Star true (notChar 46); Chr "."].

Definition validateConciseness (content : jsstring) (parsed : Parsed)
    : list Issue :=
  flat_map
    (fun v =>
       if (0 <? matchLength v content) &&
          (threshold v <=? matchLength v content)
       then [MkIssue info "VERBOSE_CONTENT" (vmessage v)
               "Assume Claude already knows common patterns - be more concise"]
       else [])
    verbosePatterns ++
  match List.find (fun c => test flagI (explainPattern c) content)
          commonConcepts with
  | Some concept =>
      [MkIssue info "UNNECESSARY_EXPLANATION"
         ("Unnecessary explanation of " ++ DQ ++ concept ++ DQ ++
          " - Claude knows what it is")
         "Remove explanations of well-known concepts"]
  | None => []
  end.

Definition generateSummary (issues : list Issue) : jsstring :=
  let errors := length (List.filter isError issues) in
  let warnings := length (List.filter isWarning issues) in
  let info := length (List.filter isInfo issues) in
  if (errors =? 0) && (warnings =? 0) && (info =? 0)
  then "Skill passes all validations"
  else
    "Found " ++
    join ", "
      ((if 0 <? errors then [showNat errors ++ " error(s)"] else []) ++
       (if 0 <? warnings then [showNat warnings ++ " warning(s)"] else []) ++
       (if 0 <? info then [showNat info ++ " suggestion(s)"] else [])).

(** What reading the skill file gives: its content, or the message of the
    error thrown. *)
Inductive ReadResult : Type :=
| ReadOk (content : jsstring)
| ReadFailed (errorMessage : jsstring).

Record Validation : Type := MkValidation {
  valid : bool;
  issues : list Issue;
  summary : jsstring
}.

Definition validateSkill (read : ReadResult) : Validation :=
  let issues :=
    match read with
    | ReadOk content =>
        let parsed := parseSkillContent content in
        validateFrontmatter (frontmatter parsed) (pname parsed)
          (pdescription parsed) ++
        validateContent content parsed ++
        validateStructure parsed ++
        validateConciseness content parsed
    | ReadFailed errorMessage =>
        [MkIssue error "FILE_ERROR"
           ("Cannot read skill file: " ++ errorMessage)
           "Ensure the skill file exists and is readable"]
    end in
  {| valid := length (List.filter isError issues) =? 0;
     issues := issues;
     summary := generateSummary issues |}.

End SkillValidator.

(** ** The document builder (generate-skill.js) *)

Module SkillGenerator.

Import SkillManager.

Definition maxSkillLines : nat := 500.

(** [hasWhenToUse] of the generator: three patterns. *)
Definition whenToUsePatterns : list regex :=
  [ seqs [WordBoundary; Str "use when"; WordBoundary];
    seqs [WordBoundary; Str "use for"; WordBoundary];
    seqs [WordBoundary; Str "when ";
          Group 1 (alts (lits ["working"; "dealing"; "processing"; "handling"]));
          WordBoundary] ].

Definition hasWhenToUse (text : jsstring) : bool :=
  existsb (fun p => test flagI p text) whenToUsePatterns.

Definition addWhenToUse (description category domain : jsstring) : jsstring :=
  let domainContext : jsstring :=
    if strEq domain "general" then []
    else " in " ++ toUpperCase domain ++ " codebase" in
  if strEq category "anti-pattern" then
    description ++ " Use when reviewing code" ++ domainContext ++
    " to avoid this pattern."
  else if strEq category "best-practice" then
    description ++ " Use when implementing similar functionality" ++
    domainContext ++ "."
  else description.

(** The four filler patterns of [makeConcise], all [/gi]. *)
Definition fillerPatterns : list regex :=
  [ seqs [WordBoundary;
          Group 1 (alts (lits ["basically"; "essentially"; "simply"; "just"]));
          WordBoundary; Star true space];
    seqs [Str "first"; Opt (Chr ","); Star true space; Str "you";
          Group 1 (Alt (Str "'ll") (Str " will")); Str " need to";
          Star true space];
    seqs [Str "there are many ";
          Group 1 (alts (lits ["options"; "ways"; "approaches"])); Chr " ";
          Group 2 (alts (lits ["to"; "for"])); Star true space];
    seqs [Str "this "; Group 1 (alts (lits ["is"; "means"; "allows"]));
          Plus space] ].

Definition makeConcise (text : jsstring) : jsstring :=
  if isEmpty text then []
  else
    trim
      (replaceAll plain (Plus space) " "
         (fold_left (fun t p => replaceAll flagI p [] t) fillerPatterns text)).

(** The description written into the frontmatter. *)
Definition enhanceDescription (skillData : Skill) : jsstring :=
  let domain := orElse (domain skillData) "general" in
  let enhancedDescription := orElse (description skillData) (title skillData) in
  let enhancedDescription :=
    if negb (hasWhenToUse enhancedDescription)
    then addWhenToUse enhancedDescription (category skillData) domain
    else enhancedDescription in
  if 1024 <? length enhancedDescription
  then firstn 1021 enhancedDescription ++ "..."
  else enhancedDescription.

Definition frontmatterName (skillData : Skill) : jsstring :=
  normalizeSkillName (orElse (skillName skillData) (title skillData)).

(** The four attribution lines shared by both metadata blocks. *)
Definition sourceLines (sourceInfo : option SourceInfo) : jsstring :=
  match sourceInfo with
  | None => []
  | Some i =>
      (if pr i =? 0 then [] else "PR: #" ++ showNat (pr i) ++ LF) ++
      (if isEmpty (author i) then [] else "Author: @" ++ author i ++ LF) ++
      (if isEmpty (date i) then [] else "Date: " ++ date i ++ LF) ++
      (if isEmpty (file i) then [] else "File: " ++ file i ++ LF)
  end.

Definition additionalSourceLine (source : SourceInfo) : jsstring :=
  if pr source =? 0 then []
  else "  - PR #" ++ showNat (pr source) ++ " by @" ++
       orElse (author source) "unknown" ++ LF.

Definition categorySection (skillData : Skill) : jsstring :=
  if strEq (category skillData) "anti-pattern" &&
     negb (isEmpty (antiPattern skillData))
  then "## Anti-Pattern" ++ LF ++ LF ++
       makeConcise (antiPattern skillData) ++ LF ++ LF
  else if strEq (category skillData) "best-practice" &&
          negb (isEmpty (bestPractice skillData))
  then "## Best Practice" ++ LF ++ LF ++
       makeConcise (bestPractice skillData) ++ LF ++ LF
  else [].

Definition fence : jsstring := "```".

Definition examplesSection (skillData : Skill) : jsstring :=
  if negb (isEmpty (badExample skillData)) ||
     negb (isEmpty (goodExample skillData))
  then
    "## Examples" ++ LF ++ LF ++
    (if isEmpty (badExample skillData) then []
     else "### Bad" ++ LF ++ LF ++ fence ++ LF ++
          trim (badExample skillData) ++ LF ++ fence ++ LF ++ LF) ++
    (if isEmpty (goodExample skillData) then []
     else "### Good" ++ LF ++ LF ++ fence ++ LF ++
          trim (goodExample skillData) ++ LF ++ fence ++ LF ++ LF)
  else [].

Definition buildSkillContent (skillData : Skill)
    (sourceInfo : option SourceInfo) : jsstring :=
  let skillName := frontmatterName skillData in
  let enhancedDescription := enhanceDescription skillData in
  let yaml :=
    "---" ++ LF ++
    "name: " ++ skillName ++ LF ++
    "description: " ++ enhancedDescription ++ LF ++
    "---" in
  let markdown :=
    "# " ++ title skillData ++ LF ++ LF ++
    "## Instructions" ++ LF ++ LF ++
    makeConcise (instructions skillData) ++ LF ++ LF ++
    categorySection skillData ++
    examplesSection skillData in
  let metadata :=
    LF ++ "<!--" ++ LF ++
    "Source Metadata (not visible to Claude):" ++ LF ++
    sourceLines sourceInfo ++
    match sources skillData with
    | Some srcs =>
        if 1 <? length srcs
        then "Additional sources:" ++ LF ++
             flat_map additionalSourceLine (skipn 1 srcs)
        else []
    | None => []
    end ++
    "-->" ++ LF in
  yaml ++ LF ++ LF ++ markdown ++ metadata.

Definition buildExamplesFile (skillData : Skill) : jsstring :=
  "# Examples" ++ LF ++ LF ++
  (if isEmpty (badExample skillData) then []
   else "## Bad Example" ++ LF ++ LF ++ fence ++ LF ++
        trim (badExample skillData) ++ LF ++ fence ++ LF ++ LF) ++
  (if isEmpty (goodExample skillData) then []
   else "## Good Example" ++ LF ++ LF ++ fence ++ LF ++
        trim (goodExample skillData) ++ LF ++ fence ++ LF ++ LF).

Definition isAntiPattern (skillData : Skill) : bool :=
  strEq (category skillData) "anti-pattern".

Definition categoryContent (skillData : Skill) : jsstring :=
  if isAntiPattern skillData then antiPattern skillData
  else bestPractice skillData.

Definition buildDetailsFile (skillData : Skill) : jsstring :=
  let sectionName : jsstring :=
    if isAntiPattern skillData then "Anti-Pattern" else "Best Practice" in
  "# " ++ sectionName ++ " Details" ++ LF ++ LF ++
  categoryContent skillData ++ LF.

Definition buildSourceMetadata (sourceInfo : option SourceInfo)
    (additionalSources : option (list SourceInfo)) : jsstring :=
  LF ++ "<!--" ++ LF ++
  "Source Metadata:" ++ LF ++
  sourceLines sourceInfo ++
  match additionalSources with
  | Some srcs =>
      if 0 <? length srcs
      then "Additional sources:" ++ LF ++ flat_map additionalSourceLine srcs
      else []
  | None => []
  end ++
  "-->" ++ LF.

(** A file written by the generator. *)
Record Written : Type := MkWritten { wpath : fspath; wdata : jsstring }.

Record Disclosure : Type := MkDisclosure {
  mainContent : jsstring;
  referenceFiles : list fspath;
  referenceWrites : list Written
}.

Definition hasExamples (skillData : Skill) : bool :=
  negb (isEmpty (badExample skillData)) ||
  negb (isEmpty (goodExample skillData)).

Definition hasDetails (skillData : Skill) : bool :=
  negb (isEmpty (categoryContent skillData)) &&
  (500 <? length (categoryContent skillData)).

Definition applyProgressiveDisclosure (skillData : Skill)
    (sourceInfo : option SourceInfo) (skillDir : fspath) : Disclosure :=
  let skillName := frontmatterName skillData in
  let enhancedDescription := enhanceDescription skillData in
  let mainContent :=
    "---" ++ LF ++
    "name: " ++ skillName ++ LF ++
    "description: " ++ enhancedDescription ++ LF ++
    "---" ++ LF ++
    LF ++
    "# " ++ title skillData ++ LF ++
    LF ++
    "## Overview" ++ LF ++
    LF ++
    makeConcise (instructions skillData) ++ LF ++
    LF in
  let examplesPath := skillDir ++ ["EXAMPLES.md" : jsstring] in
  let detailsPath := skillDir ++ ["DETAILS.md" : jsstring] in
  let examples :=
    if hasExamples skillData
    then [MkWritten examplesPath (buildExamplesFile skillData)]
    else [] in
  let mainContent :=
    if hasExamples skillData
    then mainContent ++ "## Examples" ++ LF ++ LF ++
         "See [EXAMPLES.md](EXAMPLES.md) for code examples." ++ LF ++ LF
    else mainContent in
  let details :=
    if hasDetails skillData
    then [MkWritten detailsPath (buildDetailsFile skillData)]
    else [] in
  let mainContent :=
    if hasDetails skillData then
      let sectionName : jsstring :=
        if isAntiPattern skillData then "Anti-Pattern Details"
        else "Best Practice Details" in
      mainContent ++ "## " ++ sectionName ++ LF ++ LF ++
      "See [DETAILS.md](DETAILS.md) for detailed guidance." ++ LF ++ LF
    else if negb (isEmpty (categoryContent skillData)) then
      let sectionName : jsstring :=
        if isAntiPattern skillData then "Anti-Pattern" else "Best Practice" in
      mainContent ++ "## " ++ sectionName ++ LF ++ LF ++
      makeConcise (categoryContent skillData) ++ LF ++ LF
    else mainContent in
  let mainContent :=
    mainContent ++ buildSourceMetadata sourceInfo (sources skillData) in
  {| mainContent := mainContent;
     referenceFiles := List.map wpath (examples ++ details);
     referenceWrites := examples ++ details |}.

Record Generated : Type := MkGenerated {
  gpath : fspath;
  isNew : bool;
  merged : bool;
  validation : SkillValidator.Validation;
  content : jsstring;
  references : list Written
}.

(** The first half of [generateSkill], on the skills that [getAllSkills] has
    read: the record to render, merged into the most similar skill when there
    is one, the path of its file and its directory. *)
Definition similarTo (existingSkills : list Skill) (skillData : Skill)
    : list Similar :=
  findSimilarSkills existingSkills
    (MkSkill [] (description skillData) (title skillData) []
       (Some (optList (keywords skillData))) [] [] [] [] [] [] [] [] None None).

Definition resolveSkill (existingSkills : list Skill) (skillData : Skill)
    (sourceInfo : option SourceInfo) : Skill * fspath * fspath :=
  let normalizedName := normalizeSkillName (skillName skillData) in
  let categoryFolder := getCategoryFolder (category skillData) in
  let detectedDomain := orElse (domain skillData) "general" in
  match similarTo existingSkills skillData with
  | mostSimilar :: _ =>
      (mergeSkills (skill mostSimilar)
         (MkSkill (name skillData) (description skillData) (title skillData)
            (instructions skillData) (keywords skillData) (path skillData)
            (domain skillData) (category skillData) (skillName skillData)
            (antiPattern skillData) (bestPractice skillData)
            (badExample skillData) (goodExample skillData)
            (sources skillData) sourceInfo),
       path (skill mostSimilar),
       removelast (path (skill mostSimilar)))
  | [] =>
      let skillDir :=
        getSkillPath detectedDomain categoryFolder normalizedName in
      (skillData, skillDir ++ ["SKILL.md" : jsstring], skillDir)
  end.

(** The second half: the content of the skill file and the reference files
    written beside it. *)
Definition renderSkill (finalSkillData : Skill)
    (sourceInfo : option SourceInfo) (skillDir : fspath)
    : jsstring * list Written :=
  let content := buildSkillContent finalSkillData sourceInfo in
  if maxSkillLines <? lineCount content
  then
    let d := applyProgressiveDisclosure finalSkillData sourceInfo skillDir in
    (mainContent d, referenceWrites d)
  else (content, []).

(** [generateSkill].  The files written are the references, in order, and
    then [content] at [gpath]; the validator reads that last file back. *)
Definition generateSkill (existingSkills : list Skill) (skillData : Skill)
    (sourceInfo : option SourceInfo) : Generated :=
  let similarSkills := similarTo existingSkills skillData in
  let '(finalSkillData, skillPath, skillDir) :=
    resolveSkill existingSkills skillData sourceInfo in
  let '(content, references) :=
    renderSkill finalSkillData sourceInfo skillDir in
  {| gpath := skillPath;
     isNew := isEmpty_list similarSkills;
     merged := negb (isEmpty_list similarSkills);
     validation := SkillValidator.validateSkill (SkillValidator.ReadOk content);
     content := content;
     references := references |}.

End SkillGenerator.

(** ** The skills on disk (skill-manager.js, skill-validator.js)

    What the file system answers during a call is an input: whether [mkdir]
    went through, the entries [readdir] lists for a directory or the code of
    the error it throws, and what reading a file gives.  Each call asks for
    a path once. *)

Module FileSystem.

(** The code of an error thrown by the file system; [EOTHER] stands for
    every code the sources do not name. *)
Inductive ErrorCode : Type := ENOENT | EEXIST | EOTHER.

Record Dirent : Type := MkDirent { dname : jsstring; isDirectory : bool }.

Record Files : Type := MkFiles {
  mkdir : fspath -> option ErrorCode;
  readdir : fspath -> ErrorCode + list Dirent;
  readFile : fspath -> SkillValidator.ReadResult
}.

End FileSystem.

Import FileSystem.

(** The functions of [SkillManager] that read the disk.  A step either
    throws an error code or returns; the skills pushed so far are kept in
    both cases, as the array [skills] of [getAllSkills] keeps them. *)
Module ManagerFiles.

Import SkillManager.

Definition Try (A : Type) : Type := list Skill -> list Skill * (ErrorCode + A).

Definition ret {A : Type} (a : A) : Try A := fun skills => (skills, inr a).

Definition throw {A : Type} (e : ErrorCode) : Try A :=
  fun skills => (skills, inl e).

Definition bind {A B : Type} (m : Try A) (k : A -> Try B) : Try B :=
  fun skills =>
    match m skills with
    | (skills', inr a) => k a skills'
    | (skills', inl e) => (skills', inl e)
    end.

Definition push (sk : Skill) : Try unit :=
  fun skills => (skills ++ [sk], inr tt).

Fixpoint forEach {A : Type} (l : list A) (f : A -> Try unit) : Try unit :=
  match l with
  | [] => ret tt
  | a :: l' => bind (f a) (fun _ => forEach l' f)
  end.

(** [ensureDirectory] *)
Definition ensureDirectory (fs : Files) (dirPath : fspath) : Try unit :=
  match mkdir fs dirPath with
  | None => ret tt
  | Some EEXIST => ret tt
  | Some e => throw e
  end.

(** [getDirectories] of the manager: a missing directory has no
    subdirectory, any other error is thrown on. *)
Definition getDirectories (fs : Files) (dirPath : fspath)
    : Try (list jsstring) :=
  match readdir fs dirPath with
  | inr entries => ret (List.map dname (List.filter isDirectory entries))
  | inl ENOENT => ret []
  | inl e => throw e
  end.

(** The skill read from one skill directory, if its file can be read. *)
Definition readSkill (fs : Files) (categoryPath : fspath)
    (domain category skillDir : jsstring) : Try unit :=
  let skillPath := categoryPath ++ [skillDir; "SKILL.md" : jsstring] in
  match readFile fs skillPath with
  | SkillValidator.ReadOk content =>
      let skill := parseSkillFile content in
      push {| name := name skill;
              description := description skill;
              title := title skill;
              instructions := instructions skill;
              keywords := keywords skill;
              path := skillPath;
              domain := domain;
              category := category;
              skillName := skillDir;
              antiPattern := antiPattern skill;
              bestPractice := bestPractice skill;
              badExample := badExample skill;
              goodExample := goodExample skill;
              sources := sources skill;
              source := source skill |}
  | SkillValidator.ReadFailed _ => ret tt
  end.

(** [getAllSkills]: whatever is thrown inside is caught at the end, and the
    skills pushed until then are returned. *)
Definition getAllSkills (fs : Files) : list Skill :=
  fst
    (bind (ensureDirectory fs skillsDir) (fun _ =>
     bind (getDirectories fs skillsDir) (fun domains =>
     forEach domains (fun domain =>
       let domainPath := skillsDir ++ [domain] in
       bind (getDirectories fs domainPath) (fun categories =>
       forEach categories (fun category =>
         let categoryPath := domainPath ++ [category] in
         bind (getDirectories fs categoryPath) (fun skillDirs =>
         forEach skillDirs (fun skillDir =>
           readSkill fs categoryPath domain category skillDir)))))))
       []).

End ManagerFiles.

(** The functions of [SkillValidator] that read the disk. *)
Module ValidatorFiles.

Import SkillValidator.

(** [getDirectories] of the validator: any error gives no subdirectory. *)
Definition getDirectories (fs : Files) (dirPath : fspath) : list jsstring :=
  match readdir fs dirPath with
  | inr entries => List.map dname (List.filter isDirectory entries)
  | inl _ => []
  end.

(** An entry of the report: [{ path: skillPath, ...result }]. *)
Record Report : Type := MkReport { rpath : fspath; result : Validation }.

(** [validateAllSkills]: nothing inside throws, one entry is pushed for
    every skill directory. *)
Definition validateAllSkills (fs : Files) (skillsDir : fspath) : list Report :=
  flat_map (fun domain =>
    let domainPath := skillsDir ++ [domain] in
    flat_map (fun category =>
      let categoryPath := domainPath ++ [category] in
      List.map (fun skillDir =>
        let skillPath := categoryPath ++ [skillDir; "SKILL.md" : jsstring] in
        MkReport skillPath (validateSkill (readFile fs skillPath)))
        (getDirectories fs categoryPath))
      (getDirectories fs domainPath))
    (getDirectories fs skillsDir).

End ValidatorFiles.

(** ** The keyword classifier (ai-processor.js) *)

Module AIProcessor.

(** What the classifier returns: the skill data and its confidence. *)
Record Classified : Type := MkClassified {
  skillData : Skill;
  confidence : Q
}.

Definition antiPatternKeywords : list jsstring :=
  lits ["avoid"; "don't"; "don't"; "never"; "should not"; "shouldn't";
        "wrong"; "incorrect"; "bad"; "anti-pattern"; "antipattern";
        "problem"; "issue"; "bug"; "error"; "fix"; "remove"].

Definition bestPracticeKeywords : list jsstring :=
  lits ["should"; "prefer"; "recommend"; "good"; "best"; "better";
        "correct"; "proper"; "use"; "implement"; "follow"; "pattern"].

(** [/[^\w\s]/g] *)
Definition notWordSpace : regex :=
  Cls (fun c => negb (isWordChar c || isWhiteSpace c)).

(** [s.substring(0, n)] *)
Definition substring0 (n : nat) (s : jsstring) : jsstring := firstn n s.

(** [fallbackCategorization] *)
Definition fallbackCategorization (commentBody : jsstring) : Classified :=
  let lowerBody := toLowerCase commentBody in
  let hasAntiPattern :=
    existsb (fun kw => includes kw lowerBody) antiPatternKeywords in
  let hasBestPractice :=
    existsb (fun kw => includes kw lowerBody) bestPracticeKeywords in
  let category : jsstring :=
    if hasAntiPattern && negb hasBestPractice then "anti-pattern"
    else if hasBestPractice && negb hasAntiPattern then "best-practice"
    else "neutral" in
  let words :=
    firstn 4
      (List.filter (fun w => 3 <? length w)
         (split plain (Plus space)
            (replaceAll plain notWordSpace " " (toLowerCase commentBody)))) in
  let skillName := orElse (join "-" words) "unknown-skill" in
  {| skillData :=
       {| name := [];
          description := substring0 200 commentBody;
          title := substring0 50 commentBody;
          instructions := commentBody;
          keywords := Some words;
          path := [];
          domain := "general";
          category := category;
          skillName := skillName;
          antiPattern :=
            if strEq category "anti-pattern" then commentBody else [];
          bestPractice :=
            if strEq category "best-practice" then commentBody else [];
          badExample := [];
          goodExample := [];
          sources := None;
          source := None |};
     confidence := (3 # 10)%Q |}.

End AIProcessor.

(** ** The repository name (github-api.js) *)

Module GitHubAPI.

(** [parseRepository]: the first two pieces of [repoString.split('/')], the
    second one absent when there is no slash. *)
Definition parseRepository (repoString : jsstring)
    : jsstring * option jsstring :=
  let parts := splitOn (isChar 47) [] repoString in
  (hd [] parts, nth_error parts 1).

End GitHubAPI.

(** ** The similarity on 16-bit code units (skill-manager.js)

    [calculateSimilarity] once more, on strings of 16-bit code units, for
    the letters that the 8-bit strings leave out and at which the function
    behaves differently: those whose lower case is longer than the letter.
    [String.prototype.toLowerCase] is given on the code units U+0000 ..
    U+0130, where U+0130, the capital I with a dot above, is the one such
    letter; [\s] is given on all code units. *)

Module Wide.

Abbreviation wstring := (list N).

(** The three fields of a skill that [calculateSimilarity] reads. *)
Record Skill : Type := MkSkill {
  title : wstring;
  description : wstring;
  keywords : option (list wstring)
}.

Definition between (lo hi u : N) : bool := ((lo <=? u) && (u <=? hi))%N.

(** [\s]: the white space and the line terminators of ECMAScript. *)
Definition isWhiteSpace (u : N) : bool :=
  between 9 13 u || (u =? 32)%N || (u =? 160)%N || (u =? 5760)%N ||
  between 8192 8202 u || (u =? 8232)%N || (u =? 8233)%N || (u =? 8239)%N ||
  (u =? 8287)%N || (u =? 12288)%N || (u =? 65279)%N.

(** The lower case of one code unit: A-Z and the capitals of Latin-1 move
    up by 32, a capital of U+0100 .. U+012F is the even one of a pair and
    moves up by 1, and U+0130 becomes U+0069 U+0307. *)
Definition lowerUnits (u : N) : wstring :=
  if between 65 90 u then [(u + 32)%N]
  else if between 192 222 u && negb (u =? 215)%N then [(u + 32)%N]
  else if between 256 303 u && N.even u then [(u + 1)%N]
  else if (u =? 304)%N then [105%N; 775%N]
  else [u].

Definition toLowerCase (s : wstring) : wstring := flat_map lowerUnits s.

(** [s.split(/\s+/)], in the form that [split] takes on a run of one class:
    the pieces between the maximal runs of white space, a run at either end
    leaving an empty piece there. *)
Fixpoint splitFrom (inRun : bool) (s : wstring) : list wstring :=
  match s with
  | [] => [[]]
  | u :: s' =>
      if isWhiteSpace u
      then (if inRun then splitFrom true s' else [] :: splitFrom true s')
      else match splitFrom false s' with
           | w :: ws => (u :: w) :: ws
           | [] => [[u]]
           end
  end.

Definition splitSpaces : wstring -> list wstring := splitFrom false.

(** [a.join(' ')] *)
Fixpoint join (a : list wstring) : wstring :=
  match a with
  | [] => []
  | [w] => w
  | w :: a' => w ++ [32%N] ++ join a'
  end.

Definition similarityText (sk : Skill) : wstring :=
  toLowerCase
    (title sk ++ [32%N] ++ description sk ++ [32%N] ++
     match keywords sk with
     | Some ks => join ks
     | None => []
     end).

Definition significantWords (text : wstring) : gset wstring :=
  list_to_set (List.filter (fun w => 3 <? length w) (splitSpaces text)).

(** [calculateSimilarity] *)
Definition calculateSimilarity (skill1 skill2 : Skill) : Q :=
  let words1 := significantWords (similarityText skill1) in
  let words2 := significantWords (similarityText skill2) in
  let intersection : gset wstring :=
    list_to_set
      (List.filter (fun x => bool_decide (x ∈ words2)) (elements words1)) in
  let union : gset wstring :=
    list_to_set (elements words1 ++ elements words2) in
  if size union =? 0 then 0%Q
  else (Z.of_nat (size intersection) # Pos.of_nat (size union))%Q.

End Wide.

(** * Vocabulary of the properties *)

Import SkillManager SkillValidator SkillGenerator.

(** ** The list forms of the simple patterns

    What the replacements of the normalizer and the split of the similarity
    text compute, written on lists; the matcher is proved to agree. *)

(** [s.replace(/[cls]/g, '')]. *)
Definition removeChars (cls : ascii -> bool) (s : jsstring) : jsstring :=
  List.filter (fun c => negb (cls c)) s.

(** [s.replace(/[cls]+/g, rep)]: every maximal run of [cls] becomes [rep]. *)
Fixpoint replaceRunsFrom (inRun : bool) (cls : ascii -> bool)
    (rep s : jsstring) : jsstring :=
  match s with
  | [] => []
  | c :: s' =>
      if cls c
      then (if inRun then [] else rep) ++ replaceRunsFrom true cls rep s'
      else c :: replaceRunsFrom false cls rep s'
  end.

Definition replaceRuns : (ascii -> bool) -> jsstring -> jsstring -> jsstring :=
  replaceRunsFrom false.

(** [s.replace(/^c/, '')] and [s.replace(/c$/, '')]. *)
Definition stripLeading (cls : ascii -> bool) (s : jsstring) : jsstring :=
  match s with
  | c :: s' => if cls c then s' else s
  | [] => []
  end.

Fixpoint stripTrailing (cls : ascii -> bool) (s : jsstring) : jsstring :=
  match s with
  | [] => []
  | [c] => if cls c then [] else [c]
  | c :: s' => c :: stripTrailing cls s'
  end.

(** [s.split(/[cls]+/)]: the pieces between the maximal runs of [cls]; a
    run at either end leaves an empty piece there. *)
Fixpoint splitRunsFrom (inRun : bool) (cls : ascii -> bool) (s : jsstring)
    : list jsstring :=
  match s with
  | [] => [[]]
  | c :: s' =>
      if cls c
      then (if inRun then splitRunsFrom true cls s'
            else [] :: splitRunsFrom true cls s')
      else match splitRunsFrom false cls s' with
           | w :: ws => (c :: w) :: ws
           | [] => [[c]]
           end
  end.

Definition splitRuns : (ascii -> bool) -> jsstring -> list jsstring :=
  splitRunsFrom false.

(** The pieces, with the text of the piece in progress put back in front. *)
Definition onHead (cur : jsstring) (pieces : list jsstring) : list jsstring :=
  match pieces with
  | w :: ws => (rev cur ++ w) :: ws
  | [] => [rev cur]
  end.

(** The normalizer on these list forms. *)
Definition normalizeList (name : jsstring) : jsstring :=
  let normalized :=
    stripTrailing isHyphen (stripLeading isHyphen
      (replaceRuns isHyphen "-"
        (replaceRuns isWhiteSpace "-"
          (removeChars
             (fun c => negb (isWordChar c || isWhiteSpace c || isHyphen c))
             (toLowerCase name))))) in
  let normalized := convertToGerundForm normalized in
  if 64 <? length normalized
  then stripTrailing isHyphen (firstn 64 normalized)
  else normalized.

(** ** Other notions *)

(** The characters a normalized name is made of: [[a-z0-9_-]]. *)
Definition nameChar (c : ascii) : bool :=
  isLower c || isDigit c || isHyphen c || isUnderscore c.

(** [/^[a-z0-9-]*$/], as a pattern and as a test of every character. *)
Definition kebabRe : regex :=
  seqs [Bol; Star true (Cls (fun c => isLower c || isDigit c || isHyphen c));
        Eol].

Definition kebabOnly (s : jsstring) : bool :=
  forallb (fun c => isLower c || isDigit c || isHyphen c) s.

(** The first entry of the table whose [verb-] starts the name. *)
Definition leadingVerb (name : jsstring) : option (jsstring * jsstring) :=
  List.find (fun e => startsWith (fst e ++ "-") name) verbMappings.

(** The score, on the two word sets. *)
Definition jaccard (X Y : gset jsstring) : Q :=
  if size (X ∪ Y) =? 0 then 0%Q
  else (Z.of_nat (size (X ∩ Y)) # Pos.of_nat (size (X ∪ Y)))%Q.

(** A record of short words only. *)
Definition shortSkill : Skill :=
  MkSkill [] "a to be" "Fix it" [] (Some ["ui" : jsstring; "api" : jsstring])
    [] [] [] [] [] [] [] [] None None.



(** The order of the result: the earlier pair scores no less. *)
Definition descending (a b : Similar) : Prop :=
  (similarity b <= similarity a)%Q.

(** The pairs that pass the threshold, in corpus order. *)
Definition candidates (existingSkills : list Skill) (newSkill : Skill)
    : list Similar :=
  List.map (fun e => MkSimilar e (calculateSimilarity newSkill e))
    (List.filter
       (fun e => Qle_bool similarityThreshold (calculateSimilarity newSkill e))
       existingSkills).

(** A document without a frontmatter block. *)
Definition plainMarkdown : jsstring :=
  "# Title" ++ LF ++ LF ++ "Some text about state." ++ LF.

(** The text before the first occurrence of [pat]. *)
Fixpoint beforeFirst (pat s : jsstring) : option jsstring :=
  if startsWith pat s then Some []
  else match s with
       | [] => None
       | c :: s' => option_map (cons c) (beforeFirst pat s')
       end.

(** What [r*?] computes for a one-character [r] that takes any character:
    the nearest position at which the rest of the pattern matches. *)
Fixpoint lazyScan (k : cont) (bef aft : jsstring) (cs : caps) : result :=
  match k (Pos bef aft) cs with
  | Some x => Some x
  | None =>
      match aft with
      | [] => None
      | c :: aft' => lazyScan k (c :: bef) aft' cs
      end
  end.

(** What [[cls]*] computes: the farthest position reached through [cls]
    at which the rest of the pattern matches. *)
Fixpoint greedyScan (cls : ascii -> bool) (k : cont) (bef aft : jsstring)
    (cs : caps) : result :=
  match aft with
  | c :: aft' =>
      if cls c
      then match greedyScan cls k (c :: bef) aft' cs with
           | Some x => Some x
           | None => k (Pos bef aft) cs
           end
      else k (Pos bef aft) cs
  | [] => k (Pos bef aft) cs
  end.

(** Where [$] holds under the [m] flag. *)
Definition endsLine (t : jsstring) : bool :=
  match t with [] => true | c :: _ => isLineTerminator c end.

(** The rest of a field pattern, [\s*(.+)$]. *)
Definition fieldTail : regex := seqs [Star true space; Group 1 (Plus dot); Eol].

(** The continuation that [matchAt] ends a pattern with. *)
Definition finish : cont := fun p' cs' => Some (p', cs').

(** An attribution and a record as the classifier returns them. *)
Definition reviewSource : option SourceInfo :=
  Some (MkSource 12 "bob" "2024-01-01" "a.js").

Definition avoidSkill : Skill :=
  MkSkill [] "Do not mutate state directly" "Avoid Direct State"
    "Never mutate state." (Some ["state" : jsstring]) [] "ohif" "anti-pattern"
    "Avoid Direct State" "Mutating state is bad" [] "x = 1" "setX(1)" None None.

(** A record whose name normalizes to the empty string, and one whose
    description has a second line. *)
Definition punctuationSkill : Skill :=
  MkSkill [] "Use when testing" "!!!" "Do it." None [] [] "neutral" []
    [] [] [] [] None None.

Definition twoLineSkill : Skill :=
  MkSkill [] ("Use when testing." ++ LF ++ "Second line.") "Two lines"
    "Do it." None [] [] "neutral" "two-lines" [] [] [] [] None None.

(** A text without a line feed, as a property and as a test. *)
Definition noLF (s : jsstring) : Prop :=
  Forall (fun c => isChar 10 c = false) s.

Definition singleLine (s : jsstring) : bool := countChar 10 s =? 0.

Definition singleLineSource (i : SourceInfo) : bool :=
  singleLine (author i) && singleLine (date i) && singleLine (file i).

(** The pointer to a reference document, as the main document writes it. *)
Definition pointerTo (base : jsstring) : jsstring :=
  "See [" ++ base ++ "](" ++ base ++ ")".

(** A record with a bad example of 600 lines, one with 600 sources and no
    example, and one with a title of 600 lines and no example. *)
Definition longExampleSkill : Skill :=
  MkSkill [] "Do not mutate state directly" "Avoid Direct State"
    "Never mutate state." (Some ["state" : jsstring]) [] "ohif" "anti-pattern"
    "Avoid Direct State" "Mutating state is bad" []
    (concat (repeat ("x = 1;" ++ LF) 600)) "setX(1)" None None.

Definition manySourcesSkill : Skill :=
  MkSkill [] "Use when testing" "Many sources" "Do it." None [] []
    "best-practice" "many-sources" [] [] [] []
    (Some (repeat (MkSource 7 "bob" [] []) 600)) None.

Definition longTitleSkill : Skill :=
  MkSkill [] "Use when testing" (concat (repeat ("Line" ++ LF) 600)) "Do it."
    None [] [] "best-practice" "long-title" [] [] [] [] None None.

(** ** Notions of the further properties *)

(** The domains, from the least to the most specific answer of
    [detectDomain]. *)
Definition domainRank (d : jsstring) : nat :=
  if strEq d "ohif" then 2 else if strEq d "cornerstone3d" then 1 else 0.

(** The first occurrences in [l] of the values that are not in [seen]. *)
Fixpoint firstOccurrences (seen l : list jsstring) : list jsstring :=
  match l with
  | [] => []
  | x :: l' =>
      if bool_decide (x ∈ seen)
      then firstOccurrences (seen ++ [x]) l'
      else x :: firstOccurrences (seen ++ [x]) l'
  end.

(** The record that [generateSkill] hands to [findSimilarSkills]:
    [{ title, description, keywords: skillData.keywords || [] }]. *)
Definition probe (skillData : Skill) : Skill :=
  MkSkill [] (description skillData) (title skillData) []
    (Some (optList (keywords skillData))) [] [] [] [] [] [] [] [] None None.

(** The better of two pairs, the earlier one when they tie. *)
Definition better (b x : Similar) : Similar :=
  if Qle_bool (similarity x) (similarity b) then b else x.

(** No character of [cls] follows another one, [prev] telling whether the
    text stands behind one; taken with [prev] set, the text does not start
    with a character of [cls] either. *)
Fixpoint standsApart (cls : ascii -> bool) (prev : bool) (s : jsstring)
    : bool :=
  match s with
  | [] => true
  | c :: s' =>
      if cls c then negb prev && standsApart cls true s'
      else standsApart cls false s'
  end.

(** The text does not end with a character of [cls]. *)
Fixpoint endsOutside (cls : ascii -> bool) (s : jsstring) : bool :=
  match s with
  | [] => true
  | [c] => negb (cls c)
  | _ :: s' => endsOutside cls s'
  end.

(** The characters of [cls] stand alone and inside the text. *)
Definition standsInside (cls : ascii -> bool) (s : jsstring) : bool :=
  standsApart cls true s && endsOutside cls s.

Definition hyphensInside : jsstring -> bool := standsInside isHyphen.

(** The description before [buildSkillContent] cuts it to 1024 characters:
    [description || title], with the when-to-use clause when it has
    none. *)
Definition completedDescription (skillData : Skill) : jsstring :=
  let d := orElse (description skillData) (title skillData) in
  if negb (SkillGenerator.hasWhenToUse d)
  then addWhenToUse d (category skillData)
         (orElse (domain skillData) "general")
  else d.

(** The subdirectories that the file system lists for a directory, none
    when the listing fails. *)
Definition subdirectories (fs : Files) (dirPath : fspath) : list jsstring :=
  match readdir fs dirPath with
  | inr entries => List.map dname (List.filter isDirectory entries)
  | inl _ => []
  end.

(** The record that [getAllSkills] makes of the content of a skill file. *)
Definition storedSkill (domain category skillDir content : jsstring) : Skill :=
  let skill := parseSkillFile content in
  {| name := name skill;
     description := description skill;
     title := title skill;
     instructions := instructions skill;
     keywords := keywords skill;
     path := skillsDir ++ [domain; category; skillDir; "SKILL.md" : jsstring];
     domain := domain;
     category := category;
     skillName := skillDir;
     antiPattern := antiPattern skill;
     bestPractice := bestPractice skill;
     badExample := badExample skill;
     goodExample := goodExample skill;
     sources := sources skill;
     source := source skill |}.

(** The skill directories, three levels below the skills directory, in the
    order of the listings. *)
Definition skillDirectories (fs : Files) (root : fspath)
    : list (jsstring * jsstring * jsstring) :=
  flat_map (fun domain =>
    flat_map (fun category =>
      List.map (fun skillDir => (domain, category, skillDir))
        (subdirectories fs (root ++ [domain; category])))
      (subdirectories fs (root ++ [domain])))
    (subdirectories fs root).

Definition skillFile (root : fspath) (d : jsstring * jsstring * jsstring)
    : fspath :=
  let '(domain, category, skillDir) := d in
  root ++ [domain; category; skillDir; "SKILL.md" : jsstring].

(** The skills of the skill directories whose file can be read. *)
Definition readableSkills (fs : Files) : list Skill :=
  flat_map (fun d : jsstring * jsstring * jsstring =>
    let '(domain, category, skillDir) := d in
    match readFile fs (skillFile skillsDir d) with
    | ReadOk content => [storedSkill domain category skillDir content]
    | ReadFailed _ => []
    end)
    (skillDirectories fs skillsDir).

(** The file system raises no error but the two that the manager expects:
    a directory that exists already, a directory that is missing. *)
Definition quiet (fs : Files) : Prop :=
  (forall e, mkdir fs skillsDir = Some e -> e = EEXIST) /\
  (forall p e, readdir fs p = inl e -> e = ENOENT).

(** A step pushes the skills [expected] when it returns, and some of the
    first of them when it throws. *)
Definition pushes {A : Type} (m : ManagerFiles.Try A) (expected : list Skill)
    : Prop :=
  forall skills,
    match m skills with
    | (skills', inr _) => skills' = skills ++ expected
    | (skills', inl _) =>
        exists added rest, skills' = skills ++ added /\ expected = added ++ rest
    end.

(** A step does not throw. *)
Definition returns {A : Type} (m : ManagerFiles.Try A) : Prop :=
  forall skills, exists skills' a, m skills = (skills', inr a).

(** A skills directory with one skill, a skill directory without file and a
    file beside the domains. *)
Definition avoidingDir : fspath :=
  skillsDir ++ ["ohif" : jsstring; "anti-patterns" : jsstring;
                "avoiding-direct-state" : jsstring].

Definition exampleListing (p : fspath) : ErrorCode + list Dirent :=
  if bool_decide (p = skillsDir)
  then inr [MkDirent "ohif" true; MkDirent "README.md" false]
  else if bool_decide (p = skillsDir ++ ["ohif" : jsstring])
  then inr [MkDirent "anti-patterns" true]
  else if bool_decide
            (p = skillsDir ++ ["ohif" : jsstring; "anti-patterns" : jsstring])
  then inr [MkDirent "avoiding-direct-state" true; MkDirent "draft" true]
  else inl ENOENT.

Definition exampleDisk : Files :=
  {| mkdir := fun _ => None;
     readdir := exampleListing;
     readFile := fun p =>
       if bool_decide (p = avoidingDir ++ ["SKILL.md" : jsstring])
       then ReadOk (buildSkillContent avoidSkill reviewSource)
       else ReadFailed "ENOENT: no such file or directory" |}.

(** The rest of the two field patterns of [parseSkillFile], [\s*(.+)]. *)
Definition yamlTail : regex := seqs [Star true space; Group 1 (Plus dot)].

(** A text without line terminator. *)
Definition oneLine (s : jsstring) : Prop :=
  Forall (fun c => isLineTerminator c = false) s.

(** A text without the character [#]. *)
Definition noHash (s : jsstring) : Prop :=
  Forall (fun c => isChar 35 c = false) s.

(** Where the lookahead [(?=\n## |$)] holds, and the text before the first
    such place. *)
Definition ahead (s : jsstring) : bool :=
  startsWith (LF ++ "## ") s || isEmpty s.

Fixpoint beforeAhead (s : jsstring) : jsstring :=
  if ahead s then []
  else match s with
       | [] => []
       | c :: s' => c :: beforeAhead s'
       end.

(** A record without category section and without examples. *)
Definition plainSkill : Skill :=
  MkSkill [] "Keeps the store consistent. Use when testing." "Store rules"
    "Reset the store." None [] [] "neutral" "store-rules" [] [] [] [] None None.

(** The errors that the validator can raise on a built document, for the
    name and the description read from it. *)
Definition builtErrors (name description : jsstring) : list jsstring :=
  (if existsb isUnderscore name
   then ["INVALID_NAME_FORMAT" : jsstring] else []) ++
  (if existsb (fun w => includes w name) reservedWords
   then ["RESERVED_WORD" : jsstring] else []) ++
  (if isEmpty description then ["MISSING_DESCRIPTION" : jsstring]
   else if test plain xmlTagRe description
   then ["XML_IN_DESCRIPTION" : jsstring]
   else []).

(** The keywords of the anti-pattern list that hold a keyword of the
    best-practice list. *)
Definition shadowedKeywords : list jsstring :=
  lits ["should not"; "shouldn't"; "incorrect"; "anti-pattern"; "antipattern"].

(** The words that the keyword classifier keeps of a comment. *)
Definition fallbackWords (commentBody : jsstring) : list jsstring :=
  optList (keywords (AIProcessor.skillData
                       (AIProcessor.fallbackCategorization commentBody))).

(** A lower-case letter, a digit or an underscore. *)
Definition lowerWordChar (c : ascii) : bool :=
  isLower c || isDigit c || isUnderscore c.

(** The pieces of a text that the word filter of [calculateSimilarity]
    keeps. *)
Definition longWords (text : jsstring) : list jsstring :=
  List.filter (fun w => 3 <? length w) (splitRuns isWhiteSpace text).

(** The checks of [validateFrontmatter] that raise an error, as one test on
    the name and the description. *)
Definition frontmatterAccepted (name description : jsstring) : bool :=
  negb (isEmpty name) &&
  (length name <=? maxNameLength) &&
  test plain nameFormatRe name &&
  negb (existsb (fun w => includes w name) reservedWords) &&
  negb (isEmpty description) &&
  (length description <=? maxDescriptionLength) &&
  negb (test plain xmlTagRe description).

(** The listing of a directory throws an error that [getDirectories] of
    the manager passes on: any but a missing directory. *)
Definition raises (fs : Files) (dirPath : fspath) : bool :=
  match readdir fs dirPath with
  | inl ENOENT => false
  | inl _ => true
  | inr _ => false
  end.

(** [mkdir] throws an error that [ensureDirectory] passes on. *)
Definition mkdirFails (fs : Files) : bool :=
  match mkdir fs skillsDir with
  | Some EEXIST => false
  | Some _ => true
  | None => false
  end.

(** The skills of the readable files of one category directory. *)
Definition categorySkills (fs : Files) (domain category : jsstring)
    : list Skill :=
  flat_map (fun skillDir =>
    match readFile fs (skillFile skillsDir (domain, category, skillDir)) with
    | ReadOk content => [storedSkill domain category skillDir content]
    | ReadFailed _ => []
    end)
    (subdirectories fs (skillsDir ++ [domain; category])).

(** The directories that [getAllSkills] lists, in the order in which it
    lists them: the skills directory, then every domain, each followed by
    its categories.  Each comes with the skills that are read once it is
    listed: none for the skills directory and for a domain, those of its
    skill directories for a category. *)
Definition visits (fs : Files) : list (fspath * list Skill) :=
  (skillsDir, []) ::
  flat_map (fun domain =>
    (skillsDir ++ [domain], []) ::
    List.map (fun category =>
      (skillsDir ++ [domain; category], categorySkills fs domain category))
      (subdirectories fs (skillsDir ++ [domain])))
    (subdirectories fs skillsDir).

(** The elements of a list that stand before the first one at which [stop]
    holds. *)
Fixpoint upTo {A : Type} (stop : A -> bool) (l : list A) : list A :=
  match l with
  | [] => []
  | a :: l' => if stop a then [] else a :: upTo stop l'
  end.

Definition stops (fs : Files) (v : fspath * list Skill) : bool :=
  raises fs (fst v).

(** A step goes through the visits [steps]: it returns when none of the
    listings throws, having pushed all their skills, and throws at the
    first listing that does, having pushed the skills of the visits before
    it. *)
Definition runs {A : Type} (fs : Files) (m : ManagerFiles.Try A)
    (steps : list (fspath * list Skill)) : Prop :=
  forall skills,
    match m skills with
    | (skills', inr _) =>
        skills' = skills ++ flat_map snd steps /\
        existsb (stops fs) steps = false
    | (skills', inl _) =>
        skills' = skills ++ flat_map snd (upTo (stops fs) steps) /\
        existsb (stops fs) steps = true
    end.

(** A skills directory whose second domain cannot be listed. *)
Definition lockedDisk : Files :=
  {| mkdir := fun _ => None;
     readdir := fun p =>
       if bool_decide (p = skillsDir)
       then inr [MkDirent "ohif" true; MkDirent "private" true]
       else if bool_decide (p = skillsDir ++ ["private" : jsstring])
       then inl EOTHER
       else exampleListing p;
     readFile := readFile exampleDisk |}.

(** A pattern without repetition and without [^] and [$]. *)
Fixpoint simple (r : regex) : bool :=
  match r with
  | Eps | Chr _ | Cls _ | WordBoundary => true
  | Seq r1 r2 | Alt r1 r2 => simple r1 && simple r2
  | Group _ r1 => simple r1
  | Star _ _ | Bol | Eol => false
  end.

(** A sequence that ends with [\b]. *)
Fixpoint endsAtBoundary (r : regex) : bool :=
  match r with
  | WordBoundary => true
  | Seq _ r2 => endsAtBoundary r2
  | _ => false
  end.

(** No match of the pattern starts with a white-space character. *)
Definition startsOutsideSpace (fl : flags) (r : regex) : Prop :=
  forall c bef aft,
    isWhiteSpace c = true -> matchAt fl r (Pos bef (c :: aft)) = None.

(** The issue that the validator raises for a description without
    when-to-use clause. *)
Definition raisesMissingWhenToUse (v : Validation) : bool :=
  existsb (fun i => strEq (icode i) "MISSING_WHEN_TO_USE") (issues v).

(** * Properties *)

(** ** Characters and strings *)

Ltac each_char c :=
  destruct c as [[] [] [] [] [] [] [] []]; vm_compute; try reflexivity;
  try discriminate; auto.

Lemma lowerChar_not_upper (c : ascii) : isUpper (lowerChar c) = false.
Proof. each_char c. Qed.

Lemma lowerChar_whitespace (c : ascii) :
  isWhiteSpace (lowerChar c) = isWhiteSpace c.
Proof. each_char c. Qed.

Lemma kept_is_nameChar (c : ascii) :
  isUpper c = false ->
  isWordChar c || isWhiteSpace c || isHyphen c = true ->
  isWhiteSpace c = false ->
  nameChar c = true.
Proof. each_char c. Qed.

Lemma nameChar_not_space (c : ascii) :
  nameChar c = true -> isWhiteSpace c = false.
Proof. each_char c. Qed.

Lemma nameChar_not_terminator (c : ascii) :
  nameChar c = true -> isLineTerminator c = false.
Proof. each_char c. Qed.

Lemma whitespace_not_terminator (c : ascii) :
  isWhiteSpace c = false -> isLineTerminator c = false.
Proof. each_char c. Qed.

Section Preservation.

Variable P : ascii -> Prop.

Lemma Forall_replaceRunsFrom (cls : ascii -> bool) (rep s : jsstring) :
  Forall P rep ->
  Forall (fun c => cls c = false -> P c) s ->
  forall inRun, Forall P (replaceRunsFrom inRun cls rep s).
Proof.
  intros Hrep Hs. induction Hs as [|c s Hc Hs IH]; intros inRun; simpl.
  - constructor.
  - destruct (cls c) eqn:E.
    + apply Forall_app. split; [destruct inRun; [constructor | exact Hrep] | apply IH].
    + constructor; [apply Hc; reflexivity | apply IH].
Qed.

Lemma Forall_stripLeading (cls : ascii -> bool) (s : jsstring) :
  Forall P s -> Forall P (stripLeading cls s).
Proof.
  intros H. destruct H as [|c s Hc Hs]; simpl; [constructor |].
  destruct (cls c); [exact Hs | constructor; assumption].
Qed.

Lemma Forall_stripTrailing (cls : ascii -> bool) (s : jsstring) :
  Forall P s -> Forall P (stripTrailing cls s).
Proof.
  intros H. induction H as [|c s Hc Hs IH]; simpl; [constructor |].
  destruct s as [|d s'].
  - destruct (cls c); constructor; [assumption | constructor].
  - constructor; assumption.
Qed.

Lemma Forall_skipn_list (n : nat) (s : jsstring) :
  Forall P s -> Forall P (skipn n s).
Proof.
  revert s. induction n as [|n IH]; intros s H; [exact H |].
  destruct H; simpl; [constructor | apply IH; assumption].
Qed.

Lemma Forall_firstn_list (n : nat) (s : jsstring) :
  Forall P s -> Forall P (firstn n s).
Proof.
  revert s. induction n as [|n IH]; intros s H; [constructor |].
  destruct H; simpl; constructor; [assumption | apply IH; assumption].
Qed.

Lemma Forall_replaceFirst (pat rep s : jsstring) :
  Forall P rep -> Forall P s -> Forall P (replaceFirst pat rep s).
Proof.
  intros Hrep Hs. induction Hs as [|c s Hc Hs IH].
  - simpl. destruct (startsWith pat []).
    + apply Forall_app. split; [exact Hrep | apply Forall_skipn_list; constructor].
    + constructor.
  - cbn [replaceFirst]. destruct (startsWith pat (c :: s)).
    + apply Forall_app. split; [exact Hrep |].
      apply Forall_skipn_list. constructor; assumption.
    + constructor; assumption.
Qed.

End Preservation.

Lemma length_stripTrailing (cls : ascii -> bool) (s : jsstring) :
  length (stripTrailing cls s) <= length s.
Proof.
  induction s as [|c s IH]; simpl; [lia |].
  destruct s as [|d s']; [destruct (cls c); simpl; lia | simpl in *; lia].
Qed.

Lemma startsWith_app (p s : jsstring) : startsWith p (p ++ s) = true.
Proof.
  induction p as [|a p IH]; simpl; [reflexivity |].
  rewrite Ascii.eqb_refl. exact IH.
Qed.

Lemma startsWith_true (p s : jsstring) :
  startsWith p s = true -> s = p ++ skipn (length p) s.
Proof.
  revert s. induction p as [|a p IH]; intros s H; [reflexivity |].
  destruct s as [|b s]; [discriminate |]. simpl in H.
  apply andb_prop in H as [Hab Hp]. apply Ascii.eqb_eq in Hab. subst b.
  simpl. f_equal. apply IH. exact Hp.
Qed.

(** When the pattern is a prefix, [replace] rewrites that prefix. *)
Lemma replaceFirst_prefix (pat rep s : jsstring) :
  startsWith pat s = true ->
  replaceFirst pat rep s = rep ++ skipn (length pat) s.
Proof.
  intros H. destruct s as [|c s]; simpl; simpl in H; rewrite H; reflexivity.
Qed.

(** ** The matcher *)

Lemma beforeFirst_Some (pat s pre : jsstring) :
  beforeFirst pat s = Some pre ->
  exists tl, s = pre ++ tl /\ startsWith pat tl = true.
Proof.
  revert pre. induction s as [|c s IH]; intros pre; cbn [beforeFirst].
  - destruct (startsWith pat []) eqn:E; [| discriminate].
    intros [= <-]. exists []. auto.
  - destruct (startsWith pat (c :: s)) eqn:E.
    + intros [= <-]. exists (c :: s). auto.
    + destruct (beforeFirst pat s) as [pre'|]; [| discriminate].
      intros [= <-]. destruct (IH pre' eq_refl) as [tl [-> Htl]].
      exists tl. auto.
Qed.

(** A text that holds no first character of [pat] is skipped. *)
Lemma beforeFirst_skip (p0 : ascii) (pat a b : jsstring) :
  Forall (fun c => Ascii.eqb p0 c = false) a ->
  beforeFirst (p0 :: pat) (a ++ b) =
  option_map (app a) (beforeFirst (p0 :: pat) b).
Proof.
  induction 1 as [|c a Hc Ha IH].
  - cbn [app]. destruct (beforeFirst (p0 :: pat) b); reflexivity.
  - cbn [app beforeFirst startsWith]. rewrite Hc, IH. cbn [andb].
    destruct (beforeFirst (p0 :: pat) b); reflexivity.
Qed.

Lemma beforeFirst_here (pat s : jsstring) :
  startsWith pat s = true -> beforeFirst pat s = Some [].
Proof. intros H. destruct s; cbn [beforeFirst]; rewrite H; reflexivity. Qed.

Lemma beforeFirst_occurs (pat a b : jsstring) :
  exists pre tl, beforeFirst pat (a ++ pat ++ b) = Some pre /\ a = pre ++ tl.
Proof.
  induction a as [|c a (pre & tl & E & Ea)].
  - exists [], []. split; [| reflexivity].
    apply beforeFirst_here. exact (startsWith_app pat b).
  - cbn [app beforeFirst]. destruct (startsWith pat (c :: a ++ pat ++ b)).
    + exists [], (c :: a). auto.
    + rewrite E. exists (c :: pre), tl. split; [reflexivity |].
      rewrite Ea. reflexivity.
Qed.

Section MatcherFacts.

Variable fl : flags.

Lemma starLoop_lazy_any (k : cont) (fuel : nat) :
  forall bef aft cs,
    length aft < fuel ->
    starLoop (run fl anyChar) false k fuel (Pos bef aft) cs =
    lazyScan k bef aft cs.
Proof.
  induction fuel as [|fuel IH]; intros bef aft cs Hlen; [lia |].
  cbn [starLoop]. destruct aft as [|c aft]; cbn [lazyScan].
  - destruct (k (Pos bef []) cs); reflexivity.
  - destruct (k (Pos bef (c :: aft)) cs); [reflexivity |].
    unfold anyChar. cbn [run]. unfold step. cbn [after before].
    replace (length aft <? length (c :: aft)) with true
      by (symmetry; apply Nat.ltb_lt; simpl; lia).
    apply IH. simpl in Hlen. lia.
Qed.

Lemma starLoop_greedy_cls (cls : ascii -> bool) (k : cont) (fuel : nat) :
  forall bef aft cs,
    length aft < fuel ->
    starLoop (run fl (Cls cls)) true k fuel (Pos bef aft) cs =
    greedyScan cls k bef aft cs.
Proof.
  induction fuel as [|fuel IH]; intros bef aft cs Hlen; [lia |].
  cbn [starLoop run]. unfold step. cbn [after before].
  destruct aft as [|c aft]; cbn [greedyScan]; [reflexivity |].
  destruct (cls c); [| reflexivity].
  replace (length aft <? length (c :: aft)) with true
    by (symmetry; apply Nat.ltb_lt; simpl; lia).
  rewrite IH by (simpl in Hlen; lia). reflexivity.
Qed.

Hypothesis caseSensitive : ignoreCase fl = false.

Lemma run_Str (l : jsstring) :
  forall bef aft cs k,
    run fl (Str l) (Pos bef aft) cs k =
    if startsWith l aft
    then k (Pos (rev l ++ bef) (skipn (length l) aft)) cs
    else None.
Proof.
  induction l as [|a l IH]; intros bef aft cs k; [reflexivity |].
  cbn [Str run]. unfold step, canon. rewrite caseSensitive. cbn [after before].
  destruct aft as [|x aft]; [reflexivity |].
  cbn [startsWith]. rewrite (Ascii.eqb_sym a x).
  destruct (Ascii.eqb_spec x a) as [-> | Hne]; [| reflexivity].
  cbn [andb]. rewrite IH. cbn [rev length skipn].
  rewrite <- app_assoc. reflexivity.
Qed.

End MatcherFacts.

Lemma lazyScan_beforeFirst (k : cont) (pat : jsstring) :
  (forall p cs, startsWith pat (after p) = false -> k p cs = None) ->
  (forall p cs, startsWith pat (after p) = true -> k p cs <> None) ->
  forall aft bef cs,
    lazyScan k bef aft cs =
    match beforeFirst pat aft with
    | Some pre => k (Pos (rev pre ++ bef) (skipn (length pre) aft)) cs
    | None => None
    end.
Proof.
  intros Hno Hyes. induction aft as [|c aft IH]; intros bef cs;
    cbn [lazyScan beforeFirst].
  - destruct (startsWith pat []) eqn:E.
    + cbn [rev app length skipn]. destruct (k (Pos bef []) cs); reflexivity.
    + rewrite (Hno (Pos bef []) cs E). reflexivity.
  - destruct (startsWith pat (c :: aft)) eqn:E.
    + specialize (Hyes (Pos bef (c :: aft)) cs E). cbn [rev app length skipn].
      destruct (k (Pos bef (c :: aft)) cs); [reflexivity | congruence].
    + rewrite (Hno (Pos bef (c :: aft)) cs E), IH.
      destruct (beforeFirst pat aft) as [pre|]; [| reflexivity].
      cbn [option_map rev length skipn]. rewrite <- app_assoc. reflexivity.
Qed.

Lemma greedyScan_reach (cls : ascii -> bool) (k : cont) (a : jsstring) :
  forall bef b cs r,
    Forall (fun c => cls c = true) a ->
    greedyScan cls k (rev a ++ bef) b cs = Some r ->
    greedyScan cls k bef (a ++ b) cs = Some r.
Proof.
  induction a as [|c a IH]; intros bef b cs r Ha H; [exact H |].
  inversion Ha as [|? ? Hc Ha']; subst.
  cbn [app greedyScan]. rewrite Hc.
  rewrite (IH (c :: bef) b cs r Ha'); [reflexivity |].
  cbn [rev] in H. rewrite <- app_assoc in H. exact H.
Qed.

Lemma greedyScan_stop (cls : ascii -> bool) (k : cont) (bef b : jsstring)
    (cs : caps) :
  match b with [] => true | c :: _ => negb (cls c) end = true ->
  greedyScan cls k bef b cs = k (Pos bef b) cs.
Proof.
  destruct b as [|c b]; cbn [greedyScan]; [reflexivity |].
  intros H. apply negb_true_iff in H. rewrite H. reflexivity.
Qed.

Lemma skipn_length_app (a b : jsstring) : skipn (length a) (a ++ b) = b.
Proof. induction a as [|c a IH]; [reflexivity | exact IH]. Qed.

Lemma consumed_app (bef bef' a b : jsstring) :
  consumed (Pos bef (a ++ b)) (Pos bef' b) = a.
Proof.
  unfold consumed. cbn [after]. rewrite length_app, Nat.add_sub.
  rewrite firstn_app, Nat.sub_diag, firstn_all. apply app_nil_r.
Qed.

Lemma search_here (fl : flags) (r : regex) (bef aft : jsstring) (m : found) :
  matchAt fl r (Pos bef aft) = Some m -> search fl r bef aft = Some m.
Proof. intros H. destruct aft; cbn [search]; rewrite H; reflexivity. Qed.

Lemma search_next (fl : flags) (r : regex) (bef aft : jsstring) (c : ascii) :
  matchAt fl r (Pos bef (c :: aft)) = None ->
  search fl r bef (c :: aft) = search fl r (c :: bef) aft.
Proof. intros H. cbn [search]. rewrite H. reflexivity. Qed.

(** Under the [m] flag a pattern that starts with [^] matches nowhere inside
    a line. *)
Lemma search_inside_line (r : regex) (a : jsstring) :
  forall bef x l b,
    isLineTerminator x = false ->
    Forall (fun c => isLineTerminator c = false) a ->
    search flagM (Seq Bol r) (x :: bef) (a ++ l :: b) =
    search flagM (Seq Bol r) (l :: rev a ++ x :: bef) b.
Proof.
  induction a as [|c a IH]; intros bef x l b Hx Ha.
  - cbn [app rev]. apply search_next. unfold matchAt. cbn [run].
    unfold atLineStart. cbn [before multiline flagM]. rewrite Hx. reflexivity.
  - inversion Ha as [|? ? Hc Ha']; subst. cbn [app rev].
    rewrite search_next.
    + rewrite IH by assumption. rewrite <- app_assoc. reflexivity.
    + unfold matchAt. cbn [run]. unfold atLineStart.
      cbn [before multiline flagM]. rewrite Hx. reflexivity.
Qed.

Lemma run_Seq (fl : flags) (r1 r2 : regex) (p : pos) (cs : caps) (k : cont) :
  run fl (Seq r1 r2) p cs k =
  run fl r1 p cs (fun p' cs' => run fl r2 p' cs' k).
Proof. reflexivity. Qed.

Lemma run_greedy_cls (fl : flags) (cls : ascii -> bool) (bef aft : jsstring)
    (cs : caps) (k : cont) :
  run fl (Star true (Cls cls)) (Pos bef aft) cs k = greedyScan cls k bef aft cs.
Proof. cbn [run after]. apply (starLoop_greedy_cls fl). lia. Qed.

Lemma run_lazy_any (fl : flags) (bef aft : jsstring) (cs : caps) (k : cont) :
  run fl (Star false anyChar) (Pos bef aft) cs k = lazyScan k bef aft cs.
Proof. cbn [run after]. apply (starLoop_lazy_any fl). lia. Qed.

Lemma run_Bol (fl : flags) (p : pos) (cs : caps) (k : cont) :
  run fl Bol p cs k = if atLineStart fl p then k p cs else None.
Proof. reflexivity. Qed.

Lemma run_Group (fl : flags) (n : nat) (r : regex) (p : pos) (cs : caps)
    (k : cont) :
  run fl (Group n r) p cs k =
  run fl r p cs (fun p' cs' => k p' ((n, consumed p p') :: cs')).
Proof. reflexivity. Qed.

(** ** The matcher against the list forms

    On the simple patterns of the normalizer, of [makeConcise] and of the
    similarity text, [replaceAll], [replaceOne] and [split] compute the list
    forms: the properties of these functions are proved on the lists. *)

Lemma starLoop_greedy_step (body : pos -> caps -> cont -> result)
    (cls : ascii -> bool) (k : cont) (fuel : nat) :
  (forall p cs k', body p cs k' = step cls p cs k') ->
  forall bef aft cs,
    length aft < fuel ->
    starLoop body true k fuel (Pos bef aft) cs = greedyScan cls k bef aft cs.
Proof.
  intros Hbody. induction fuel as [|fuel IH]; intros bef aft cs Hlen; [lia |].
  cbn [starLoop]. rewrite Hbody. unfold step. cbn [after before].
  destruct aft as [|c aft]; cbn [greedyScan]; [reflexivity |].
  destruct (cls c); [| reflexivity].
  replace (length aft <? length (c :: aft)) with true
    by (symmetry; apply Nat.ltb_lt; simpl; lia).
  rewrite IH by (simpl in Hlen; lia). reflexivity.
Qed.

Lemma run_greedy_step (fl : flags) (r1 : regex) (cls : ascii -> bool)
    (bef aft : jsstring) (cs : caps) (k : cont) :
  (forall p cs' k', run fl r1 p cs' k' = step cls p cs' k') ->
  run fl (Star true r1) (Pos bef aft) cs k = greedyScan cls k bef aft cs.
Proof.
  intros H. cbn [run after]. apply starLoop_greedy_step; [exact H | lia].
Qed.

Lemma eqb_hyphen (x : ascii) : Ascii.eqb x "-" = isHyphen x.
Proof. each_char x. Qed.

Lemma run_Chr_plain (c : ascii) (p : pos) (cs : caps) (k : cont) :
  run plain (Chr c) p cs k = step (fun x => Ascii.eqb x c) p cs k.
Proof. reflexivity. Qed.

Lemma run_Cls (fl : flags) (cls : ascii -> bool) (p : pos) (cs : caps)
    (k : cont) :
  run fl (Cls cls) p cs k = step cls p cs k.
Proof. reflexivity. Qed.

Section GlobalReplace.

Variable fl : flags.
Variable cls : ascii -> bool.
Variable rep : jsstring.

Lemma between_app (bef bef' a b : jsstring) :
  between (Pos bef (a ++ b)) (Pos bef' b) = a.
Proof. apply consumed_app. Qed.

Lemma consumed_cons (bef bef' rest : jsstring) (x : ascii) :
  consumed (Pos bef (x :: rest)) (Pos bef' rest) = [x].
Proof. apply (consumed_app bef bef' [x] rest). Qed.

Lemma matchAt_Cls (bef aft : jsstring) :
  matchAt fl (Cls cls) (Pos bef aft) =
  match aft with
  | x :: rest =>
      if cls x then Some (Found (Pos bef aft) (Pos (x :: bef) rest) []) else None
  | [] => None
  end.
Proof.
  unfold matchAt. cbn [run]. unfold step. cbn [after before].
  destruct aft as [|x rest]; [reflexivity |]. destruct (cls x); reflexivity.
Qed.

Lemma matchesFrom_skip (r : regex) (fuel : nat) (bef rest : jsstring)
    (x : ascii) :
  matchAt fl r (Pos bef (x :: rest)) = None ->
  matchesFrom fl (S fuel) r bef (x :: rest) =
  matchesFrom fl (S fuel) r (x :: bef) rest.
Proof. intros H. cbn [matchesFrom search]. rewrite H. reflexivity. Qed.

Lemma matchesFrom_here (r : regex) (fuel : nat) (bef aft : jsstring)
    (m : found) :
  matchAt fl r (Pos bef aft) = Some m ->
  matchesFrom fl (S fuel) r bef aft =
  m :: match matched m, after (mend m) with
       | [], [] => []
       | [], c :: aft' => matchesFrom fl fuel r (c :: before (mend m)) aft'
       | _ :: _, _ => matchesFrom fl fuel r (before (mend m)) (after (mend m))
       end.
Proof.
  intros H. cbn [matchesFrom]. rewrite (search_here _ _ _ _ _ H). reflexivity.
Qed.

Lemma matchesFrom_end (r : regex) (fuel : nat) (bef : jsstring) :
  matchAt fl r (Pos bef []) = None -> matchesFrom fl (S fuel) r bef [] = [].
Proof. intros H. cbn [matchesFrom search]. rewrite H. reflexivity. Qed.

(** [s.replace(/[cls]/g, rep)] *)
Lemma stitch_Cls (aft : jsstring) :
  forall fuel bef b0 pre,
    length aft < fuel ->
    stitch rep (Pos b0 (pre ++ aft)) (matchesFrom fl fuel (Cls cls) bef aft) =
    pre ++ flat_map (fun c => if cls c then rep else [c]) aft.
Proof.
  induction aft as [|x rest IH]; intros fuel bef b0 pre Hlen;
    (destruct fuel as [|fuel]; [simpl in Hlen; lia |]).
  - rewrite matchesFrom_end by apply matchAt_Cls. reflexivity.
  - cbn [flat_map]. destruct (cls x) eqn:Ex.
    + rewrite (matchesFrom_here _ _ _ _
                 (Found (Pos bef (x :: rest)) (Pos (x :: bef) rest) []))
        by (rewrite matchAt_Cls, Ex; reflexivity).
      unfold matched. cbn [mstart mend before after]. rewrite consumed_cons.
      cbn [stitch mstart mend]. rewrite between_app.
      assert (Hl : length rest < fuel) by (simpl in Hlen; lia).
      pose proof (IH fuel (x :: bef) (x :: bef) [] Hl) as H. cbn [app] in H.
      rewrite H. reflexivity.
    + rewrite matchesFrom_skip by (rewrite matchAt_Cls, Ex; reflexivity).
      change (pre ++ x :: rest) with (pre ++ [x] ++ rest).
      rewrite app_assoc, IH by (simpl in Hlen; lia).
      rewrite <- app_assoc. reflexivity.
Qed.

End GlobalReplace.

Lemma replaceAll_Cls (fl : flags) (cls : ascii -> bool) (s : jsstring) :
  replaceAll fl (Cls cls) [] s = removeChars cls s.
Proof.
  unfold replaceAll.
  pose proof (stitch_Cls fl cls [] s (S (length s)) [] [] []
                (Nat.lt_succ_diag_r _)) as H. cbn [app] in H. rewrite H. clear H.
  unfold removeChars. induction s as [|c s IH]; [reflexivity |].
  cbn [flat_map List.filter app]. rewrite IH. destruct (cls c); reflexivity.
Qed.

Section GlobalRuns.

Variable fl : flags.
Variable cls : ascii -> bool.
Variable rep : jsstring.

(** A pattern [one] that takes one character of [cls]: a class, or a
    pattern character. *)
Variable one : regex.

Hypothesis one_step :
  forall p cs k, run fl one p cs k = step cls p cs k.


(** The maximal run of [cls] at the head of a text and what follows it. *)
Lemma span_run (s : jsstring) :
  exists ws rest,
    s = ws ++ rest /\ Forall (fun c => cls c = true) ws /\
    match rest with [] => true | c :: _ => negb (cls c) end = true.
Proof.
  induction s as [|c s (ws & rest & E & Hrun & Hrest)].
  - exists [], []. repeat split. constructor.
  - destruct (cls c) eqn:Ec.
    + exists (c :: ws), rest. rewrite E. repeat split; auto.
    + exists [], (c :: s). cbn. rewrite Ec. repeat split. constructor.
Qed.

Lemma replaceRunsFrom_run (ws rest : jsstring) :
  Forall (fun c => cls c = true) ws ->
  match rest with [] => true | c :: _ => negb (cls c) end = true ->
  replaceRunsFrom true cls rep (ws ++ rest) =
  replaceRunsFrom false cls rep rest.
Proof.
  intros Hrun Hrest. induction Hrun as [|c ws Hc Hrun IH].
  - destruct rest as [|c rest]; [reflexivity |]. cbn [app replaceRunsFrom].
    apply negb_true_iff in Hrest. rewrite Hrest. reflexivity.
  - cbn [app replaceRunsFrom]. rewrite Hc. exact IH.
Qed.

Lemma matchAt_Plus (bef ws rest : jsstring) (x : ascii) :
  cls x = true ->
  Forall (fun c => cls c = true) ws ->
  match rest with [] => true | c :: _ => negb (cls c) end = true ->
  matchAt fl (Plus one) (Pos bef (x :: ws ++ rest)) =
  Some (Found (Pos bef (x :: ws ++ rest)) (Pos (rev ws ++ x :: bef) rest) []).
Proof.
  intros Hx Hrun Hrest. unfold matchAt, Plus. rewrite run_Seq, one_step.
  unfold step. cbn [after before]. rewrite Hx.
  rewrite (run_greedy_step fl one cls _ _ _ _ one_step).
  rewrite (greedyScan_reach cls _ ws (x :: bef) rest []
             (Pos (rev ws ++ x :: bef) rest, []) Hrun); [reflexivity |].
  rewrite greedyScan_stop by exact Hrest. reflexivity.
Qed.

Lemma matchAt_Plus_none (bef aft : jsstring) :
  match aft with [] => true | c :: _ => negb (cls c) end = true ->
  matchAt fl (Plus one) (Pos bef aft) = None.
Proof.
  intros H. unfold matchAt, Plus. rewrite run_Seq, one_step.
  unfold step. cbn [after before]. destruct aft as [|c aft]; [reflexivity |].
  apply negb_true_iff in H. rewrite H. reflexivity.
Qed.

(** [s.replace(/[cls]+/g, rep)] *)
Lemma stitch_Plus (fuel : nat) :
  forall aft bef b0 pre,
    length aft < fuel ->
    stitch rep (Pos b0 (pre ++ aft))
      (matchesFrom fl fuel (Plus one) bef aft) =
    pre ++ replaceRunsFrom false cls rep aft.
Proof.
  induction fuel as [|fuel IHfuel]; [intros; lia |].
  induction aft as [|x aft IH]; intros bef b0 pre Hlen.
  - rewrite matchesFrom_end by (apply matchAt_Plus_none; reflexivity).
    reflexivity.
  - destruct (cls x) eqn:Ex.
    + destruct (span_run aft) as (ws & rest & E & Hrun & Hrest). subst aft.
      rewrite (matchesFrom_here _ _ _ _ _ _
                 (matchAt_Plus bef ws rest x Ex Hrun Hrest)).
      unfold matched. cbn [mstart mend before after].
      assert (Hc : consumed (Pos bef (x :: ws ++ rest))
                     (Pos (rev ws ++ x :: bef) rest) = x :: ws)
        by exact (consumed_app _ _ (x :: ws) rest).
      rewrite Hc. cbn [stitch mstart mend]. rewrite between_app.
      assert (Hl : length rest < fuel).
      { simpl in Hlen. rewrite length_app in Hlen. lia. }
      pose proof (IHfuel rest (rev ws ++ x :: bef) (rev ws ++ x :: bef) [] Hl)
        as H. cbn [app] in H. rewrite H.
      cbn [replaceRunsFrom]. rewrite Ex.
      rewrite (replaceRunsFrom_run ws rest Hrun Hrest). reflexivity.
    + rewrite matchesFrom_skip
        by (apply matchAt_Plus_none; cbn; rewrite Ex; reflexivity).
      change (pre ++ x :: aft) with (pre ++ [x] ++ aft).
      rewrite app_assoc, IH by (simpl in Hlen; lia).
      cbn [replaceRunsFrom]. rewrite Ex, <- app_assoc. reflexivity.
Qed.

End GlobalRuns.

(** [s.replace(/[cls]+/g, rep)] and [s.replace(/c+/g, rep)] *)
Lemma replaceAll_Plus (fl : flags) (cls : ascii -> bool) (one : regex)
    (rep s : jsstring) :
  (forall p cs k, run fl one p cs k = step cls p cs k) ->
  replaceAll fl (Plus one) rep s = replaceRuns cls rep s.
Proof.
  intros Hone. unfold replaceAll, replaceRuns.
  pose proof (stitch_Plus fl cls rep one Hone (S (length s)) s [] [] []
                (Nat.lt_succ_diag_r _)) as H. cbn [app] in H. exact H.
Qed.

Lemma step_hyphen (p : pos) (cs : caps) (k : cont) :
  run plain (Chr "-") p cs k = step isHyphen p cs k.
Proof.
  rewrite run_Chr_plain. unfold step. destruct (after p) as [|x rest];
    [reflexivity |]. rewrite eqb_hyphen. reflexivity.
Qed.

Section StripEnds.

Variable fl : flags.
Variable cls : ascii -> bool.

(** A pattern that takes one character of [cls] at the end of the text, and
    also at its start when [atStart] is set. *)
Variable r : regex.
Variable atStart : bool.

Hypothesis matchAt_r :
  forall bef aft,
    matchAt fl r (Pos bef aft) =
    match aft with
    | [] => None
    | x :: rest =>
        if cls x && ((atStart && isEmpty bef) || isEmpty rest)
        then Some (Found (Pos bef aft) (Pos (x :: bef) rest) [])
        else None
    end.

Lemma stitch_inside (aft : jsstring) :
  forall fuel bef b0 pre,
    atStart && isEmpty bef = false ->
    length aft < fuel ->
    stitch [] (Pos b0 (pre ++ aft)) (matchesFrom fl fuel r bef aft) =
    pre ++ stripTrailing cls aft.
Proof.
  induction aft as [|x aft IH]; intros fuel bef b0 pre Hbef Hlen;
    (destruct fuel as [|fuel]; [simpl in Hlen; lia |]).
  - rewrite matchesFrom_end by apply matchAt_r. reflexivity.
  - destruct aft as [|y aft].
    + destruct (cls x) eqn:Ex.
      * rewrite (matchesFrom_here fl _ _ _ _
                   (Found (Pos bef [x]) (Pos (x :: bef) []) []))
          by (rewrite matchAt_r, Ex, orb_true_r; reflexivity).
        unfold matched. cbn [mstart mend before after].
        rewrite consumed_cons. cbn [stitch mstart mend stripTrailing].
        rewrite Ex, between_app.
        destruct fuel as [|fuel]; [reflexivity |].
        rewrite matchesFrom_end by apply matchAt_r. reflexivity.
      * rewrite matchesFrom_skip by (rewrite matchAt_r, Ex; reflexivity).
        rewrite matchesFrom_end by apply matchAt_r.
        cbn [stitch after stripTrailing]. rewrite Ex. reflexivity.
    + rewrite matchesFrom_skip.
      2:{ rewrite matchAt_r, Hbef. cbn [isEmpty orb]. rewrite andb_false_r.
          reflexivity. }
      change (pre ++ x :: y :: aft) with (pre ++ [x] ++ y :: aft).
      rewrite app_assoc, IH;
        [| cbn [isEmpty]; apply andb_false_r | simpl in *; lia].
      rewrite <- app_assoc. reflexivity.
Qed.

Lemma search_inside (aft : jsstring) :
  forall bef b0 pre,
    atStart && isEmpty bef = false ->
    match search fl r bef aft with
    | None => pre ++ aft
    | Some m => stitch [] (Pos b0 (pre ++ aft)) [m]
    end = pre ++ stripTrailing cls aft.
Proof.
  induction aft as [|x aft IH]; intros bef b0 pre Hbef.
  - cbn [search]. rewrite matchAt_r. reflexivity.
  - destruct aft as [|y aft].
    + destruct (cls x) eqn:Ex.
      * rewrite (search_here fl _ _ _
                   (Found (Pos bef [x]) (Pos (x :: bef) []) []))
          by (rewrite matchAt_r, Ex, orb_true_r; reflexivity).
        cbn [stitch mstart mend stripTrailing after]. rewrite Ex, between_app.
        reflexivity.
      * rewrite search_next by (rewrite matchAt_r, Ex; reflexivity).
        cbn [search]. rewrite matchAt_r. cbn [stripTrailing]. rewrite Ex.
        reflexivity.
    + rewrite search_next.
      2:{ rewrite matchAt_r, Hbef. cbn [isEmpty orb]. rewrite andb_false_r.
          reflexivity. }
      change (pre ++ x :: y :: aft) with (pre ++ [x] ++ y :: aft).
      rewrite app_assoc.
      rewrite (IH (x :: bef) b0 (pre ++ [x]))
        by (cbn [isEmpty]; apply andb_false_r).
      rewrite <- app_assoc. reflexivity.
Qed.

End StripEnds.

(** [s.replace(/^-|-$/g, '')] *)
Lemma replaceAll_strip_ends (s : jsstring) :
  replaceAll plain (Alt (Seq Bol (Chr "-")) (Seq (Chr "-") Eol)) [] s =
  stripTrailing isHyphen (stripLeading isHyphen s).
Proof.
  set (r := Alt (Seq Bol (Chr "-")) (Seq (Chr "-") Eol)).
  assert (Hm : forall bef aft,
             matchAt plain r (Pos bef aft) =
             match aft with
             | [] => None
             | x :: rest =>
                 if isHyphen x && ((true && isEmpty bef) || isEmpty rest)
                 then Some (Found (Pos bef aft) (Pos (x :: bef) rest) [])
                 else None
             end).
  { intros bef aft. unfold matchAt, r. cbn [run]. unfold step, canon.
    cbn [ignoreCase plain after before]. unfold atLineStart, atLineEnd.
    cbn [before after multiline plain].
    destruct aft as [|x rest]; [destruct bef; reflexivity |].
    rewrite eqb_hyphen.
    destruct (isHyphen x), bef, rest; reflexivity. }
  unfold replaceAll. destruct s as [|x rest].
  - rewrite matchesFrom_end by (rewrite Hm; reflexivity). reflexivity.
  - cbn [stripLeading length]. destruct (isHyphen x) eqn:Ex.
    + rewrite (matchesFrom_here plain _ _ _ _
                 (Found (Pos [] (x :: rest)) (Pos [x] rest) []))
        by (rewrite Hm, Ex; reflexivity).
      unfold matched. cbn [mstart mend before after]. rewrite consumed_cons.
      cbn [stitch mstart mend].
      pose proof (stitch_inside plain isHyphen r true Hm rest
                    (S (length rest)) [x] [x] [] eq_refl
                    (Nat.lt_succ_diag_r _)) as H.
      cbn [app] in H. rewrite H. unfold between. cbn [after].
      rewrite Nat.sub_diag. reflexivity.
    + rewrite matchesFrom_skip by (rewrite Hm, Ex; reflexivity).
      pose proof (stitch_inside plain isHyphen r true Hm rest
                    (S (S (length rest))) [x] [] [x] eq_refl
                    (Nat.lt_lt_succ_r _ _ (Nat.lt_succ_diag_r _))) as H.
      cbn [app] in H. rewrite H.
      destruct rest; [cbn [stripTrailing]; rewrite Ex |]; reflexivity.
Qed.

(** [s.replace(/-$/, '')] *)
Lemma replaceOne_strip_last (s : jsstring) :
  replaceOne plain (Seq (Chr "-") Eol) [] s = stripTrailing isHyphen s.
Proof.
  set (r := Seq (Chr "-") Eol).
  assert (Hm : forall bef aft,
             matchAt plain r (Pos bef aft) =
             match aft with
             | [] => None
             | x :: rest =>
                 if isHyphen x && ((false && isEmpty bef) || isEmpty rest)
                 then Some (Found (Pos bef aft) (Pos (x :: bef) rest) [])
                 else None
             end).
  { intros bef aft. unfold matchAt, r. cbn [run]. unfold step, canon.
    cbn [ignoreCase plain after before]. unfold atLineEnd.
    cbn [before after multiline plain].
    destruct aft as [|x rest]; [reflexivity |].
    rewrite eqb_hyphen.
    destruct (isHyphen x), rest; reflexivity. }
  unfold replaceOne, exec.
  exact (search_inside plain isHyphen r false Hm s [] [] [] eq_refl).
Qed.

Section SplitRuns.

Variable fl : flags.
Variable cls : ascii -> bool.
Variable one : regex.

Hypothesis one_step :
  forall p cs k, run fl one p cs k = step cls p cs k.

Lemma splitRunsFrom_run (ws rest : jsstring) :
  Forall (fun c => cls c = true) ws ->
  match rest with [] => true | c :: _ => negb (cls c) end = true ->
  splitRunsFrom true cls (ws ++ rest) = splitRunsFrom false cls rest.
Proof.
  intros Hrun Hrest. induction Hrun as [|c ws Hc Hrun IH].
  - destruct rest as [|c rest]; [reflexivity |]. cbn [app splitRunsFrom].
    apply negb_true_iff in Hrest. rewrite Hrest. reflexivity.
  - cbn [app splitRunsFrom]. rewrite Hc. exact IH.
Qed.

Lemma splitRunsFrom_cons (inRun : bool) (s : jsstring) :
  exists w ws, splitRunsFrom inRun cls s = w :: ws.
Proof.
  revert inRun. induction s as [|c s IH]; intros inRun; cbn [splitRunsFrom].
  - eauto.
  - destruct (cls c).
    + destruct inRun; [apply IH | eauto].
    + destruct (IH false) as (w & ws & ->). eauto.
Qed.

Lemma splitFrom_Plus (fuel : nat) :
  forall aft cur bef,
    length aft < fuel ->
    splitFrom fl fuel (Plus one) cur bef aft =
    onHead cur (splitRunsFrom false cls aft).
Proof.
  induction fuel as [|fuel IHfuel]; [intros; lia |].
  intros [|x aft] cur bef Hlen.
  - cbn [splitFrom splitRunsFrom onHead]. rewrite app_nil_r. reflexivity.
  - cbn [splitFrom]. destruct (cls x) eqn:Ex.
    + destruct (span_run cls aft) as (ws & rest & E & Hrun & Hrest). subst aft.
      rewrite (matchAt_Plus fl cls one one_step bef ws rest x Ex Hrun Hrest).
      unfold matched. cbn [mstart mend before after].
      assert (Hc : consumed (Pos bef (x :: ws ++ rest))
                     (Pos (rev ws ++ x :: bef) rest) = x :: ws)
        by exact (consumed_app _ _ (x :: ws) rest).
      rewrite Hc. cbn iota.
      rewrite IHfuel by (simpl in Hlen; rewrite length_app in Hlen; lia).
      cbn [splitRunsFrom]. rewrite Ex.
      rewrite (splitRunsFrom_run ws rest Hrun Hrest).
      destruct (splitRunsFrom_cons false rest) as (w & pieces & ->).
      cbn [onHead rev app]. rewrite app_nil_r. reflexivity.
    + rewrite (matchAt_Plus_none fl cls one one_step)
        by (cbn; rewrite Ex; reflexivity).
      rewrite IHfuel by (simpl in Hlen; lia).
      cbn [splitRunsFrom]. rewrite Ex.
      destruct (splitRunsFrom_cons false aft) as (w & pieces & ->).
      cbn [onHead rev]. rewrite <- app_assoc. reflexivity.
Qed.

End SplitRuns.

(** [s.split(/[cls]+/)] *)
Lemma split_Plus (fl : flags) (cls : ascii -> bool) (one : regex)
    (s : jsstring) :
  (forall p cs k, run fl one p cs k = step cls p cs k) ->
  split fl (Plus one) s = splitRuns cls s.
Proof.
  intros Hone. unfold split, splitRuns. destruct s as [|x s].
  - rewrite (matchAt_Plus_none fl cls one Hone) by reflexivity. reflexivity.
  - rewrite (splitFrom_Plus fl cls one Hone) by (simpl; lia).
    destruct (splitRunsFrom false cls (x :: s)) eqn:E; [| reflexivity].
    exfalso. cbn [splitRunsFrom] in E. destruct (cls x); [discriminate |].
    destruct (splitRunsFrom false cls s); discriminate.
Qed.

(** The normalizer and the significant words, on the list forms. *)
Lemma normalizeSkillName_lists (name : jsstring) :
  normalizeSkillName name = normalizeList name.
Proof.
  unfold normalizeSkillName, normalizeList, notWordSpaceHyphen, spaces,
    hyphens, hyphenAtEnds, hyphenAtEnd, space.
  rewrite replaceAll_Cls.
  rewrite (replaceAll_Plus plain isWhiteSpace (Cls isWhiteSpace))
    by reflexivity.
  rewrite (replaceAll_Plus plain isHyphen (Chr "-")) by apply step_hyphen.
  rewrite replaceAll_strip_ends, replaceOne_strip_last. reflexivity.
Qed.

Lemma significantWords_lists (text : jsstring) :
  significantWords text =
  list_to_set
    (List.filter (fun w => 3 <? length w) (splitRuns isWhiteSpace text)).
Proof.
  unfold significantWords, space.
  rewrite (split_Plus plain isWhiteSpace (Cls isWhiteSpace)) by reflexivity.
  reflexivity.
Qed.

Example matcher_word_boundary :
  SkillGenerator.hasWhenToUse "Applies. Use when testing." = true /\
  SkillGenerator.hasWhenToUse "A house whence it came" = false /\
  SkillGenerator.makeConcise "Basically, just  never mutate." =
    ", never mutate.".
Proof. vm_compute. repeat split. Qed.

(** ** The normalizer *)

Lemma verbMappings_nameChar :
  Forall (fun e => Forall (fun c => nameChar c = true) (snd e ++ "-"))
    verbMappings.
Proof. repeat constructor. Qed.

Lemma gerundLoop_nameChar (entries : list (jsstring * jsstring))
    (name : jsstring) :
  Forall (fun e => Forall (fun c => nameChar c = true) (snd e ++ "-")) entries ->
  Forall (fun c => nameChar c = true) name ->
  Forall (fun c => nameChar c = true) (gerundLoop entries name).
Proof.
  intros He Hn. induction He as [|[verb gerund] entries Hg He IH]; simpl.
  - exact Hn.
  - destruct (startsWith _ name); [| exact IH].
    apply Forall_replaceFirst; [exact Hg | exact Hn].
Qed.

(** Every character of a normalized name is in [[a-z0-9_-]]. *)
Lemma normalizeSkillName_chars (name : jsstring) :
  Forall (fun c => nameChar c = true) (normalizeSkillName name).
Proof.
  rewrite normalizeSkillName_lists. unfold normalizeList.
  set (kept := removeChars _ (toLowerCase name)).
  assert (Hkept : Forall (fun c => isUpper c = false /\
                    isWordChar c || isWhiteSpace c || isHyphen c = true) kept).
  { unfold kept, removeChars, toLowerCase. apply List.Forall_forall. intros c Hc.
    apply filter_In in Hc as [Hin Hc]. apply in_map_iff in Hin as [d [<- _]].
    split; [apply lowerChar_not_upper |].
    apply negb_true_iff in Hc. apply negb_false_iff in Hc. exact Hc. }
  assert (H1 : Forall (fun c => nameChar c = true)
                 (replaceRuns isWhiteSpace "-" kept)).
  { apply Forall_replaceRunsFrom; [repeat constructor |].
    eapply List.Forall_impl; [| exact Hkept]. intros c [Hu Hk] Hw.
    apply kept_is_nameChar; assumption. }
  assert (H2 : Forall (fun c => nameChar c = true)
                 (replaceRuns isHyphen "-" (replaceRuns isWhiteSpace "-" kept))).
  { apply Forall_replaceRunsFrom; [repeat constructor |].
    eapply List.Forall_impl; [| exact H1]. intros c Hc _. exact Hc. }
  set (n0 := stripTrailing _ _).
  assert (H3 : Forall (fun c => nameChar c = true) n0).
  { apply Forall_stripTrailing, Forall_stripLeading, H2. }
  assert (H4 : Forall (fun c => nameChar c = true) (convertToGerundForm n0)).
  { apply gerundLoop_nameChar; [apply verbMappings_nameChar | exact H3]. }
  cbv zeta. destruct (64 <? _); [| exact H4].
  apply Forall_stripTrailing, Forall_firstn_list, H4.
Qed.

(** A normalized name has at most 64 characters. *)
Lemma normalizeSkillName_length (name : jsstring) :
  length (normalizeSkillName name) <= 64.
Proof.
  rewrite normalizeSkillName_lists. unfold normalizeList. cbv zeta.
  destruct (64 <? _) eqn:E.
  - etransitivity; [apply length_stripTrailing |].
    rewrite length_firstn. lia.
  - apply Nat.ltb_ge in E. exact E.
Qed.

(** C1, at the input [a_b]: the class [\w] of the first replacement keeps
    the underscore, so the normalized name is [a_b], which is outside
    [^[a-z0-9-]*$] and which [validateFrontmatter] rejects with
    INVALID_NAME_FORMAT; the bound of 64 characters holds there. *)
Theorem normalizeSkillName_keeps_underscore :
  normalizeSkillName "a_b" = "a_b" /\
  test plain kebabRe (normalizeSkillName "a_b") = false /\
  kebabOnly (normalizeSkillName "a_b") = false /\
  length (normalizeSkillName "a_b") <= 64 /\
  List.map SkillValidator.icode
    (List.filter SkillValidator.isError
       (SkillValidator.validateFrontmatter [] (normalizeSkillName "a_b")
          "Use when testing")) = ["INVALID_NAME_FORMAT" : jsstring].
Proof. vm_compute. repeat split; lia. Qed.

Lemma gerundLoop_find (entries : list (jsstring * jsstring)) (name : jsstring) :
  gerundLoop entries name =
  match List.find (fun e => startsWith (fst e ++ "-") name) entries with
  | Some (verb, gerund) => gerund ++ "-" ++ skipn (length (verb ++ "-")) name
  | None => name
  end.
Proof.
  induction entries as [|[verb gerund] entries IH];
    cbn [gerundLoop List.find fst]; [reflexivity |].
  destruct (startsWith (verb ++ "-") name) eqn:E; [| exact IH].
  rewrite replaceFirst_prefix by exact E. rewrite <- app_assoc. reflexivity.
Qed.

(** C8: [convertToGerundForm] rewrites the leading segment [verb-] of the
    first table entry that starts the name into [gerund-] and leaves the rest
    of the name as it is, one substitution; a name that no [verb-] starts is
    returned unchanged.  So every entry rewrites [verb-rest] to
    [gerund-rest], [avoidance-x] and a bare [avoid] stay, a verb further in
    the name stays, and [Avoid Direct State] normalizes to
    [avoiding-direct-state]. *)
Theorem convertToGerundForm_leading_segment :
  (forall name,
     convertToGerundForm name =
     match leadingVerb name with
     | Some (verb, gerund) => gerund ++ "-" ++ skipn (length (verb ++ "-")) name
     | None => name
     end) /\
  Forall (fun e => forall rest,
            convertToGerundForm (fst e ++ "-" ++ rest) = snd e ++ "-" ++ rest)
    verbMappings /\
  convertToGerundForm "avoidance-x" = "avoidance-x" /\
  convertToGerundForm "avoid" = "avoid" /\
  convertToGerundForm "avoid-fix-use-x" = "avoiding-fix-use-x" /\
  normalizeSkillName "Avoid Direct State" = "avoiding-direct-state".
Proof.
  split; [intros name; apply gerundLoop_find |].
  split; [| repeat split; reflexivity].
  repeat constructor; intros rest; reflexivity.
Qed.

(** ** The similarity matcher *)

Lemma list_to_set_filter_elements (X Y : gset jsstring) :
  (list_to_set (List.filter (fun x => bool_decide (x ∈ Y)) (elements X))
     : gset jsstring) = X ∩ Y.
Proof.
  apply set_eq. intros x.
  rewrite elem_of_list_to_set, list_elem_of_In, filter_In, <- list_elem_of_In.
  rewrite elem_of_elements, bool_decide_eq_true, elem_of_intersection.
  reflexivity.
Qed.

Lemma list_to_set_elements_app (X Y : gset jsstring) :
  (list_to_set (elements X ++ elements Y) : gset jsstring) = X ∪ Y.
Proof.
  apply set_eq. intros x.
  rewrite elem_of_list_to_set, elem_of_app, !elem_of_elements, elem_of_union.
  reflexivity.
Qed.

Lemma calculateSimilarity_jaccard (skill1 skill2 : Skill) :
  calculateSimilarity skill1 skill2 =
  jaccard (significantWords (similarityText skill1))
          (significantWords (similarityText skill2)).
Proof.
  unfold calculateSimilarity, jaccard. cbv zeta.
  rewrite list_to_set_filter_elements, list_to_set_elements_app. reflexivity.
Qed.

Lemma jaccard_comm (X Y : gset jsstring) : jaccard X Y = jaccard Y X.
Proof.
  unfold jaccard.
  rewrite (comm_L (∪) X Y), (comm_L (∩) X Y). reflexivity.
Qed.

Lemma jaccard_range (X Y : gset jsstring) :
  (0 <= jaccard X Y)%Q /\ (jaccard X Y <= 1)%Q.
Proof.
  unfold jaccard. destruct (size (X ∪ Y) =? 0) eqn:E.
  - split; [apply Qle_refl | discriminate].
  - apply Nat.eqb_neq in E.
    assert (Hle : size (X ∩ Y) <= size (X ∪ Y)).
    { apply subseteq_size. etransitivity;
        [apply intersection_subseteq_l | apply union_subseteq_l]. }
    unfold Qle. cbn [Qnum Qden].
    assert (Hpos : Z.pos (Pos.of_nat (size (X ∪ Y))) = Z.of_nat (size (X ∪ Y))).
    { rewrite <- positive_nat_Z, Nat2Pos.id by exact E. reflexivity. }
    rewrite Hpos. split; lia.
Qed.


(** C6: the score is symmetric, lies between 0 and 1, and is 0 for a pair
    whose union of significant words is empty. *)
Theorem calculateSimilarity_symmetric_unit (a b : Skill) :
  calculateSimilarity a b = calculateSimilarity b a /\
  (0 <= calculateSimilarity a b)%Q /\
  (calculateSimilarity a b <= 1)%Q /\
  (size (significantWords (similarityText a) ∪
         significantWords (similarityText b)) = 0 ->
   calculateSimilarity a b = 0%Q).
Proof.
  rewrite !calculateSimilarity_jaccard.
  split; [apply jaccard_comm |].
  split; [apply jaccard_range |].
  split; [apply jaccard_range |].
  intros H. unfold jaccard. rewrite H. reflexivity.
Qed.


Lemma calculateSimilarity_symmetric_unit_witness :
  calculateSimilarity shortSkill shortSkill = 0%Q.
Proof.
  apply (calculateSimilarity_symmetric_unit shortSkill shortSkill).
  vm_compute. reflexivity.
Defined.

(** *** Words of a concatenation *)

Section Words.

Variable cls : ascii -> bool.




End Words.

Lemma splitRunsFrom_toLowerCase (s : jsstring) :
  forall inRun,
    splitRunsFrom inRun isWhiteSpace (toLowerCase s) =
    List.map toLowerCase (splitRunsFrom inRun isWhiteSpace s).
Proof.
  induction s as [|c s IH]; intros inRun; [reflexivity |].
  cbn [toLowerCase List.map splitRunsFrom]. rewrite lowerChar_whitespace.
  fold (toLowerCase s). rewrite !IH.
  destruct (isWhiteSpace c); [destruct inRun; reflexivity |].
  destruct (splitRunsFrom false isWhiteSpace s); reflexivity.
Qed.





(** *** The sort *)

Lemma insertSimilar_perm (x : Similar) (l : list Similar) :
  Permutation (insertSimilar x l) (x :: l).
Proof.
  induction l as [|y l IH]; simpl; [reflexivity |].
  destruct (Qle_bool (similarity x) (similarity y)); [| reflexivity].
  rewrite IH. apply perm_swap.
Qed.

Lemma insertSimilar_sorted (x : Similar) (l : list Similar) :
  Sorted descending l -> Sorted descending (insertSimilar x l).
Proof.
  induction 1 as [|y l Hs IH Hhd]; simpl; [repeat constructor |].
  destruct (Qle_bool (similarity x) (similarity y)) eqn:E.
  - constructor; [exact IH |].
    destruct l as [|z l]; simpl.
    + constructor. apply Qle_bool_iff. exact E.
    + destruct (Qle_bool (similarity x) (similarity z)).
      * constructor. inversion Hhd. assumption.
      * constructor. apply Qle_bool_iff. exact E.
  - constructor; [constructor; assumption |].
    constructor. unfold descending. apply Qlt_le_weak, Qnot_le_lt.
    intros H. apply Qle_bool_iff in H. congruence.
Qed.

Lemma sortSimilar_from (l acc : list Similar) :
  Sorted descending acc ->
  Sorted descending (fold_left (fun acc x => insertSimilar x acc) l acc) /\
  Permutation (fold_left (fun acc x => insertSimilar x acc) l acc) (acc ++ l).
Proof.
  revert acc. induction l as [|x l IH]; intros acc Hacc; simpl.
  - rewrite app_nil_r. split; [exact Hacc | reflexivity].
  - destruct (IH (insertSimilar x acc) (insertSimilar_sorted x acc Hacc))
      as [Hs Hp].
    split; [exact Hs |]. rewrite Hp, insertSimilar_perm.
    apply Permutation_middle.
Qed.

Lemma sortSimilar_sorted (l : list Similar) :
  StronglySorted descending (sortSimilar l).
Proof.
  apply Sorted_StronglySorted.
  - intros a b c Hab Hbc. unfold descending in *. eapply Qle_trans; eassumption.
  - apply sortSimilar_from. constructor.
Qed.

Lemma sortSimilar_perm (l : list Similar) : Permutation (sortSimilar l) l.
Proof. apply (sortSimilar_from l []). constructor. Qed.

Lemma findSimilarSkills_candidates (existingSkills : list Skill)
    (newSkill : Skill) :
  findSimilarSkills existingSkills newSkill =
  sortSimilar (candidates existingSkills newSkill).
Proof.
  unfold findSimilarSkills, candidates. f_equal.
  induction existingSkills as [|e l IH]; [reflexivity |].
  cbn [flat_map List.filter List.map]. rewrite IH.
  destruct (Qle_bool _ _); reflexivity.
Qed.

(** C5: every pair that [findSimilarSkills] returns is a record of the
    corpus with its score, the score is at least the threshold 0.8, the
    pairs are in descending order of score, they are all the records of the
    corpus that reach the threshold, and an empty corpus gives the empty
    sequence. *)
Theorem findSimilarSkills_threshold_descending (corpus : list Skill)
    (candidate : Skill) :
  Forall (fun p => In (skill p) corpus /\
                   similarity p = calculateSimilarity candidate (skill p) /\
                   (8 # 10 <= similarity p)%Q)
    (findSimilarSkills corpus candidate) /\
  StronglySorted (fun a b => (similarity b <= similarity a)%Q)
    (findSimilarSkills corpus candidate) /\
  Permutation (findSimilarSkills corpus candidate)
    (candidates corpus candidate) /\
  findSimilarSkills [] candidate = [].
Proof.
  rewrite findSimilarSkills_candidates.
  split; [| split; [apply sortSimilar_sorted |
                    split; [apply sortSimilar_perm | reflexivity]]].
  apply List.Forall_forall. intros p Hp.
  apply (Permutation_in _ (sortSimilar_perm _)) in Hp.
  unfold candidates in Hp. apply in_map_iff in Hp as [e [<- He]].
  apply filter_In in He as [Hin Hq]. cbn [skill similarity].
  split; [exact Hin |]. split; [reflexivity |].
  apply Qle_bool_iff. exact Hq.
Qed.




(** ** Merging *)

(** C7: the sources of a merged record are the sources of the existing
    record, unchanged and in order, followed by one new entry, which holds
    the four fields of the source of the incoming record. *)
Theorem mergeSkills_sources_appended (A B : Skill) :
  let existing := optList (sources A) in
  let merged := optList (sources (mergeSkills A B)) in
  sources (mergeSkills A B) = Some (existing ++ [sourceEntry (source B)]) /\
  length merged = length existing + 1 /\
  firstn (length existing) merged = existing /\
  (forall i s, nth_error existing i = Some s -> nth_error merged i = Some s) /\
  nth_error merged (length existing) = Some (sourceEntry (source B)) /\
  (forall i, source B = Some i -> sourceEntry (source B) = i).
Proof.
  cbn [mergeSkills sources optList].
  split; [reflexivity |].
  split; [rewrite length_app; reflexivity |].
  split; [rewrite firstn_app, Nat.sub_diag, firstn_all; apply app_nil_r |].
  split.
  - intros i s H. rewrite nth_error_app1; [exact H |].
    apply nth_error_Some. congruence.
  - split.
    + rewrite nth_error_app2, Nat.sub_diag by lia. reflexivity.
    + intros [p a d f] ->. reflexivity.
Qed.

(** C10: merging leaves every field of the existing record other than the
    description, the instructions, the keywords and the sources as it was. *)
Theorem mergeSkills_frame (existingSkill newSkill : Skill) :
  let m := mergeSkills existingSkill newSkill in
  path m = path existingSkill /\
  title m = title existingSkill /\
  name m = name existingSkill /\
  domain m = domain existingSkill /\
  category m = category existingSkill /\
  skillName m = skillName existingSkill /\
  antiPattern m = antiPattern existingSkill /\
  bestPractice m = bestPractice existingSkill /\
  badExample m = badExample existingSkill /\
  goodExample m = goodExample existingSkill /\
  source m = source existingSkill.
Proof. repeat split. Qed.

(** ** The validator *)

Import SkillValidator.

Ltac split_ifs :=
  repeat match goal with
         | |- context [if ?b then _ else _] => destruct b
         end.

Lemma validateContent_no_error (content : jsstring) (parsed : Parsed) :
  List.filter isError (validateContent content parsed) = [].
Proof.
  unfold validateContent. rewrite !List.filter_app.
  split_ifs; reflexivity.
Qed.

Lemma validateStructure_no_error (parsed : Parsed) :
  List.filter isError (validateStructure parsed) = [].
Proof.
  unfold validateStructure. cbv zeta. rewrite !List.filter_app.
  split_ifs; reflexivity.
Qed.

Lemma validateConciseness_no_error (content : jsstring) (parsed : Parsed) :
  List.filter isError (validateConciseness content parsed) = [].
Proof.
  unfold validateConciseness. rewrite List.filter_app.
  replace (List.filter isError (flat_map _ verbosePatterns)) with (@nil Issue).
  - destruct (List.find _ commonConcepts); reflexivity.
  - symmetry. induction verbosePatterns as [|v l IH]; [reflexivity |].
    cbn [flat_map]. rewrite List.filter_app, IH.
    destruct (_ && _); reflexivity.
Qed.

(** C4: on a content in which the frontmatter pattern finds no block,
    [validateSkill] returns a result, the parsed name and description are
    empty, the issues of severity error are exactly MISSING_NAME and
    MISSING_DESCRIPTION, in that order, and the result is not valid. *)
Theorem validateSkill_without_frontmatter (content : jsstring) :
  exec plain frontmatterRe content = None ->
  let parsed := parseSkillContent content in
  let v := validateSkill (ReadOk content) in
  pname parsed = [] /\
  pdescription parsed = [] /\
  List.map icode (List.filter isError (issues v)) =
    ["MISSING_NAME" : jsstring; "MISSING_DESCRIPTION" : jsstring] /\
  valid v = false.
Proof.
  intros H. cbv zeta.
  assert (Hn : pname (parseSkillContent content) = []).
  { unfold parseSkillContent. cbv zeta. rewrite H. reflexivity. }
  assert (Hd : pdescription (parseSkillContent content) = []).
  { unfold parseSkillContent. cbv zeta. rewrite H. reflexivity. }
  assert (He : List.map icode
                 (List.filter isError (issues (validateSkill (ReadOk content)))) =
               ["MISSING_NAME" : jsstring; "MISSING_DESCRIPTION" : jsstring]).
  { unfold validateSkill. cbn [issues]. rewrite !List.filter_app.
    rewrite validateContent_no_error, validateStructure_no_error,
      validateConciseness_no_error, Hn, Hd.
    reflexivity. }
  split; [exact Hn |]. split; [exact Hd |]. split; [exact He |].
  unfold validateSkill in *. cbn [issues valid] in *.
  destruct (List.filter isError _); [discriminate He | reflexivity].
Qed.

Lemma validateSkill_without_frontmatter_witness :
  List.map icode
    (List.filter isError (issues (validateSkill (ReadOk plainMarkdown)))) =
    ["MISSING_NAME" : jsstring; "MISSING_DESCRIPTION" : jsstring] /\
  valid (validateSkill (ReadOk plainMarkdown)) = false.
Proof.
  assert (H : exec plain frontmatterRe plainMarkdown = None)
    by (vm_compute; reflexivity).
  destruct (validateSkill_without_frontmatter plainMarkdown H)
    as (_ & _ & He & Hv).
  split; [exact He | exact Hv].
Defined.

(** ** The patterns of the frontmatter *)

Import SkillGenerator.

Lemma atLineEnd_endsLine (bef t : jsstring) :
  atLineEnd flagM (Pos bef t) = endsLine t.
Proof. destruct t; reflexivity. Qed.

(** [(.+)$] on a line. *)
Lemma run_line (bef v t : jsstring) (v0 : ascii) (cs : caps) (k : cont) r :
  isLineTerminator v0 = false ->
  Forall (fun c => isLineTerminator c = false) v ->
  endsLine t = true ->
  k (Pos (rev v ++ v0 :: bef) t) ((1, v0 :: v) :: cs) = Some r ->
  run flagM (Seq (Group 1 (Plus dot)) Eol) (Pos bef (v0 :: v ++ t)) cs k =
  Some r.
Proof.
  intros Hv0 Hv Ht Hk. rewrite run_Seq. unfold Plus, dot.
  cbn [run]. unfold step at 1.
  cbn [after before]. rewrite Hv0. cbn [negb].
  rewrite (starLoop_greedy_cls flagM (fun c => negb (isLineTerminator c)))
    by lia.
  apply greedyScan_reach.
  - eapply List.Forall_impl; [| exact Hv]. intros c Hc. cbn beta. rewrite Hc.
    reflexivity.
  - rewrite greedyScan_stop.
    + rewrite atLineEnd_endsLine, Ht.
      change (v0 :: v ++ t) with ((v0 :: v) ++ t). rewrite consumed_app.
      exact Hk.
    + destruct t as [|c t]; [reflexivity |]. cbn [endsLine] in Ht. rewrite Ht.
      reflexivity.
Qed.


(** White space, then a line that starts with another character: the group
    is that line. *)
Lemma run_fieldTail_value (bef w v t : jsstring) (v0 : ascii) (cs : caps)
    (k : cont) r :
  Forall (fun c => isWhiteSpace c = true) w ->
  isWhiteSpace v0 = false ->
  Forall (fun c => isLineTerminator c = false) v ->
  endsLine t = true ->
  k (Pos (rev v ++ v0 :: rev w ++ bef) t) ((1, v0 :: v) :: cs) = Some r ->
  run flagM fieldTail (Pos bef (w ++ v0 :: v ++ t)) cs k = Some r.
Proof.
  intros Hw Hv0 Hv Ht Hk. unfold fieldTail, space. cbn [seqs].
  rewrite run_Seq, run_greedy_cls.
  apply greedyScan_reach; [exact Hw |].
  rewrite greedyScan_stop by (rewrite Hv0; reflexivity).
  apply run_line; auto using whitespace_not_terminator.
Qed.

(** White space only, up to the end of the text: the group is the last
    character. *)
Lemma run_fieldTail_blank (bef w : jsstring) (c : ascii) (cs : caps)
    (k : cont) r :
  Forall (fun c => isWhiteSpace c = true) w ->
  isWhiteSpace c = true ->
  isLineTerminator c = false ->
  k (Pos (c :: rev w ++ bef) []) ((1, [c]) :: cs) = Some r ->
  run flagM fieldTail (Pos bef (w ++ [c])) cs k = Some r.
Proof.
  intros Hw Hc Hlt Hk. unfold fieldTail, space. cbn [seqs].
  rewrite run_Seq, run_greedy_cls.
  apply greedyScan_reach; [exact Hw |].
  cbn [greedyScan]. rewrite Hc.
  replace (run flagM (Seq (Group 1 (Plus dot)) Eol) (Pos (c :: rev w ++ bef) []) cs k)
    with (@None (pos * caps)) by reflexivity.
  apply (run_line (rev w ++ bef) [] [] c cs k r Hlt); auto.
Qed.

(** *** Trimming *)

Lemma trimStart_split (s : jsstring) :
  exists w, s = w ++ trimStart s /\ Forall (fun c => isWhiteSpace c = true) w.
Proof.
  induction s as [|c s (w & E & Hw)]; [exists []; auto |].
  cbn [trimStart]. destruct (isWhiteSpace c) eqn:Ec.
  - exists (c :: w). split; [cbn [app]; rewrite <- E; reflexivity | auto].
  - exists []. auto.
Qed.

Lemma trimStart_head (s : jsstring) :
  match trimStart s with [] => true | c :: _ => negb (isWhiteSpace c) end = true.
Proof.
  induction s as [|c s IH]; [reflexivity |].
  cbn [trimStart]. destruct (isWhiteSpace c) eqn:Ec; [exact IH |].
  rewrite Ec. reflexivity.
Qed.

Lemma trimStart_id (c : ascii) (s : jsstring) :
  isWhiteSpace c = false -> trimStart (c :: s) = c :: s.
Proof. intros H. cbn [trimStart]. rewrite H. reflexivity. Qed.

Lemma trim_id (s : jsstring) :
  Forall (fun c => isWhiteSpace c = false) s -> trim s = s.
Proof.
  intros H. unfold trim, trimEnd.
  assert (Hid : forall t, Forall (fun c => isWhiteSpace c = false) t ->
                          trimStart t = t).
  { intros t Ht. destruct Ht as [|c t Hc Ht]; [reflexivity |].
    apply trimStart_id. exact Hc. }
  rewrite (Hid s H), Hid, rev_involutive; [reflexivity |].
  apply Forall_rev. exact H.
Qed.

(** *** The frontmatter block *)

Lemma frontmatter_of_block (rest pre : jsstring) :
  beforeFirst (LF ++ "---") rest = Some pre ->
  frontmatter (parseSkillContent (("---" ++ LF) ++ rest)) = pre.
Proof.
  intros H. unfold parseSkillContent. cbn [frontmatter].
  destruct (beforeFirst_Some _ _ _ H) as [tl [-> Htl]].
  assert (E : exists m,
             exec plain frontmatterRe (("---" ++ LF) ++ pre ++ tl) = Some m /\
                        group 1 m = pre).
  { unfold exec. eexists. split.
    - apply search_here. unfold matchAt, frontmatterRe. cbn [seqs].
      rewrite run_Seq, run_Bol. unfold atLineStart. cbn [before].
      rewrite run_Seq, (run_Str plain eq_refl), startsWith_app, skipn_length_app.
      rewrite run_Seq, run_Group, run_lazy_any.
      rewrite (lazyScan_beforeFirst _ (LF ++ "---")).
      + rewrite H, (run_Str plain eq_refl), !skipn_length_app, Htl.
        rewrite consumed_app. reflexivity.
      + intros [b a] cs Hs. rewrite (run_Str plain eq_refl). cbn [after] in *.
        rewrite Hs. reflexivity.
      + intros [b a] cs Hs. rewrite (run_Str plain eq_refl). cbn [after] in *.
        rewrite Hs. discriminate.
    - reflexivity. }
  destruct E as [m [-> Hm]]. exact Hm.
Qed.

(** *** The fields *)

Lemma fieldRe_run (key : jsstring) (bef aft : jsstring) :
  atLineStart flagM (Pos bef (key ++ aft)) = true ->
  run flagM (fieldRe key) (Pos bef (key ++ aft)) [] finish =
  run flagM fieldTail (Pos (rev key ++ bef) aft) [] finish.
Proof.
  intros Hb. unfold fieldRe. cbn [seqs].
  rewrite run_Seq, run_Bol, Hb, run_Seq, (run_Str flagM eq_refl).
  rewrite startsWith_app, skipn_length_app. reflexivity.
Qed.

Lemma matchAt_group (fl : flags) (r : regex) (p p' : pos) (cs : caps) :
  run fl r p [] finish = Some (p', cs) ->
  exists m, matchAt fl r p = Some m /\ groups m = cs.
Proof.
  intros H. unfold matchAt. fold finish. rewrite H.
  eexists. split; reflexivity.
Qed.

(** The field on the first line of the text. *)
Lemma fieldOf_first_line (key w v t : jsstring) (v0 : ascii) :
  Forall (fun c => isWhiteSpace c = true) w ->
  isWhiteSpace v0 = false ->
  Forall (fun c => isLineTerminator c = false) v ->
  endsLine t = true ->
  fieldOf key (key ++ w ++ v0 :: v ++ t) = trim (v0 :: v).
Proof.
  intros Hw Hv0 Hv Ht. unfold fieldOf, exec.
  destruct (matchAt_group flagM (fieldRe key) (Pos [] (key ++ w ++ v0 :: v ++ t))
              (Pos (rev v ++ v0 :: rev w ++ rev key ++ []) t) [(1, v0 :: v)])
    as [m [Hm Hg]].
  { rewrite fieldRe_run by reflexivity.
    apply run_fieldTail_value; auto. }
  rewrite (search_here _ _ _ _ _ Hm). unfold group. rewrite Hg. reflexivity.
Qed.

(** The field on the second line of the text, the last one. *)
Lemma fieldOf_second_line (key l1 d : jsstring) (k0 x : ascii) :
  Ascii.eqb k0 x = false ->
  Forall (fun c => isLineTerminator c = false) (x :: l1) ->
  Forall (fun c => isLineTerminator c = false) d ->
  fieldOf (k0 :: key) ((x :: l1) ++ LF ++ (k0 :: key) ++ " " ++ d) = trim d.
Proof.
  intros Hk Hl Hd. inversion Hl as [|? ? Hx Hl1]; subst.
  unfold fieldOf, exec. cbn [app].
  rewrite search_next.
  2:{ unfold matchAt, fieldRe. cbn [seqs].
      rewrite run_Seq, run_Bol. cbn [atLineStart before].
      rewrite run_Seq, (run_Str flagM eq_refl). cbn [startsWith].
      rewrite Hk. reflexivity. }
  unfold LF. cbn [app].
  change (k0 :: key ++ " "%char :: d) with ((k0 :: key) ++ " " ++ d).
  rewrite (search_inside_line
             (seqs [Str (k0 :: key); Star true space; Group 1 (Plus dot); Eol])
             l1 [] x (ascii_of_nat 10) _ Hx Hl1).
  change (Seq Bol (seqs [Str (k0 :: key); Star true space; Group 1 (Plus dot);
                         Eol]))
    with (fieldRe (k0 :: key)).
  set (bef := ascii_of_nat 10 :: rev l1 ++ [x]).
  assert (E : exists m,
             matchAt flagM (fieldRe (k0 :: key))
               (Pos bef ((k0 :: key) ++ " " ++ d)) = Some m /\
             trim (lookupGroup 1 (groups m)) = trim d).
  { destruct (trimStart_split (" " ++ d)) as [w [Ew Hw]].
    pose proof (trimStart_head (" " ++ d)) as Hhead.
    assert (Htrim : trimStart (" " ++ d) = trimStart d) by reflexivity.
    rewrite Htrim in *. clear Htrim.
    destruct (trimStart d) as [|v0 v] eqn:Ev.
    - (* the description is blank *)
      rewrite app_nil_r in Ew.
      destruct (exists_last (l := w)) as [w' [c Ewc]].
      { rewrite <- Ew. discriminate. }
      rewrite Ewc in Ew, Hw. clear w Ewc. apply Forall_app in Hw as [Hw' Hc].
      inversion Hc as [|? ? Hc' _]; subst.
      assert (Hlt : isLineTerminator c = false).
      { assert (Hin : In c (" " ++ d)) by (rewrite Ew; apply in_or_app; right; left; reflexivity).
        destruct Hin as [<- | Hin]; [reflexivity |].
        rewrite List.Forall_forall in Hd. apply Hd. exact Hin. }
      destruct (matchAt_group flagM (fieldRe (k0 :: key))
                  (Pos bef ((k0 :: key) ++ " " ++ d))
                  (Pos (c :: rev w' ++ rev (k0 :: key) ++ bef) []) [(1, [c])])
        as [m [Hm Hg]].
      { rewrite fieldRe_run by reflexivity. rewrite Ew.
        apply run_fieldTail_blank; auto. }
      exists m. split; [exact Hm |]. rewrite Hg. cbn [lookupGroup Nat.eqb].
      unfold trim. rewrite Ev. unfold trimEnd. cbn [rev app trimStart].
      rewrite Hc'. reflexivity.
    - (* the description starts at [v0] *)
      cbn [negb] in Hhead. apply negb_true_iff in Hhead.
      assert (Hv : Forall (fun c => isLineTerminator c = false) v).
      { assert (Hsub : forall c, In c (v0 :: v) -> In c (" " ++ d)).
        { intros c Hc. rewrite Ew. apply in_or_app. right. exact Hc. }
        apply List.Forall_forall. intros c Hc.
        destruct (Hsub c (or_intror Hc)) as [<- | Hin]; [reflexivity |].
        rewrite List.Forall_forall in Hd. apply Hd. exact Hin. }
      destruct (matchAt_group flagM (fieldRe (k0 :: key))
                  (Pos bef ((k0 :: key) ++ " " ++ d))
                  (Pos (rev v ++ v0 :: rev w ++ rev (k0 :: key) ++ bef) [])
                  [(1, v0 :: v)])
        as [m [Hm Hg]].
      { rewrite fieldRe_run by reflexivity. rewrite Ew.
        replace (w ++ v0 :: v) with (w ++ v0 :: v ++ [])
          by (rewrite app_nil_r; reflexivity).
        apply run_fieldTail_value; auto. }
      exists m. split; [exact Hm |]. rewrite Hg. cbn [lookupGroup Nat.eqb].
      unfold trim. rewrite Ev, trimStart_id by exact Hhead. reflexivity. }
  destruct E as [m [Hm Hg]].
  change (k0 :: key ++ " " ++ d) with ((k0 :: key) ++ " " ++ d).
  rewrite (search_here _ _ _ _ _ Hm). exact Hg.
Qed.

(** *** Building, then parsing *)

Lemma beforeFirst_cons (pat s : jsstring) (c : ascii) :
  startsWith pat (c :: s) = false ->
  beforeFirst pat (c :: s) = option_map (cons c) (beforeFirst pat s).
Proof. intros H. cbn [beforeFirst]. rewrite H. reflexivity. Qed.

Lemma nameChar_not_LF (c : ascii) :
  nameChar c = true -> Ascii.eqb (ascii_of_nat 10) c = false.
Proof. each_char c. Qed.

Lemma not_terminator_not_LF (c : ascii) :
  isLineTerminator c = false -> Ascii.eqb (ascii_of_nat 10) c = false.
Proof. each_char c. Qed.

(** The end of the frontmatter block is not looked for inside the name
    line. *)
Lemma beforeFirst_yaml (N Y : jsstring) :
  Forall (fun c => nameChar c = true) N ->
  beforeFirst (LF ++ "---") ("name: " ++ N ++ LF ++ "description: " ++ Y) =
  option_map (fun pre => "name: " ++ N ++ LF ++ "description: " ++ pre)
    (beforeFirst (LF ++ "---") Y).
Proof.
  intros HN. change (LF ++ "---") with (ascii_of_nat 10 :: lit "---").
  rewrite (app_assoc "name: " N), beforeFirst_skip.
  2:{ apply Forall_app. split; [repeat constructor |].
      eapply List.Forall_impl; [| exact HN]. apply nameChar_not_LF. }
  change (LF ++ "description: " ++ Y)
    with (ascii_of_nat 10 :: "description: " ++ Y).
  rewrite beforeFirst_cons by reflexivity.
  rewrite beforeFirst_skip by (repeat constructor).
  destruct (beforeFirst _ Y) as [pre|]; [| reflexivity].
  cbn [option_map]. rewrite <- app_assoc. reflexivity.
Qed.

Lemma buildSkillContent_shape (skillData : Skill)
    (sourceInfo : option SourceInfo) :
  exists tail,
    buildSkillContent skillData sourceInfo =
    ("---" ++ LF) ++
    ("name: " ++ frontmatterName skillData ++ LF ++
     "description: " ++ enhanceDescription skillData ++ (LF ++ "---") ++ tail).
Proof.
  unfold buildSkillContent. cbv zeta. eexists.
  rewrite <- !app_assoc. reflexivity.
Qed.

Lemma frontmatter_of_build (skillData : Skill) (sourceInfo : option SourceInfo) :
  exists pre tl,
    enhanceDescription skillData = pre ++ tl /\
    (forallb (fun c => negb (isLineTerminator c))
       (enhanceDescription skillData) = true -> tl = []) /\
    frontmatter (parseSkillContent (buildSkillContent skillData sourceInfo)) =
    "name: " ++ frontmatterName skillData ++ LF ++ "description: " ++ pre.
Proof.
  destruct (buildSkillContent_shape skillData sourceInfo) as [tail ->].
  set (N := frontmatterName skillData). set (D := enhanceDescription skillData).
  destruct (beforeFirst_occurs (LF ++ "---") D tail) as (pre & tl & E & ED).
  assert (Hlines : forallb (fun c => negb (isLineTerminator c)) D = true ->
                   tl = []).
  { intros HD. rewrite forallb_forall in HD.
    change (LF ++ "---") with (ascii_of_nat 10 :: lit "---") in E.
    rewrite beforeFirst_skip, beforeFirst_here in E.
    - injection E as E. rewrite app_nil_r in E. rewrite <- E in ED.
      rewrite <- (app_nil_r D) in ED at 1. apply app_inv_head in ED. auto.
    - reflexivity.
    - apply List.Forall_forall. intros c Hc. apply not_terminator_not_LF.
      apply negb_true_iff. apply HD. exact Hc. }
  exists pre, tl. split; [exact ED |]. split; [exact Hlines |].
  apply frontmatter_of_block.
  rewrite beforeFirst_yaml by apply normalizeSkillName_chars.
  rewrite <- app_assoc in E. fold D. rewrite <- app_assoc. rewrite E. reflexivity.
Qed.

Lemma nameChar_terminator_list (N : jsstring) :
  Forall (fun c => nameChar c = true) N ->
  Forall (fun c => isLineTerminator c = false) N.
Proof.
  intros H. eapply List.Forall_impl; [| exact H].
  apply nameChar_not_terminator.
Qed.

(** C3, amended: the name read back from a built document is the name
    written in its frontmatter, [normalizeSkillName (skillName || title)],
    whenever that name is not empty; the description read back is the
    description written in its frontmatter, with the white space at its ends
    removed, whenever that description holds no line terminator. *)
Theorem buildSkillContent_parse_roundtrip (skillData : Skill)
    (sourceInfo : option SourceInfo) :
  let parsed := parseSkillContent (buildSkillContent skillData sourceInfo) in
  (isEmpty (frontmatterName skillData) = false ->
   pname parsed = frontmatterName skillData) /\
  (forallb (fun c => negb (isLineTerminator c))
     (enhanceDescription skillData) = true ->
   pdescription parsed = trim (enhanceDescription skillData)).
Proof.
  cbv zeta.
  destruct (frontmatter_of_build skillData sourceInfo)
    as (pre & tl & ED & Hlines & EF).
  pose proof (normalizeSkillName_chars
                (orElse (skillName skillData) (title skillData))) as HN.
  fold (frontmatterName skillData) in HN.
  unfold parseSkillContent in *. cbn [pname pdescription frontmatter] in *.
  rewrite EF. clear EF. split.
  - intros Hne. destruct (frontmatterName skillData) as [|n0 N] eqn:EN;
      [discriminate |].
    inversion HN as [|? ? Hn0 HN']; subst.
    change ("name: " ++ (n0 :: N) ++ LF ++ "description: " ++ pre)
      with ("name:" ++ " " ++ n0 :: N ++ (LF ++ "description: " ++ pre)).
    rewrite fieldOf_first_line.
    + apply trim_id. eapply List.Forall_impl; [| exact HN].
      apply nameChar_not_space.
    + repeat constructor.
    + apply nameChar_not_space. exact Hn0.
    + apply nameChar_terminator_list. exact HN'.
    + reflexivity.
  - intros HD. rewrite (Hlines HD), app_nil_r in ED. subst pre.
    change ("name: " ++ frontmatterName skillData ++ LF ++
            "description: " ++ enhanceDescription skillData)
      with (("n"%char :: "ame: " ++ frontmatterName skillData) ++ LF ++
            ("d"%char :: "escription:") ++ " " ++ enhanceDescription skillData).
    apply fieldOf_second_line.
    + reflexivity.
    + constructor; [reflexivity |]. apply Forall_app. split.
      * repeat constructor.
      * apply nameChar_terminator_list. exact HN.
    + apply List.Forall_forall. intros c Hc. rewrite forallb_forall in HD.
      apply negb_true_iff. apply HD. exact Hc.
Qed.

Lemma buildSkillContent_parse_roundtrip_witness :
  pname (parseSkillContent (buildSkillContent avoidSkill reviewSource)) =
    "avoiding-direct-state" /\
  pdescription (parseSkillContent (buildSkillContent avoidSkill reviewSource)) =
    trim (enhanceDescription avoidSkill).
Proof.
  destruct (buildSkillContent_parse_roundtrip avoidSkill reviewSource)
    as [Hn Hd].
  split; [apply Hn | apply Hd]; vm_compute; reflexivity.
Defined.

(** C3 as stated fails: with a name that normalizes to the empty string the
    name read back is the description line, and a description of two lines
    comes back cut after the first. *)
Lemma buildSkillContent_parse_not_roundtrip :
  let parsed := parseSkillContent (buildSkillContent punctuationSkill None) in
  let parsed2 := parseSkillContent (buildSkillContent twoLineSkill None) in
  frontmatterName punctuationSkill = [] /\
  pname parsed = "description: Use when testing" /\
  pname parsed <> frontmatterName punctuationSkill /\
  pname parsed <> skillName punctuationSkill /\
  pname parsed <> title punctuationSkill /\
  enhanceDescription twoLineSkill = description twoLineSkill /\
  pdescription parsed2 = "Use when testing." /\
  pdescription parsed2 <> description twoLineSkill.
Proof. vm_compute. repeat split; discriminate. Qed.

(** ** The document builder *)

Lemma countChar_app (n : nat) (a b : jsstring) :
  countChar n (a ++ b) = countChar n a + countChar n b.
Proof. unfold countChar. rewrite List.filter_app, length_app. reflexivity. Qed.

Lemma countChar_noLF (s : jsstring) : noLF s -> countChar 10 s = 0.
Proof.
  induction 1 as [|c s Hc Hs IH]; [reflexivity |].
  unfold countChar in *. cbn [List.filter]. rewrite Hc. exact IH.
Qed.

Lemma noLF_trimStart (s : jsstring) : noLF s -> noLF (trimStart s).
Proof.
  induction 1 as [|c s Hc Hs IH]; [constructor |].
  cbn [trimStart]. destruct (isWhiteSpace c); [exact IH |].
  constructor; assumption.
Qed.

Lemma noLF_trim (s : jsstring) : noLF s -> noLF (trim s).
Proof.
  intros H. unfold trim, trimEnd. apply Forall_rev, noLF_trimStart, Forall_rev,
    noLF_trimStart, H.
Qed.

Lemma not_space_not_LF (c : ascii) : isWhiteSpace c = false -> isChar 10 c = false.
Proof. each_char c. Qed.

Lemma noLF_makeConcise (text : jsstring) : noLF (makeConcise text).
Proof.
  unfold makeConcise. destruct (isEmpty text); [constructor |].
  apply noLF_trim. unfold space.
  rewrite (replaceAll_Plus plain isWhiteSpace (Cls isWhiteSpace))
    by reflexivity.
  apply Forall_replaceRunsFrom; [repeat constructor |].
  apply List.Forall_forall. intros c _. apply not_space_not_LF.
Qed.

Lemma noLF_string_of_uint (d : Decimal.uint) :
  noLF (lit (NilEmpty.string_of_uint d)).
Proof. induction d; cbn; constructor; auto. Qed.

Lemma noLF_showNat (n : nat) : noLF (showNat n).
Proof. apply noLF_string_of_uint. Qed.

Lemma nameChar_noLF (c : ascii) : nameChar c = true -> isChar 10 c = false.
Proof. each_char c. Qed.

Lemma noLF_frontmatterName (sk : Skill) : noLF (frontmatterName sk).
Proof.
  eapply List.Forall_impl; [| apply normalizeSkillName_chars].
  apply nameChar_noLF.
Qed.

Ltac count_lits :=
  repeat match goal with
         | |- context [countChar 10 (lit ?s)] =>
             let v := eval vm_compute in (countChar 10 (lit s)) in
             change (countChar 10 (lit s)) with v
         end;
  change (countChar 10 LF) with 1.

Lemma singleLine_count (s : jsstring) : singleLine s = true -> countChar 10 s = 0.
Proof. apply Nat.eqb_eq. Qed.

Lemma countChar_sourceLines (sourceInfo : option SourceInfo) :
  match sourceInfo with Some i => singleLineSource i | None => true end = true ->
  countChar 10 (sourceLines sourceInfo) <= 4.
Proof.
  destruct sourceInfo as [[p a d f]|]; [| intros _; cbn; lia].
  unfold singleLineSource. cbn [author date file]. intros H.
  apply andb_prop in H as [H Hf]. apply andb_prop in H as [Ha Hd].
  apply singleLine_count in Ha, Hd, Hf.
  unfold sourceLines. cbn [pr author date file].
  rewrite !countChar_app.
  assert (Hp : countChar 10 (if p =? 0 then [] else "PR: #" ++ showNat p ++ LF) <= 1).
  { destruct (p =? 0); [cbn; lia |]. rewrite !countChar_app.
    rewrite (countChar_noLF _ (noLF_showNat p)). count_lits. lia. }
  assert (Ha' : countChar 10 (if isEmpty a then [] else "Author: @" ++ a ++ LF) <= 1).
  { destruct (isEmpty a); [cbn; lia |]. rewrite !countChar_app, Ha. count_lits. lia. }
  assert (Hd' : countChar 10 (if isEmpty d then [] else "Date: " ++ d ++ LF) <= 1).
  { destruct (isEmpty d); [cbn; lia |]. rewrite !countChar_app, Hd. count_lits. lia. }
  assert (Hf' : countChar 10 (if isEmpty f then [] else "File: " ++ f ++ LF) <= 1).
  { destruct (isEmpty f); [cbn; lia |]. rewrite !countChar_app, Hf. count_lits. lia. }
  lia.
Qed.

Lemma countChar_additionalSourceLine (i : SourceInfo) :
  singleLineSource i = true -> countChar 10 (additionalSourceLine i) <= 1.
Proof.
  unfold singleLineSource, additionalSourceLine. intros H.
  apply andb_prop in H as [H _]. apply andb_prop in H as [Ha _].
  apply singleLine_count in Ha.
  destruct (pr i =? 0); [cbn; lia |]. rewrite !countChar_app.
  rewrite (countChar_noLF _ (noLF_showNat (pr i))).
  assert (Ho : countChar 10 (orElse (author i) "unknown") = 0).
  { unfold orElse. destruct (isEmpty (author i)); [reflexivity | exact Ha]. }
  rewrite Ho. count_lits. lia.
Qed.

Lemma countChar_additionalSources (srcs : list SourceInfo) :
  forallb singleLineSource srcs = true ->
  countChar 10 (flat_map additionalSourceLine srcs) <= length srcs.
Proof.
  induction srcs as [|i srcs IH]; [intros _; cbn; lia |].
  cbn [forallb flat_map length]. intros H. apply andb_prop in H as [Hi Hs].
  rewrite countChar_app. pose proof (countChar_additionalSourceLine i Hi).
  specialize (IH Hs). lia.
Qed.

Lemma forallb_skipn {A : Type} (f : A -> bool) (n : nat) (l : list A) :
  forallb f l = true -> forallb f (skipn n l) = true.
Proof.
  revert l. induction n as [|n IH]; intros l H; [exact H |].
  destruct l as [|x l]; [reflexivity |]. cbn [forallb] in H.
  apply andb_prop in H as [_ H]. apply IH. exact H.
Qed.

Section LineBudget.

Variable skillData : Skill.
Variable sourceInfo : option SourceInfo.
Variable skillDir : fspath.

Hypothesis titleLine : singleLine (title skillData) = true.
Hypothesis descriptionLine : singleLine (enhanceDescription skillData) = true.
Hypothesis sourceLine :
  match sourceInfo with Some i => singleLineSource i | None => true end = true.
Hypothesis sourcesLine :
  forallb singleLineSource (optList (sources skillData)) = true.

Lemma countChar_buildSourceMetadata :
  countChar 10 (buildSourceMetadata sourceInfo (sources skillData)) <=
  9 + length (optList (sources skillData)).
Proof.
  unfold buildSourceMetadata. rewrite !countChar_app.
  pose proof (countChar_sourceLines sourceInfo sourceLine) as Hs.
  assert (Ha : countChar 10
                 match sources skillData with
                 | Some srcs =>
                     if 0 <? length srcs
                     then "Additional sources:" ++ LF ++
                          flat_map additionalSourceLine srcs
                     else []
                 | None => []
                 end <= 1 + length (optList (sources skillData))).
  { destruct (sources skillData) as [srcs|]; [| cbn; lia].
    cbn [optList] in *. destruct (0 <? length srcs); [| cbn; lia].
    rewrite !countChar_app.
    pose proof (countChar_additionalSources srcs sourcesLine). count_lits. lia. }
  count_lits. lia.
Qed.

(** The main document of the disclosure has at most 29 lines and one more
    for each source of the record. *)
Lemma lineCount_mainContent :
  lineCount (mainContent (applyProgressiveDisclosure skillData sourceInfo skillDir))
  <= 29 + length (optList (sources skillData)).
Proof.
  unfold applyProgressiveDisclosure. cbv zeta. cbn [mainContent].
  unfold lineCount. rewrite countChar_app.
  pose proof countChar_buildSourceMetadata as Hm.
  pose proof (singleLine_count _ titleLine) as Ht.
  pose proof (singleLine_count _ descriptionLine) as Hd.
  pose proof (countChar_noLF _ (noLF_frontmatterName skillData)) as Hn.
  pose proof (countChar_noLF _ (noLF_makeConcise (instructions skillData))) as Hi.
  pose proof (countChar_noLF _ (noLF_makeConcise (categoryContent skillData)))
    as Hc.
  destruct (hasExamples skillData), (hasDetails skillData),
    (negb (isEmpty (categoryContent skillData))), (isAntiPattern skillData);
    rewrite !countChar_app; rewrite ?Ht, ?Hd, ?Hn, ?Hi, ?Hc; count_lits; lia.
Qed.

(** Without examples the rendered content has at most 24 lines and one more
    for each source of the record. *)
Lemma lineCount_buildSkillContent :
  hasExamples skillData = false ->
  lineCount (buildSkillContent skillData sourceInfo)
  <= 24 + length (optList (sources skillData)).
Proof.
  intros He. unfold buildSkillContent. cbv zeta.
  unfold examplesSection. fold (hasExamples skillData). rewrite He.
  unfold lineCount. rewrite !countChar_app.
  pose proof (countChar_sourceLines sourceInfo sourceLine) as Hs.
  pose proof (singleLine_count _ titleLine) as Ht.
  pose proof (singleLine_count _ descriptionLine) as Hd.
  pose proof (countChar_noLF _ (noLF_frontmatterName skillData)) as Hn.
  pose proof (countChar_noLF _ (noLF_makeConcise (instructions skillData))) as Hi.
  assert (Hc : countChar 10 (categorySection skillData) <= 4).
  { unfold categorySection.
    destruct (_ && _); [| destruct (_ && _); [| cbn; lia]];
      rewrite !countChar_app, (countChar_noLF _ (noLF_makeConcise _));
      count_lits; lia. }
  assert (Ha : countChar 10
                 match sources skillData with
                 | Some srcs =>
                     if 1 <? length srcs
                     then "Additional sources:" ++ LF ++
                          flat_map additionalSourceLine (skipn 1 srcs)
                     else []
                 | None => []
                 end <= length (optList (sources skillData))).
  { destruct (sources skillData) as [srcs|]; [| cbn; lia].
    cbn [optList] in *. destruct (1 <? length srcs) eqn:E; [| cbn; lia].
    apply Nat.ltb_lt in E. rewrite !countChar_app.
    pose proof (countChar_additionalSources (skipn 1 srcs)
                  (forallb_skipn _ 1 srcs sourcesLine)) as H.
    rewrite length_skipn in H. count_lits. lia. }
  rewrite Ht, Hd, Hn, Hi. count_lits. cbn [countChar List.filter length]. lia.
Qed.

End LineBudget.

Lemma includes_startsWith (p s : jsstring) :
  startsWith p s = true -> includes p s = true.
Proof. intros H. destruct s; cbn [includes]; rewrite H; reflexivity. Qed.

Lemma includes_app_r (p a b : jsstring) :
  includes p b = true -> includes p (a ++ b) = true.
Proof.
  intros H. induction a as [|c a IH]; [exact H |].
  cbn [app includes]. rewrite IH. apply orb_true_r.
Qed.

Lemma includes_app_l (p a b : jsstring) :
  includes p a = true -> includes p (a ++ b) = true.
Proof.
  induction a as [|c a IH].
  - cbn [includes]. rewrite orb_false_r. intros H.
    destruct p; [| discriminate]. destruct b; reflexivity.
  - cbn [app includes]. intros H. apply orb_prop in H as [H | H].
    + assert (Hs : startsWith p (c :: a ++ b) = true).
      { apply startsWith_true in H. change (c :: a ++ b) with ((c :: a) ++ b).
        rewrite H, <- app_assoc. apply startsWith_app. }
      rewrite Hs. reflexivity.
    + rewrite (IH H). apply orb_true_r.
Qed.

Lemma mainContent_pointers (skillData : Skill) (sourceInfo : option SourceInfo)
    (skillDir : fspath) (w : Written) :
  In w (referenceWrites
          (applyProgressiveDisclosure skillData sourceInfo skillDir)) ->
  exists base,
    wpath w = skillDir ++ [base] /\
    includes (pointerTo base)
      (mainContent (applyProgressiveDisclosure skillData sourceInfo skillDir))
    = true.
Proof.
  unfold applyProgressiveDisclosure. cbv zeta. cbn [referenceWrites mainContent].
  intros Hw. apply in_app_or in Hw as [Hw | Hw].
  - destruct (hasExamples skillData); [| destruct Hw].
    destruct Hw as [<- | []]. exists ("EXAMPLES.md" : jsstring).
    split; [reflexivity |].
    apply includes_app_l.
    assert (H : forall x y, includes (pointerTo "EXAMPLES.md")
                  (x ++ "## Examples" ++ LF ++ LF ++
                   "See [EXAMPLES.md](EXAMPLES.md) for code examples." ++ y)
                = true).
    { intros x y. do 4 apply includes_app_r.
      apply includes_startsWith. reflexivity. }
    destruct (hasDetails skillData);
      [apply includes_app_l, H |].
    destruct (negb (isEmpty (categoryContent skillData)));
      [apply includes_app_l, H | apply H].
  - destruct (hasDetails skillData); [| destruct Hw].
    destruct Hw as [<- | []]. exists ("DETAILS.md" : jsstring).
    split; [reflexivity |].
    apply includes_app_l. do 5 apply includes_app_r.
    apply includes_startsWith. reflexivity.
Qed.

(** C2, amended: when the rendered content exceeds 500 lines,
    [generateSkill] writes the main document of the disclosure and its
    reference documents, and the main document holds a pointer
    [See [NAME](NAME)] to every reference document written.  When moreover
    the title, the description of the frontmatter and the attribution fields
    hold no line feed and the record has at most 471 sources, the main
    document has at most 500 lines and at least one reference document is
    written. *)
Theorem generateSkill_progressive_disclosure (existingSkills : list Skill)
    (skillData : Skill) (sourceInfo : option SourceInfo) :
  let resolved := resolveSkill existingSkills skillData sourceInfo in
  let finalSkillData := fst (fst resolved) in
  let skillDir := snd resolved in
  let g := generateSkill existingSkills skillData sourceInfo in
  let d := applyProgressiveDisclosure finalSkillData sourceInfo skillDir in
  maxSkillLines < lineCount (buildSkillContent finalSkillData sourceInfo) ->
  content g = mainContent d /\
  references g = referenceWrites d /\
  (forall w, In w (references g) ->
     exists base, wpath w = skillDir ++ [base] /\
                  includes (pointerTo base) (content g) = true) /\
  (singleLine (title finalSkillData) = true ->
   singleLine (enhanceDescription finalSkillData) = true ->
   match sourceInfo with Some i => singleLineSource i | None => true end = true ->
   forallb singleLineSource (optList (sources finalSkillData)) = true ->
   length (optList (sources finalSkillData)) <= 471 ->
   lineCount (content g) <= 500 /\ 1 <= length (references g)).
Proof.
  unfold generateSkill. cbv zeta.
  destruct (resolveSkill existingSkills skillData sourceInfo)
    as [[finalSkillData skillPath] skillDir].
  cbn [fst snd]. unfold renderSkill. cbv zeta. intros Hlong.
  apply Nat.ltb_lt in Hlong as Hb. rewrite Hb. cbn [content references].
  split; [reflexivity |]. split; [reflexivity |].
  split; [intros w Hw; apply mainContent_pointers; exact Hw |].
  intros Ht Hd Hs Hss Hn. split.
  - pose proof (lineCount_mainContent finalSkillData sourceInfo skillDir
                  Ht Hd Hs Hss). lia.
  - destruct (hasExamples finalSkillData) eqn:He.
    + unfold applyProgressiveDisclosure. cbv zeta. cbn [referenceWrites].
      rewrite He, length_app. cbn [length]. lia.
    + pose proof (lineCount_buildSkillContent finalSkillData sourceInfo
                    Ht Hd Hs Hss He). unfold maxSkillLines in Hlong. lia.
Qed.

Lemma generateSkill_rendered (existingSkills : list Skill) (skillData : Skill)
    (sourceInfo : option SourceInfo) :
  let resolved := resolveSkill existingSkills skillData sourceInfo in
  let rendered := renderSkill (fst (fst resolved)) sourceInfo (snd resolved) in
  content (generateSkill existingSkills skillData sourceInfo) = fst rendered /\
  references (generateSkill existingSkills skillData sourceInfo) = snd rendered.
Proof.
  unfold generateSkill. cbv zeta.
  destruct (resolveSkill existingSkills skillData sourceInfo) as [[f p] d].
  cbn [fst snd]. destruct (renderSkill f sourceInfo d). split; reflexivity.
Qed.

Lemma generateSkill_progressive_disclosure_witness :
  lineCount (content (generateSkill [] longExampleSkill reviewSource)) <= 500 /\
  1 <= length (references (generateSkill [] longExampleSkill reviewSource)).
Proof.
  pose proof (generateSkill_progressive_disclosure [] longExampleSkill
                reviewSource) as H.
  cbv zeta in H. destruct H as (_ & _ & _ & H).
  - apply Nat.ltb_lt. vm_compute. reflexivity.
  - apply H; try (vm_compute; reflexivity).
    apply Nat.leb_le. vm_compute. reflexivity.
Defined.

(** C2 as stated fails: the 600 sources of the first record are listed in
    the metadata of both documents and the 600 lines of the title of the
    second are written under both frontmatters, so the main document of the
    disclosure still exceeds 500 lines, and no reference document is
    written, the records having neither an example nor a long detail. *)
Lemma generateSkill_disclosure_over_budget :
  let g := generateSkill [] manySourcesSkill reviewSource in
  let h := generateSkill [] longTitleSkill reviewSource in
  (500 <? lineCount (buildSkillContent manySourcesSkill reviewSource)) = true /\
  (500 <? lineCount (content g)) = true /\
  references g = [] /\
  (500 <? lineCount (buildSkillContent longTitleSkill reviewSource)) = true /\
  (500 <? lineCount (content h)) = true /\
  references h = [].
Proof.
  cbv zeta.
  destruct (generateSkill_rendered [] manySourcesSkill reviewSource) as [-> ->].
  destruct (generateSkill_rendered [] longTitleSkill reviewSource) as [-> ->].
  vm_compute. repeat split.
Qed.

(** * Further properties *)

(** ** The domain detector *)

Lemma toLowerCase_app (a b : jsstring) :
  toLowerCase (a ++ b) = toLowerCase a ++ toLowerCase b.
Proof. apply List.map_app. Qed.

Lemma includes_inside (p a s b : jsstring) :
  includes p s = true -> includes p (a ++ s ++ b) = true.
Proof. intros H. apply includes_app_r, includes_app_l, H. Qed.

Lemma domainRank_choice (o o' c c' : bool) :
  (o = true -> o' = true) -> (c = true -> c' = true) ->
  domainRank (if o then "ohif" else if c then "cornerstone3d" else "general") <=
  domainRank (if o' then "ohif" else if c' then "cornerstone3d" else "general").
Proof.
  intros Ho Hc.
  destruct o; [rewrite Ho by reflexivity; reflexivity |].
  destruct c; [rewrite Hc by reflexivity; destruct o'; vm_compute; lia |].
  destruct o', c'; vm_compute; lia.
Qed.

(** X1: text added around the path or around the comment never lowers the
    detected domain: [ohif] stays, [cornerstone3d] stays or becomes [ohif]. *)
Theorem detectDomain_monotone (filePath content a b a' b' : jsstring) :
  domainRank (detectDomain filePath content) <=
  domainRank (detectDomain (a ++ filePath ++ b) (a' ++ content ++ b')).
Proof.
  unfold detectDomain. rewrite !toLowerCase_app.
  pose proof (fun w => includes_inside w (toLowerCase a) (toLowerCase filePath)
                         (toLowerCase b)) as Hp.
  pose proof (fun w => includes_inside w (toLowerCase a') (toLowerCase content)
                         (toLowerCase b')) as Hc.
  apply domainRank_choice; rewrite !orb_true_iff;
    intros [[[H | H] | H] | H]; auto using Hp, Hc.
Qed.

(** ** Merging: the keywords *)

Lemma indexOf_app_in (v : jsstring) (a b : list jsstring) :
  v ∈ a -> indexOf v (a ++ b) < length a.
Proof.
  induction a as [|x a IH]; intros H; [inversion H |].
  cbn [indexOf app length]. destruct (decide (x = v)); [lia |].
  apply elem_of_cons in H as [H | H]; [congruence |].
  specialize (IH H). lia.
Qed.

Lemma indexOf_app_notin (v : jsstring) (a b : list jsstring) :
  v ∉ a -> indexOf v (a ++ v :: b) = length a.
Proof.
  induction a as [|x a IH]; intros H; cbn [indexOf app length].
  - destruct (decide (v = v)); congruence.
  - destruct (decide (x = v)) as [-> | _].
    + exfalso. apply H. left.
    + rewrite IH; [reflexivity |]. intros Hin. apply H. now right.
Qed.

Lemma removeDuplicates_from (pre l : list jsstring) :
  List.map fst
    (List.filter (fun vi => indexOf (fst vi) (pre ++ l) =? snd vi)
       (combine l (seq (length pre) (length l)))) =
  firstOccurrences pre l.
Proof.
  revert pre. induction l as [|x l IH]; intros pre; [reflexivity |].
  cbn [length seq combine List.filter fst snd firstOccurrences].
  replace (pre ++ x :: l) with ((pre ++ [x]) ++ l)
    by (rewrite <- app_assoc; reflexivity).
  specialize (IH (pre ++ [x])).
  rewrite length_app in IH. cbn [length] in IH.
  rewrite Nat.add_1_r in IH.
  destruct (bool_decide (x ∈ pre)) eqn:E.
  - apply bool_decide_eq_true in E.
    pose proof (indexOf_app_in x pre (x :: l) E) as Hlt.
    replace ((pre ++ [x]) ++ l) with (pre ++ x :: l) at 1
      by (rewrite <- app_assoc; reflexivity).
    destruct (Nat.eqb_spec (indexOf x (pre ++ x :: l)) (length pre)); [lia |].
    exact IH.
  - apply bool_decide_eq_false in E.
    pose proof (indexOf_app_notin x pre l E) as Heq.
    replace ((pre ++ [x]) ++ l) with (pre ++ x :: l) at 1
      by (rewrite <- app_assoc; reflexivity).
    rewrite Heq, Nat.eqb_refl. cbn [List.map fst]. f_equal. exact IH.
Qed.

Lemma removeDuplicates_firstOccurrences (a : list jsstring) :
  removeDuplicates a = firstOccurrences [] a.
Proof. exact (removeDuplicates_from [] a). Qed.

Lemma firstOccurrences_elem (l : list jsstring) :
  forall seen w, w ∈ firstOccurrences seen l <-> w ∈ l /\ w ∉ seen.
Proof.
  induction l as [|x l IH]; intros seen w; cbn [firstOccurrences].
  - split; [intros H; inversion H | intros [H _]; inversion H].
  - destruct (bool_decide (x ∈ seen)) eqn:E.
    + apply bool_decide_eq_true in E. rewrite IH, elem_of_cons, elem_of_app.
      rewrite list_elem_of_singleton. split.
      * intros [H1 H2]. split; [now right | tauto].
      * intros [[-> | H1] H2]; [tauto |]. split; [assumption |].
        intros [H | ->]; tauto.
    + apply bool_decide_eq_false in E.
      rewrite !elem_of_cons, IH, elem_of_app, list_elem_of_singleton. split.
      * intros [-> | [H1 H2]]; [tauto |]. split; [now right | tauto].
      * intros [[-> | H1] H2]; [now left |].
        destruct (decide (w = x)) as [-> | Hne]; [now left |].
        right. split; [assumption |]. intros [H | H]; tauto.
Qed.

Lemma firstOccurrences_NoDup (l : list jsstring) :
  forall seen, NoDup (firstOccurrences seen l).
Proof.
  induction l as [|x l IH]; intros seen; cbn [firstOccurrences];
    [constructor |].
  destruct (bool_decide (x ∈ seen)); [apply IH |].
  constructor; [| apply IH].
  rewrite firstOccurrences_elem, elem_of_app, list_elem_of_singleton. tauto.
Qed.

Lemma firstOccurrences_sublist (l : list jsstring) :
  forall seen, sublist (firstOccurrences seen l) l.
Proof.
  induction l as [|x l IH]; intros seen; cbn [firstOccurrences];
    [constructor |].
  destruct (bool_decide (x ∈ seen)); [apply sublist_cons | apply sublist_skip];
    apply IH.
Qed.

(** X2: the keywords of a merged skill are the keywords of the existing
    skill followed by those of the new one, each kept where it occurs for
    the first time and dropped where it occurs again: no keyword is lost,
    none is repeated and the order is kept. *)
Theorem mergeSkills_keywords (existingSkill newSkill : Skill) :
  let all :=
    optList (keywords existingSkill) ++ optList (keywords newSkill) in
  keywords (mergeSkills existingSkill newSkill) =
    Some (firstOccurrences [] all) /\
  NoDup (firstOccurrences [] all) /\
  sublist (firstOccurrences [] all) all /\
  forall w, w ∈ firstOccurrences [] all <-> w ∈ all.
Proof.
  intros all. split.
  - unfold mergeSkills. cbn [keywords]. f_equal.
    apply removeDuplicates_firstOccurrences.
  - split; [apply firstOccurrences_NoDup |].
    split; [apply firstOccurrences_sublist |].
    intros w. rewrite firstOccurrences_elem.
    split; [tauto |]. intros H. split; [exact H |]. intros Hin. inversion Hin.
Qed.

(** ** The skill that a new one is merged into *)

Lemma hd_insertSimilar (x : Similar) (l : list Similar) :
  hd_error (insertSimilar x l) =
  match hd_error l with
  | None => Some x
  | Some b => Some (better b x)
  end.
Proof.
  destruct l as [|y l]; [reflexivity |]. cbn [insertSimilar hd_error].
  unfold better. destruct (Qle_bool (similarity x) (similarity y)); reflexivity.
Qed.

Lemma hd_sortSimilar_from (l acc : list Similar) (b : Similar) :
  hd_error acc = Some b ->
  hd_error (fold_left (fun acc x => insertSimilar x acc) l acc) =
  Some (fold_left better l b).
Proof.
  revert acc b. induction l as [|x l IH]; intros acc b Hb; [exact Hb |].
  cbn [fold_left]. apply IH. rewrite hd_insertSimilar, Hb. reflexivity.
Qed.

Lemma hd_sortSimilar (x : Similar) (l : list Similar) :
  hd_error (sortSimilar (x :: l)) = Some (fold_left better l x).
Proof. apply (hd_sortSimilar_from l [x] x). reflexivity. Qed.

(** The best pair of a list stands after pairs that score less and before
    pairs that score no more. *)
Lemma fold_better_split (l : list Similar) :
  forall pre b post,
    (forall x, In x pre -> (similarity x < similarity b)%Q) ->
    (forall x, In x post -> (similarity x <= similarity b)%Q) ->
    exists pre' post',
      pre ++ b :: post ++ l = pre' ++ fold_left better l b :: post' /\
      (forall x, In x pre' ->
         (similarity x < similarity (fold_left better l b))%Q) /\
      (forall x, In x post' ->
         (similarity x <= similarity (fold_left better l b))%Q).
Proof.
  induction l as [|y l IH]; intros pre b post Hpre Hpost.
  - exists pre, post. rewrite app_nil_r. auto.
  - cbn [fold_left]. unfold better at 2 4 6.
    destruct (Qle_bool (similarity y) (similarity b)) eqn:E.
    + apply Qle_bool_iff in E.
      destruct (IH pre b (post ++ [y])) as [pre' [post' [Heq H]]];
        [exact Hpre | |].
      * intros x Hx. apply in_app_or in Hx as [Hx | [<- | []]]; auto.
      * exists pre', post'. rewrite <- Heq, <- app_assoc. auto.
    + assert (Hlt : (similarity b < similarity y)%Q).
      { apply Qnot_le_lt. intros H. apply Qle_bool_iff in H. congruence. }
      destruct (IH (pre ++ b :: post) y []) as [pre' [post' [Heq H]]].
      * intros x Hx. apply in_app_or in Hx as [Hx | [<- | Hx]];
          [eapply Qlt_trans; [apply Hpre, Hx | exact Hlt] | exact Hlt |
           eapply Qle_lt_trans; [apply Hpost, Hx | exact Hlt]].
      * intros x [].
      * exists pre', post'. rewrite <- Heq, <- !app_assoc. auto.
Qed.

Lemma filter_split {A : Type} (t : A -> bool) (l : list A) :
  forall a y b,
    List.filter t l = a ++ y :: b ->
    exists a' b',
      l = a' ++ y :: b' /\ t y = true /\
      List.filter t a' = a /\ List.filter t b' = b.
Proof.
  induction l as [|x l IH]; intros a y b H; cbn [List.filter] in H.
  - destruct a; discriminate.
  - destruct (t x) eqn:E.
    + destruct a as [|a0 a]; cbn [app] in H; injection H as -> H.
      * exists [], l. cbn [List.filter app]. auto.
      * destruct (IH _ _ _ H) as [a' [b' [-> [Hy [Ha Hb]]]]].
        exists (a0 :: a'), b'. cbn [List.filter app]. rewrite E, Ha. auto.
    + destruct (IH _ _ _ H) as [a' [b' [-> [Hy [Ha Hb]]]]].
      exists (x :: a'), b'. cbn [List.filter app]. rewrite E. auto.
Qed.

Lemma map_split {A B : Type} (f : A -> B) (l : list A) :
  forall a y b,
    List.map f l = a ++ y :: b ->
    exists a' x b',
      l = a' ++ x :: b' /\ List.map f a' = a /\ f x = y /\ List.map f b' = b.
Proof.
  induction l as [|x l IH]; intros a y b H; cbn [List.map] in H.
  - destruct a; discriminate.
  - destruct a as [|a0 a]; cbn [app] in H; injection H as H1 H.
    + exists [], x, l. auto.
    + destruct (IH _ _ _ H) as [a' [x' [b' [-> [Ha [Hx Hb]]]]]].
      exists (x :: a'), x', b'. cbn [List.map app]. rewrite Ha, H1. auto.
Qed.

(** The head of [findSimilarSkills] is the first skill of the corpus whose
    score is the highest, when that score reaches the threshold. *)
Lemma findSimilarSkills_head (corpus : list Skill) (newSkill : Skill) :
  match findSimilarSkills corpus newSkill with
  | [] =>
      forall e, In e corpus ->
        (calculateSimilarity newSkill e < similarityThreshold)%Q
  | m :: _ =>
      exists pre post,
        corpus = pre ++ skill m :: post /\
        similarity m = calculateSimilarity newSkill (skill m) /\
        (similarityThreshold <= similarity m)%Q /\
        (forall x, In x pre ->
           (calculateSimilarity newSkill x < similarity m)%Q) /\
        (forall x, In x post ->
           (calculateSimilarity newSkill x <= similarity m)%Q)
  end.
Proof.
  rewrite findSimilarSkills_candidates.
  set (pass := fun e => Qle_bool similarityThreshold
                          (calculateSimilarity newSkill e)).
  set (pair := fun e => MkSimilar e (calculateSimilarity newSkill e)).
  assert (Hlow : forall x, pass x = false ->
            (calculateSimilarity newSkill x < similarityThreshold)%Q).
  { intros x Hx. apply Qnot_le_lt. intros H. apply Qle_bool_iff in H.
    unfold pass in Hx. congruence. }
  destruct (candidates corpus newSkill) as [|c cs] eqn:Ec.
  - cbn. intros e He. apply Hlow. destruct (pass e) eqn:E; [| reflexivity].
    assert (Hin : In (pair e) (candidates corpus newSkill)).
    { unfold candidates. apply (in_map pair), filter_In. auto. }
    rewrite Ec in Hin. destruct Hin.
  - pose proof (hd_sortSimilar c cs) as Hhd.
    destruct (sortSimilar (c :: cs)) as [|m rest]; [discriminate |].
    cbn [hd_error] in Hhd. injection Hhd as ->.
    destruct (fold_better_split cs [] c []) as [pre' [post' [Heq [Hpre Hpost]]]];
      [intros x [] | intros x [] |].
    cbn [app] in Heq. rewrite <- Ec in Heq. unfold candidates in Heq.
    apply map_split in Heq as [fa [e [fb [Hf [Ha [He Hb]]]]]].
    apply filter_split in Hf as [a' [b' [-> [Hpass [Hfa Hfb]]]]].
    rewrite <- He in *. cbn [skill similarity] in *.
    exists a', b'. split; [reflexivity |]. split; [reflexivity |].
    split; [apply Qle_bool_iff; exact Hpass |].
    assert (Hthr : (similarityThreshold <= calculateSimilarity newSkill e)%Q)
      by (apply Qle_bool_iff; exact Hpass).
    split; intros x Hx.
    + destruct (pass x) eqn:E.
      * apply (Hpre (pair x)). rewrite <- Ha, <- Hfa.
        apply (in_map pair), filter_In. auto.
      * eapply Qlt_le_trans; [apply Hlow, E | exact Hthr].
    + destruct (pass x) eqn:E.
      * apply (Hpost (pair x)). rewrite <- Hb, <- Hfb.
        apply (in_map pair), filter_In. auto.
      * apply Qlt_le_weak. eapply Qlt_le_trans; [apply Hlow, E | exact Hthr].
Qed.

(** X3: [generateSkill] creates a new skill, in the file [SKILL.md] of
    [getSkillPath] for its domain (or [general]), its category folder and
    its normalized name, exactly when no skill of the corpus scores 0.8 or more
    against its title, description and keywords; otherwise it merges into
    the first skill of the corpus whose score is the highest, and writes at
    the path of that skill. *)
Theorem generateSkill_merge_target (corpus : list Skill) (skillData : Skill)
    (sourceInfo : option SourceInfo) :
  let g := generateSkill corpus skillData sourceInfo in
  let score := calculateSimilarity (probe skillData) in
  (isNew g = true /\ merged g = false /\
   (forall e, In e corpus -> (score e < 8 # 10)%Q) /\
   gpath g =
     getSkillPath (orElse (domain skillData) "general")
       (getCategoryFolder (category skillData))
       (normalizeSkillName (skillName skillData)) ++
     ["SKILL.md" : jsstring]) \/
  (isNew g = false /\ merged g = true /\
   exists pre e post,
     corpus = pre ++ e :: post /\
     (8 # 10 <= score e)%Q /\
     (forall x, In x pre -> (score x < score e)%Q) /\
     (forall x, In x post -> (score x <= score e)%Q) /\
     gpath g = path e).
Proof.
  intros g score. subst g. unfold generateSkill.
  pose proof (findSimilarSkills_head corpus (probe skillData)) as Hhead.
  unfold resolveSkill.
  change (similarTo corpus skillData)
    with (findSimilarSkills corpus (probe skillData)).
  destruct (findSimilarSkills corpus (probe skillData)) as [|m rest].
  - left. destruct (renderSkill _ _ _). cbn.
    split; [reflexivity |]. split; [reflexivity |].
    split; [exact Hhead | reflexivity].
  - right. destruct (renderSkill _ _ _). cbn.
    split; [reflexivity |]. split; [reflexivity |].
    destruct Hhead as [pre [post [Hc [Hs [Ht [Hpre Hpost]]]]]].
    exists pre, (skill m), post. subst score. cbn beta.
    rewrite <- Hs. auto.
Qed.

(** ** The score 1 *)

Lemma jaccard_one (X Y : gset jsstring) :
  (jaccard X Y == 1)%Q <-> X = Y /\ X <> ∅.
Proof.
  unfold jaccard. destruct (size (X ∪ Y) =? 0) eqn:E.
  - apply Nat.eqb_eq, size_empty_iff in E. split; [discriminate |].
    intros [-> Hne]. exfalso. apply Hne.
    rewrite (idemp_L (∪) Y) in E. apply leibniz_equiv. exact E.
  - apply Nat.eqb_neq in E.
    assert (Hpos : Z.pos (Pos.of_nat (size (X ∪ Y))) = Z.of_nat (size (X ∪ Y))).
    { rewrite <- positive_nat_Z, Nat2Pos.id by exact E. reflexivity. }
    unfold Qeq. cbn [Qnum Qden]. rewrite Hpos. split.
    + intros H. assert (Hsz : size (X ∩ Y) = size (X ∪ Y)) by lia.
      assert (Hsub : X ∩ Y ⊆ X ∪ Y).
      { etransitivity; [apply intersection_subseteq_l | apply union_subseteq_l]. }
      assert (Heq : X ∩ Y ≡ X ∪ Y).
      { apply set_subseteq_size_equiv; [exact Hsub | lia]. }
      split.
      * apply leibniz_equiv. apply set_equiv_subseteq. split.
        -- etransitivity; [apply union_subseteq_l |]. rewrite <- Heq.
           apply intersection_subseteq_r.
        -- etransitivity; [apply union_subseteq_r |]. rewrite <- Heq.
           apply intersection_subseteq_l.
      * intros ->. apply E. rewrite <- Hsz.
        rewrite (left_absorb_L ∅ (∩) Y). apply size_empty.
    + intros [-> Hne].
      rewrite (idemp_L (∩) Y), (idemp_L (∪) Y). lia.
Qed.

(** X4: the score of two records is 1 exactly when they have the same set
    of significant words and that set is not empty; so a record that holds
    a word of more than 3 characters scores 1 against itself. *)
Theorem calculateSimilarity_one (a b : Skill) :
  (calculateSimilarity a b == 1)%Q <->
  significantWords (similarityText a) = significantWords (similarityText b) /\
  significantWords (similarityText a) <> ∅.
Proof. rewrite calculateSimilarity_jaccard. apply jaccard_one. Qed.

(** ** The summary of a validation *)

Lemma severity_cases (i : Issue) :
  isError i || isWarning i || isInfo i = true.
Proof. unfold isError, isWarning, isInfo. destruct (severity i); reflexivity. Qed.

(** X5: the summary reads [Skill passes all validations] exactly when the
    validation raised no issue at all, whatever the severity. *)
Theorem generateSummary_passes (issues : list Issue) :
  generateSummary issues = "Skill passes all validations" <-> issues = [].
Proof.
  split; [| intros ->; reflexivity].
  destruct issues as [|i l]; [reflexivity |]. intros H. exfalso.
  unfold generateSummary in H. cbn [List.filter] in H.
  pose proof (severity_cases i) as Hi.
  destruct (isError i); cbn [length Nat.eqb andb] in H; [discriminate |].
  destruct (isWarning i); cbn [length Nat.eqb andb] in H;
    [rewrite andb_false_r in H; discriminate |].
  destruct (isInfo i); cbn [length Nat.eqb andb] in H; [| discriminate].
  rewrite andb_false_r in H; discriminate.
Qed.

(** ** The repository name *)

Lemma splitOn_app (sep : ascii -> bool) (a : jsstring) :
  forall cur s,
    Forall (fun c => sep c = false) a ->
    splitOn sep cur (a ++ s) = splitOn sep (rev a ++ cur) s.
Proof.
  induction a as [|x a IH]; intros cur s H; [reflexivity |].
  inversion H as [|? ? Hx Ha]; subst. cbn [app splitOn]. rewrite Hx.
  rewrite IH by exact Ha. cbn [rev]. rewrite <- app_assoc. reflexivity.
Qed.

(** X6: [parseRepository] takes an [owner/repo] name apart again, whatever
    follows a second slash; a name without a slash has no repository part. *)
Theorem parseRepository_owner_repo (owner repo rest : jsstring) :
  Forall (fun c => isChar 47 c = false) owner ->
  Forall (fun c => isChar 47 c = false) repo ->
  GitHubAPI.parseRepository (owner ++ "/" ++ repo) = (owner, Some repo) /\
  GitHubAPI.parseRepository (owner ++ "/" ++ repo ++ "/" ++ rest) =
    (owner, Some repo) /\
  GitHubAPI.parseRepository owner = (owner, None).
Proof.
  intros Ho Hr. unfold GitHubAPI.parseRepository.
  assert (Hend : forall cur, splitOn (isChar 47) cur [] = [rev cur])
    by reflexivity.
  repeat split.
  - rewrite splitOn_app by exact Ho. cbn [app lit list_ascii_of_string splitOn].
    change (isChar 47 "/"%char) with true. cbv iota.
    rewrite <- (app_nil_r repo), splitOn_app by exact Hr.
    cbn [splitOn hd nth_error].
    rewrite !app_nil_r, !rev_involutive. reflexivity.
  - rewrite splitOn_app by exact Ho. cbn [app lit list_ascii_of_string splitOn].
    change (isChar 47 "/"%char) with true. cbv iota.
    rewrite splitOn_app by exact Hr. cbn [splitOn].
    change (isChar 47 "/"%char) with true. cbv iota.
    cbn [hd nth_error].
    rewrite !app_nil_r, !rev_involutive. reflexivity.
  - assert (Hs : splitOn (isChar 47) [] owner = [owner]).
    { rewrite <- (app_nil_r owner) at 1. rewrite splitOn_app by exact Ho.
      rewrite app_nil_r. cbn [splitOn]. rewrite rev_involutive. reflexivity. }
    rewrite Hs. reflexivity.
Qed.

Lemma parseRepository_owner_repo_witness :
  GitHubAPI.parseRepository "octo/skills" =
  ("octo" : jsstring, Some ("skills" : jsstring)).
Proof.
  apply (parseRepository_owner_repo "octo" "skills" []);
    repeat constructor.
Defined.

(** ** The shape of a normalized name *)

Lemma isHyphen_eq (c : ascii) : isHyphen c = true -> c = "-"%char.
Proof. each_char c. Qed.

Section StandsApart.

Variable cls : ascii -> bool.

Lemma standsApart_weaken (s : jsstring) :
  standsApart cls true s = true -> standsApart cls false s = true.
Proof.
  destruct s as [|c s]; [reflexivity |]. cbn [standsApart].
  destruct (cls c); [discriminate | auto].
Qed.

Lemma standsApart_replaceRuns (r : ascii) (s : jsstring) :
  cls r = true ->
  forall inRun,
    standsApart cls inRun (replaceRunsFrom inRun cls [r] s) = true.
Proof.
  intros Hr. induction s as [|c s IH]; intros inRun; [reflexivity |].
  cbn [replaceRunsFrom]. destruct (cls c) eqn:E.
  - destruct inRun; [exact (IH true) |].
    cbn [app standsApart]. rewrite Hr. exact (IH true).
  - cbn [standsApart]. rewrite E. apply IH.
Qed.

Lemma standsApart_stripLeading (s : jsstring) :
  standsApart cls false s = true ->
  standsApart cls true (stripLeading cls s) = true.
Proof.
  destruct s as [|c s]; [reflexivity |]. cbn [standsApart stripLeading].
  destruct (cls c) eqn:E; [auto |].
  cbn [standsApart]. rewrite E. auto.
Qed.

Lemma standsApart_stripTrailing (s : jsstring) :
  forall b, standsApart cls b s = true ->
            standsApart cls b (stripTrailing cls s) = true.
Proof.
  induction s as [|c s IH]; intros b H; [reflexivity |].
  cbn [stripTrailing]. destruct s as [|d s].
  - destruct (cls c) eqn:E; [reflexivity | exact H].
  - cbn [standsApart] in H |- *. destruct (cls c).
    + apply andb_true_iff in H as [-> H]. apply (IH true H).
    + apply (IH false H).
Qed.

Lemma endsOutside_stripTrailing (s : jsstring) :
  forall b, standsApart cls b s = true ->
            endsOutside cls (stripTrailing cls s) = true.
Proof.
  induction s as [|c s IH]; intros b H; [reflexivity |].
  cbn [stripTrailing]. destruct s as [|d s].
  - destruct (cls c) eqn:E; [reflexivity |]. cbn [endsOutside]. now rewrite E.
  - cbn [standsApart] in H.
    assert (Hrest : exists b', standsApart cls b' (d :: s) = true /\
                     (cls c = true -> b' = true)).
    { destruct (cls c).
      - apply andb_true_iff in H as [_ H]. exists true. auto.
      - exists false. split; [exact H | discriminate]. }
    destruct Hrest as [b' [Hds Hb']].
    specialize (IH b' Hds).
    destruct (stripTrailing cls (d :: s)) as [|e t] eqn:Est.
    + cbn [endsOutside]. destruct (cls c) eqn:E; [| reflexivity].
      exfalso. rewrite (Hb' eq_refl) in Hds.
      destruct s as [|d' s]; cbn [stripTrailing] in Est; [| discriminate].
      cbn [standsApart] in Hds. destruct (cls d); discriminate.
    + exact IH.
Qed.

Lemma standsApart_firstn (n : nat) :
  forall s b, standsApart cls b s = true ->
              standsApart cls b (firstn n s) = true.
Proof.
  induction n as [|n IH]; intros s b H; [reflexivity |].
  destruct s as [|c s]; [reflexivity |]. cbn [firstn standsApart] in H |- *.
  destruct (cls c).
  - apply andb_true_iff in H as [-> H]. apply (IH s true H).
  - apply (IH s false H).
Qed.

Lemma standsApart_app (a : jsstring) :
  forall b rest,
    standsApart cls b (a ++ rest) = true ->
    standsApart cls (match rev a with c :: _ => cls c | [] => b end) rest
    = true.
Proof.
  induction a as [|c a IH]; intros b rest H; [exact H |].
  cbn [app standsApart] in H.
  assert (Hlast : match rev (c :: a) with x :: _ => cls x | [] => b end =
                  match rev a with x :: _ => cls x | [] => cls c end).
  { cbn [rev]. destruct (rev a); reflexivity. }
  rewrite Hlast. destruct (cls c) eqn:E.
  - apply andb_true_iff in H as [_ H]. apply (IH true rest H).
  - apply (IH false rest H).
Qed.

Lemma standsApart_prefix (a : jsstring) :
  forall b rest,
    standsApart cls b (a ++ rest) = true -> standsApart cls b a = true.
Proof.
  induction a as [|c a IH]; intros b rest H; [reflexivity |].
  cbn [app standsApart] in H |- *. destruct (cls c).
  - apply andb_true_iff in H as [-> H]. apply (IH true rest H).
  - apply (IH false rest H).
Qed.

Lemma endsOutside_app (a : jsstring) (c : ascii) (rest : jsstring) :
  endsOutside cls (a ++ c :: rest) = endsOutside cls (c :: rest).
Proof.
  induction a as [|x a IH]; [reflexivity |].
  cbn [app]. rewrite <- IH. cbn [endsOutside].
  destruct (a ++ c :: rest) eqn:E; [destruct a; discriminate | reflexivity].
Qed.

Lemma endsOutside_rev (s : jsstring) :
  endsOutside cls s =
  match rev s with [] => true | c :: _ => negb (cls c) end.
Proof.
  destruct (rev s) as [|c r] eqn:E.
  - apply (f_equal (@rev ascii)) in E. rewrite rev_involutive in E.
    subst s. reflexivity.
  - apply (f_equal (@rev ascii)) in E. rewrite rev_involutive in E.
    subst s. cbn [rev]. rewrite endsOutside_app. reflexivity.
Qed.

Lemma stripLeading_apart (s : jsstring) :
  standsApart cls true s = true -> stripLeading cls s = s.
Proof.
  destruct s as [|c s]; [reflexivity |]. cbn [standsApart stripLeading].
  destruct (cls c); [discriminate | reflexivity].
Qed.

Lemma stripTrailing_outside (s : jsstring) :
  endsOutside cls s = true -> stripTrailing cls s = s.
Proof.
  induction s as [|c s IH]; intros H; [reflexivity |].
  cbn [stripTrailing endsOutside] in H |- *. destruct s as [|d s].
  - apply negb_true_iff in H. rewrite H. reflexivity.
  - rewrite (IH H). reflexivity.
Qed.

End StandsApart.

(** What the table adds keeps the shape: after [gerund-] the rest of the
    name follows as after [verb-]. *)
Lemma verbMappings_shape :
  Forall (fun e => forall rest,
            standsApart isHyphen true ((fst e ++ "-") ++ rest) = true ->
            standsApart isHyphen true rest = true /\
            standsApart isHyphen true ((snd e ++ "-") ++ rest) = true)
    verbMappings.
Proof.
  repeat constructor; cbn [fst snd] in *;
    try (apply (standsApart_app isHyphen _ true rest H));
    exact (standsApart_app isHyphen _ true rest H).
Qed.

Lemma endsOutside_gerund (a g rest : jsstring) :
  endsOutside isHyphen ((a ++ "-") ++ rest) = true ->
  endsOutside isHyphen ((g ++ "-") ++ rest) = true.
Proof.
  rewrite <- !app_assoc. change (lit "-") with ["-"%char]. cbn [app].
  destruct rest as [|c rest].
  - rewrite (endsOutside_app isHyphen). discriminate.
  - rewrite !(endsOutside_app isHyphen _ "-"). auto.
Qed.

Lemma gerundLoop_shape (name : jsstring) :
  hyphensInside name = true ->
  hyphensInside (gerundLoop verbMappings name) = true.
Proof.
  unfold hyphensInside, standsInside. intros H. apply andb_true_iff in H as [Ha He].
  rewrite gerundLoop_find.
  destruct (List.find _ verbMappings) as [[verb gerund]|] eqn:Ef;
    [| rewrite Ha, He; reflexivity].
  apply find_some in Ef as [Hin Hs]. cbn [fst] in Hs.
  apply startsWith_true in Hs. set (rest := skipn _ name) in *.
  pose proof verbMappings_shape as Hall.
  rewrite List.Forall_forall in Hall. specialize (Hall _ Hin rest).
  cbn [fst snd] in Hall. rewrite Hs in Ha, He.
  destruct (Hall Ha) as [_ Hg].
  rewrite app_assoc, Hg. cbn [andb].
  apply (endsOutside_gerund verb). exact He.
Qed.

(** The names that no [verb-] of the table starts. *)
Lemma gerundLoop_none (name : jsstring) :
  List.find (fun e => startsWith (fst e ++ "-") name) verbMappings = None ->
  gerundLoop verbMappings name = name.
Proof. intros H. rewrite gerundLoop_find, H. reflexivity. Qed.

Lemma startsWith_app_l (p a b : jsstring) :
  startsWith p a = true -> startsWith p (a ++ b) = true.
Proof.
  revert a. induction p as [|x p IH]; intros a H; [reflexivity |].
  destruct a as [|y a]; [discriminate |]. cbn [startsWith app] in H |- *.
  apply andb_true_iff in H as [-> H]. apply (IH a H).
Qed.

Lemma find_verb_prefix (a b : jsstring) :
  List.find (fun e => startsWith (fst e ++ "-") (a ++ b)) verbMappings = None ->
  List.find (fun e => startsWith (fst e ++ "-") a) verbMappings = None.
Proof.
  intros H. destruct (List.find _ verbMappings) as [e|] eqn:Ef at 1;
    [| reflexivity].
  apply find_some in Ef as [Hin Hs].
  eapply find_none in H; [| exact Hin]. cbn beta in H.
  rewrite (startsWith_app_l _ a b Hs) in H. discriminate.
Qed.

Lemma stripTrailing_prefix (cls : ascii -> bool) (s : jsstring) :
  exists tl, s = stripTrailing cls s ++ tl.
Proof.
  induction s as [|c s [tl IH]]; [exists []; reflexivity |].
  cbn [stripTrailing]. destruct s as [|d s].
  - destruct (cls c); [exists [c] | exists []]; reflexivity.
  - exists tl. cbn [app]. f_equal. exact IH.
Qed.

(** After the table has rewritten a name, no [verb-] starts it. *)
Lemma verbMappings_once :
  Forall (fun e => forall rest,
            List.find (fun e' => startsWith (fst e' ++ "-")
                                   ((snd e ++ "-") ++ rest))
              verbMappings = None)
    verbMappings.
Proof. repeat constructor. Qed.

Lemma gerundLoop_once (name : jsstring) :
  List.find (fun e => startsWith (fst e ++ "-") (gerundLoop verbMappings name))
    verbMappings = None.
Proof.
  rewrite gerundLoop_find.
  destruct (List.find _ verbMappings) as [[verb gerund]|] eqn:Ef at 2;
    [| exact Ef].
  apply find_some in Ef as [Hin _].
  pose proof verbMappings_once as Hall.
  rewrite List.Forall_forall in Hall.
  rewrite app_assoc. exact (Hall _ Hin _).
Qed.

Lemma normalizeList_shape (name : jsstring) :
  hyphensInside (normalizeList name) = true /\
  List.find (fun e => startsWith (fst e ++ "-") (normalizeList name))
    verbMappings = None.
Proof.
  unfold normalizeList.
  set (kept := removeChars _ (toLowerCase name)).
  set (t2 := replaceRuns isHyphen "-" (replaceRuns isWhiteSpace "-" kept)).
  assert (H2 : standsApart isHyphen false t2 = true)
    by (apply (standsApart_replaceRuns isHyphen "-"); reflexivity).
  set (t := stripTrailing isHyphen (stripLeading isHyphen t2)).
  assert (Ht : hyphensInside t = true).
  { unfold hyphensInside, standsInside, t. apply andb_true_iff. split.
    - apply standsApart_stripTrailing, standsApart_stripLeading, H2.
    - apply (endsOutside_stripTrailing _ _ true), standsApart_stripLeading, H2. }
  pose proof (gerundLoop_shape t Ht) as Hu.
  pose proof (gerundLoop_once t) as Hn.
  cbv zeta. unfold convertToGerundForm.
  set (u := gerundLoop verbMappings t) in *.
  destruct (64 <? length u); [| split; assumption].
  unfold hyphensInside, standsInside in Hu |- *. apply andb_true_iff in Hu as [Ha He].
  pose proof (standsApart_firstn isHyphen 64 u true Ha) as Hf.
  split.
  - rewrite (standsApart_stripTrailing _ _ true Hf).
    rewrite (endsOutside_stripTrailing _ _ true Hf). reflexivity.
  - destruct (stripTrailing_prefix isHyphen (firstn 64 u)) as [tl Htl].
    apply (find_verb_prefix _ (tl ++ skipn 64 u)).
    rewrite app_assoc, <- Htl, firstn_skipn. exact Hn.
Qed.

(** X7: a normalized name has its hyphens alone and inside: it does not
    start with a hyphen, does not end with one and has no two in a row. *)
Theorem normalizeSkillName_hyphens (name : jsstring) :
  hyphensInside (normalizeSkillName name) = true.
Proof. rewrite normalizeSkillName_lists. apply normalizeList_shape. Qed.

(** *** Normalizing twice *)

Lemma nameChar_lower (c : ascii) : nameChar c = true -> lowerChar c = c.
Proof. each_char c. Qed.

Lemma nameChar_kept (c : ascii) :
  nameChar c = true ->
  negb (negb (isWordChar c || isWhiteSpace c || isHyphen c)) = true.
Proof. each_char c. Qed.

Lemma replaceRunsFrom_none (cls : ascii -> bool) (rep s : jsstring) :
  Forall (fun c => cls c = false) s ->
  forall inRun, replaceRunsFrom inRun cls rep s = s.
Proof.
  induction 1 as [|c s Hc Hs IH]; intros inRun; [reflexivity |].
  cbn [replaceRunsFrom]. rewrite Hc, IH. reflexivity.
Qed.

Lemma replaceRunsFrom_apart (s : jsstring) :
  forall b, standsApart isHyphen b s = true ->
            replaceRunsFrom b isHyphen "-" s = s.
Proof.
  induction s as [|c s IH]; intros b H; [reflexivity |].
  cbn [replaceRunsFrom standsApart] in H |- *. destruct (isHyphen c) eqn:E.
  - apply andb_true_iff in H as [Hb H]. apply negb_true_iff in Hb. subst b.
    rewrite (IH true H), (isHyphen_eq c E). reflexivity.
  - rewrite (IH false H). reflexivity.
Qed.

(** X8: normalizing a normalized name changes nothing. *)
Theorem normalizeSkillName_idempotent (name : jsstring) :
  normalizeSkillName (normalizeSkillName name) = normalizeSkillName name.
Proof.
  pose proof (normalizeSkillName_chars name) as Hc.
  pose proof (normalizeSkillName_length name) as Hl.
  pose proof (normalizeList_shape name) as [Hh Hv].
  rewrite <- normalizeSkillName_lists in Hh, Hv.
  set (w := normalizeSkillName name) in *.
  rewrite (normalizeSkillName_lists w). unfold normalizeList.
  unfold hyphensInside, standsInside in Hh. apply andb_true_iff in Hh as [Ha He].
  assert (H0 : toLowerCase w = w).
  { unfold toLowerCase. rewrite <- (map_id w) at 2. apply map_ext_in.
    intros c Hin. rewrite List.Forall_forall in Hc.
    apply nameChar_lower, Hc, Hin. }
  rewrite H0.
  assert (H1 : removeChars
                 (fun c => negb (isWordChar c || isWhiteSpace c || isHyphen c))
                 w = w).
  { unfold removeChars. apply forallb_filter_id. apply forallb_forall.
    intros c Hin. rewrite List.Forall_forall in Hc. apply nameChar_kept, Hc, Hin. }
  rewrite H1.
  assert (H2 : replaceRuns isWhiteSpace "-" w = w).
  { apply replaceRunsFrom_none. eapply List.Forall_impl; [| exact Hc].
    intros c. apply nameChar_not_space. }
  rewrite H2.
  assert (H3 : replaceRuns isHyphen "-" w = w)
    by (apply replaceRunsFrom_apart, standsApart_weaken, Ha).
  rewrite H3, (stripLeading_apart _ w Ha), (stripTrailing_outside _ w He).
  cbv zeta. unfold convertToGerundForm. rewrite (gerundLoop_none w Hv).
  replace (64 <? length w) with false; [reflexivity |].
  symmetry. apply Nat.ltb_ge. exact Hl.
Qed.

(** ** The normalizer and the validator of names *)

Lemma verbMappings_gerund :
  Forall (fun e => forall rest,
            isGerundForm ((snd e ++ "-") ++ rest) = true)
    verbMappings.
Proof. repeat constructor. Qed.

(** X9: a name that the table rewrites passes the gerund check of the
    validator. *)
Theorem convertToGerundForm_isGerundForm (name : jsstring) :
  leadingVerb name <> None ->
  isGerundForm (convertToGerundForm name) = true.
Proof.
  intros H. unfold convertToGerundForm. rewrite gerundLoop_find.
  unfold leadingVerb in H.
  destruct (List.find _ verbMappings) as [[verb gerund]|] eqn:Ef;
    [| congruence].
  apply find_some in Ef as [Hin _].
  pose proof verbMappings_gerund as Hall.
  rewrite List.Forall_forall in Hall.
  rewrite app_assoc. exact (Hall _ Hin _).
Qed.

Lemma convertToGerundForm_isGerundForm_witness :
  isGerundForm (convertToGerundForm "setup-the-store") = true.
Proof.
  apply (convertToGerundForm_isGerundForm "setup-the-store").
  vm_compute. discriminate.
Defined.

(** [/^[a-z0-9-]+$/] on lists. *)
Lemma search_Bol_plain (r : regex) (aft : jsstring) :
  forall x bef, search plain (Seq Bol r) (x :: bef) aft = None.
Proof.
  induction aft as [|c aft IH]; intros x bef; cbn [search].
  - unfold matchAt. rewrite run_Seq, run_Bol. reflexivity.
  - unfold matchAt. rewrite run_Seq, run_Bol. cbn [atLineStart before multiline plain andb].
    apply IH.
Qed.

Lemma greedyScan_to_end (cls : ascii -> bool) (s : jsstring) :
  forall bef cs,
    greedyScan cls (fun p cs' => run plain Eol p cs' finish) bef s cs =
    if forallb cls s then Some (Pos (rev s ++ bef) [], cs) else None.
Proof.
  induction s as [|c s IH]; intros bef cs; [reflexivity |].
  cbn [greedyScan forallb]. destruct (cls c); [| reflexivity].
  rewrite IH. cbn [andb rev]. rewrite <- app_assoc.
  destruct (forallb cls s); reflexivity.
Qed.

Lemma test_nameFormatRe (s : jsstring) :
  test plain nameFormatRe s =
  negb (isEmpty s) &&
  forallb (fun c => isLower c || isDigit c || isHyphen c) s.
Proof.
  unfold test, exec, nameFormatRe, seqs, Plus.
  destruct s as [|x s]; [reflexivity |].
  cbn [search isEmpty negb andb forallb]. unfold matchAt at 1.
  rewrite run_Seq, run_Bol. cbn [atLineStart before].
  rewrite !run_Seq, run_Cls. unfold step. cbn [after before].
  destruct (isLower x || isDigit x || isHyphen x).
  - rewrite run_greedy_cls.
    change (fun p' cs' => run plain Eol p' cs' (fun p'0 cs'0 => Some (p'0, cs'0)))
      with (fun p cs' => run plain Eol p cs' finish).
    rewrite greedyScan_to_end.
    destruct (forallb _ s); [reflexivity |].
    rewrite search_Bol_plain. reflexivity.
  - rewrite search_Bol_plain. reflexivity.
Qed.

Lemma nameChar_cases (c : ascii) :
  nameChar c = true ->
  isLower c || isDigit c || isHyphen c = negb (isUnderscore c).
Proof. each_char c. Qed.

(** X10: a normalized name that is not empty is within the length the
    validator allows, and passes the name format of the validator exactly
    when it holds no underscore. *)
Theorem normalizeSkillName_validates (raw : jsstring) :
  normalizeSkillName raw <> [] ->
  (maxNameLength <? length (normalizeSkillName raw)) = false /\
  test plain nameFormatRe (normalizeSkillName raw) =
  negb (existsb isUnderscore (normalizeSkillName raw)).
Proof.
  intros Hne. split.
  - apply Nat.ltb_ge. apply normalizeSkillName_length.
  - rewrite test_nameFormatRe.
    pose proof (normalizeSkillName_chars raw) as Hc.
    destruct (normalizeSkillName raw) as [|x n]; [congruence |].
    cbn [isEmpty negb andb]. clear Hne.
    induction Hc as [|c l Hc Hl IH]; [reflexivity |].
    cbn [forallb existsb]. rewrite IH, (nameChar_cases c Hc).
    rewrite negb_orb. reflexivity.
Qed.

Lemma normalizeSkillName_validates_witness :
  test plain nameFormatRe (normalizeSkillName "Fix my_hook") =
  negb (existsb isUnderscore (normalizeSkillName "Fix my_hook")).
Proof.
  apply (normalizeSkillName_validates "Fix my_hook").
  vm_compute. discriminate.
Defined.

(** ** The white space of a concise text *)

Lemma Forall_trimStart (P : ascii -> Prop) (s : jsstring) :
  Forall P s -> Forall P (trimStart s).
Proof.
  induction 1 as [|c s Hc Hs IH]; [constructor |].
  cbn [trimStart]. destruct (isWhiteSpace c); [exact IH |].
  constructor; assumption.
Qed.

Lemma Forall_trim (P : ascii -> Prop) (s : jsstring) :
  Forall P s -> Forall P (trim s).
Proof.
  intros H. unfold trim, trimEnd.
  apply Forall_rev, Forall_trimStart, Forall_rev, Forall_trimStart, H.
Qed.

Lemma standsApart_head (cls : ascii -> bool) (s : jsstring) (b b' : bool) :
  match s with [] => true | c :: _ => negb (cls c) end = true ->
  standsApart cls b s = standsApart cls b' s.
Proof.
  destruct s as [|c s]; [reflexivity |]. intros H. cbn [standsApart].
  apply negb_true_iff in H. rewrite H. reflexivity.
Qed.

Lemma trimEnd_split (s : jsstring) :
  exists w, s = trimEnd s ++ w /\ Forall (fun c => isWhiteSpace c = true) w.
Proof.
  unfold trimEnd. destruct (trimStart_split (rev s)) as [w [E Hw]].
  exists (rev w). split; [| apply Forall_rev, Hw].
  rewrite <- rev_app_distr, <- E, rev_involutive. reflexivity.
Qed.

Lemma standsInside_trim (s : jsstring) (b : bool) :
  standsApart isWhiteSpace b s = true ->
  standsInside isWhiteSpace (trim s) = true.
Proof.
  intros H. unfold standsInside, trim. apply andb_true_iff. split.
  - destruct (trimStart_split s) as [w [E _]]. rewrite E in H.
    apply standsApart_app in H.
    rewrite (standsApart_head _ _ _ true (trimStart_head s)) in H.
    destruct (trimEnd_split (trimStart s)) as [w' [E' _]].
    rewrite E' in H. apply standsApart_prefix in H. exact H.
  - rewrite endsOutside_rev. unfold trimEnd. rewrite rev_involutive.
    apply trimStart_head.
Qed.

Lemma makeConcise_inside (text : jsstring) :
  standsInside isWhiteSpace (makeConcise text) = true.
Proof.
  unfold makeConcise. destruct (isEmpty text); [reflexivity |].
  unfold space.
  rewrite (replaceAll_Plus plain isWhiteSpace (Cls isWhiteSpace))
    by reflexivity.
  apply (standsInside_trim _ false).
  apply (standsApart_replaceRuns isWhiteSpace " "). reflexivity.
Qed.

(** X11: in the text that [makeConcise] returns, the only white space is
    the space character, no two spaces follow each other and none stands at
    the start or at the end. *)
Theorem makeConcise_spaces (text : jsstring) :
  standsInside isWhiteSpace (makeConcise text) = true /\
  Forall (fun c => isWhiteSpace c = true -> c = " "%char) (makeConcise text).
Proof.
  split; [apply makeConcise_inside |].
  unfold makeConcise. destruct (isEmpty text); [constructor |].
  unfold space.
  rewrite (replaceAll_Plus plain isWhiteSpace (Cls isWhiteSpace))
    by reflexivity.
  apply Forall_trim. apply Forall_replaceRunsFrom.
  - repeat constructor.
  - apply List.Forall_forall. intros c _ Hc Hw. congruence.
Qed.

(** ** The description written to the frontmatter *)

Lemma search_reach (fl : flags) (r : regex) (pre : jsstring) :
  forall bef aft,
    matchAt fl r (Pos (rev pre ++ bef) aft) <> None ->
    search fl r bef (pre ++ aft) <> None.
Proof.
  induction pre as [|c pre IH]; intros bef aft H.
  - cbn [rev app] in H |- *. revert H.
    destruct aft; cbn [search]; destruct (matchAt fl r _); intros H;
      try discriminate; exfalso; apply H; reflexivity.
  - cbn [app search].
    destruct (matchAt fl r (Pos bef (c :: pre ++ aft))); [discriminate |].
    apply IH. cbn [rev] in H. rewrite <- app_assoc in H. exact H.
Qed.

Lemma test_reach (fl : flags) (r : regex) (pre aft : jsstring) :
  matchAt fl r (Pos (rev pre) aft) <> None -> test fl r (pre ++ aft) = true.
Proof.
  intros H. unfold test, exec.
  pose proof (search_reach fl r pre [] aft) as Hs.
  rewrite app_nil_r in Hs. specialize (Hs H).
  destruct (search fl r [] (pre ++ aft)); congruence.
Qed.

(** The clause that [addWhenToUse] appends is one the validator accepts. *)
Lemma useWhen_found (d rest : jsstring) :
  test flagI (seqs [WordBoundary; Str "use when"; WordBoundary])
    (d ++ " Use when " ++ rest) = true.
Proof.
  change (d ++ " Use when " ++ rest) with (d ++ " " ++ ("Use when " ++ rest)).
  rewrite app_assoc. apply test_reach. rewrite rev_app_distr.
  vm_compute. discriminate.
Qed.

Lemma hasWhenToUse_validator (text : jsstring) :
  SkillGenerator.hasWhenToUse text = true ->
  SkillValidator.hasWhenToUse text = true.
Proof.
  unfold SkillGenerator.hasWhenToUse, SkillValidator.hasWhenToUse,
    SkillGenerator.whenToUsePatterns, SkillValidator.whenToUsePatterns.
  cbn [existsb]. rewrite !orb_false_r. intros H.
  apply orb_true_iff in H as [H | H]; [rewrite H; reflexivity |].
  apply orb_true_iff in H as [H | H]; rewrite H, ?orb_true_r; reflexivity.
Qed.

Lemma addWhenToUse_found (d category domain : jsstring) :
  category = "anti-pattern" \/ category = "best-practice" ->
  SkillValidator.hasWhenToUse (addWhenToUse d category domain) = true.
Proof.
  intros Hc. unfold SkillValidator.hasWhenToUse,
    SkillValidator.whenToUsePatterns. cbn [existsb].
  apply orb_true_iff. left. unfold addWhenToUse.
  destruct Hc as [-> | ->].
  - change (strEq "anti-pattern" "anti-pattern") with true. cbv iota.
    apply (useWhen_found d).
  - change (strEq "best-practice" "anti-pattern") with false.
    change (strEq "best-practice" "best-practice") with true. cbv iota.
    apply (useWhen_found d).
Qed.

(** The description written has at most 1024 characters, and holds a
    when-to-use clause for an anti-pattern or a best practice whose
    completed description needs no cutting. *)
Lemma enhanceDescription_clause (skillData : Skill) :
  length (enhanceDescription skillData) <= 1024 /\
  (category skillData = "anti-pattern" \/
   category skillData = "best-practice" ->
   length (completedDescription skillData) <= 1024 ->
   SkillValidator.hasWhenToUse (enhanceDescription skillData) = true).
Proof.
  change (enhanceDescription skillData)
    with (if 1024 <? length (completedDescription skillData)
          then firstn 1021 (completedDescription skillData) ++ "..."
          else completedDescription skillData).
  split.
  - destruct (1024 <? _) eqn:E; [| apply Nat.ltb_ge, E].
    rewrite length_app, length_firstn. cbn [length lit list_ascii_of_string]. lia.
  - intros Hc Hl. apply Nat.ltb_ge in Hl. rewrite Hl.
    unfold completedDescription.
    destruct (SkillGenerator.hasWhenToUse _) eqn:E; cbn [negb].
    + apply hasWhenToUse_validator, E.
    + apply addWhenToUse_found, Hc.
Qed.

(** ** The skills on disk *)

Section Traversal.

Import ManagerFiles.

Variable fs : Files.

Lemma pushes_ret {A : Type} (a : A) : pushes (ret a) [].
Proof. intros skills. cbn. rewrite app_nil_r. reflexivity. Qed.

Lemma pushes_throw {A : Type} (e : ErrorCode) (l : list Skill) :
  pushes (@throw A e) l.
Proof. intros skills. cbn. exists [], l. rewrite app_nil_r. auto. Qed.

Lemma pushes_bind {A B : Type} (m : Try A) (k : A -> Try B)
    (l1 l2 : list Skill) :
  pushes m l1 -> (forall a, pushes (k a) l2) -> pushes (bind m k) (l1 ++ l2).
Proof.
  intros Hm Hk skills. unfold bind. specialize (Hm skills).
  destruct (m skills) as [skills' [e | a]].
  - destruct Hm as [added [rest [-> ->]]].
    exists added, (rest ++ l2). rewrite <- app_assoc. auto.
  - subst skills'. specialize (Hk a (skills ++ l1)).
    destruct (k a (skills ++ l1)) as [skills'' [e | b]].
    + destruct Hk as [added [rest [-> ->]]].
      exists (l1 ++ added), rest. rewrite !app_assoc. auto.
    + rewrite Hk, app_assoc. reflexivity.
Qed.

Lemma pushes_forEach {A : Type} (f : A -> Try unit) (g : A -> list Skill)
    (l : list A) :
  (forall a, pushes (f a) (g a)) -> pushes (forEach l f) (flat_map g l).
Proof.
  intros H. induction l as [|a l IH]; cbn [forEach flat_map].
  - apply pushes_ret.
  - apply pushes_bind; [apply H | intros _; exact IH].
Qed.

Lemma pushes_getDirectories {B : Type} (dirPath : fspath)
    (k : list jsstring -> Try B) (l : list Skill) :
  pushes (k (subdirectories fs dirPath)) l ->
  pushes (bind (getDirectories fs dirPath) k) l.
Proof.
  unfold getDirectories, subdirectories.
  destruct (readdir fs dirPath) as [[] | entries]; intros H skills;
    try exact (H skills); apply (pushes_throw _ l skills).
Qed.

Lemma pushes_ensureDirectory {B : Type} (dirPath : fspath)
    (k : unit -> Try B) (l : list Skill) :
  pushes (k tt) l -> pushes (bind (ensureDirectory fs dirPath) k) l.
Proof.
  unfold ensureDirectory.
  destruct (mkdir fs dirPath) as [[] |]; intros H skills;
    try exact (H skills); apply (pushes_throw _ l skills).
Qed.

Lemma pushes_readSkill (domain category skillDir : jsstring) :
  pushes (readSkill fs (skillsDir ++ [domain; category]) domain category
            skillDir)
    (match readFile fs (skillFile skillsDir (domain, category, skillDir)) with
     | ReadOk content => [storedSkill domain category skillDir content]
     | ReadFailed _ => []
     end).
Proof.
  unfold readSkill, skillFile.
  replace ((skillsDir ++ [domain; category]) ++ [skillDir; lit "SKILL.md"])
    with (skillsDir ++ [domain; category; skillDir; lit "SKILL.md"])
    by (rewrite <- app_assoc; reflexivity).
  destruct (readFile fs _); [| apply pushes_ret].
  intros skills. reflexivity.
Qed.

Lemma flat_map_flat_map {A B C : Type} (f : A -> list B) (g : B -> list C)
    (l : list A) :
  flat_map g (flat_map f l) = flat_map (fun a => flat_map g (f a)) l.
Proof.
  induction l as [|a l IH]; [reflexivity |].
  cbn [flat_map]. rewrite flat_map_app, IH. reflexivity.
Qed.

Lemma flat_map_map {A B C : Type} (f : A -> B) (g : B -> list C)
    (l : list A) :
  flat_map g (List.map f l) = flat_map (fun a => g (f a)) l.
Proof. induction l as [|a l IH]; [reflexivity |]. cbn. rewrite IH. reflexivity. Qed.

Lemma pushes_traversal :
  pushes
    (bind (ensureDirectory fs skillsDir) (fun _ =>
     bind (getDirectories fs skillsDir) (fun domains =>
     forEach domains (fun domain =>
       let domainPath := skillsDir ++ [domain] in
       bind (getDirectories fs domainPath) (fun categories =>
       forEach categories (fun category =>
         let categoryPath := domainPath ++ [category] in
         bind (getDirectories fs categoryPath) (fun skillDirs =>
         forEach skillDirs (fun skillDir =>
           readSkill fs categoryPath domain category skillDir))))))))
    (readableSkills fs).
Proof.
  unfold readableSkills, skillDirectories.
  rewrite flat_map_flat_map.
  apply pushes_ensureDirectory, pushes_getDirectories, pushes_forEach.
  intros domain. cbv zeta. rewrite flat_map_flat_map.
  apply pushes_getDirectories, pushes_forEach. intros category.
  rewrite flat_map_map.
  replace ((skillsDir ++ [domain]) ++ [category])
    with (skillsDir ++ [domain; category])
    by (rewrite <- app_assoc; reflexivity).
  apply pushes_getDirectories, pushes_forEach. intros skillDir.
  apply pushes_readSkill.
Qed.

Lemma returns_bind {A B : Type} (m : Try A) (k : A -> Try B) :
  returns m -> (forall a, returns (k a)) -> returns (bind m k).
Proof.
  intros Hm Hk skills. unfold bind.
  destruct (Hm skills) as [skills' [a ->]]. apply Hk.
Qed.

Lemma returns_forEach {A : Type} (f : A -> Try unit) (l : list A) :
  (forall a, returns (f a)) -> returns (forEach l f).
Proof.
  intros H. induction l as [|a l IH]; cbn [forEach].
  - intros skills. exists skills, tt. reflexivity.
  - apply returns_bind; [apply H | intros _; exact IH].
Qed.

Lemma returns_getDirectories (dirPath : fspath) :
  quiet fs -> returns (getDirectories fs dirPath).
Proof.
  intros [_ Hq] skills. unfold getDirectories.
  destruct (readdir fs dirPath) as [e | entries] eqn:E.
  - rewrite (Hq _ _ E). exists skills, []. reflexivity.
  - eexists _, _. reflexivity.
Qed.

Lemma returns_readSkill (categoryPath : fspath)
    (domain category skillDir : jsstring) :
  returns (readSkill fs categoryPath domain category skillDir).
Proof.
  intros skills. unfold readSkill.
  destruct (readFile fs _); eexists _, _; reflexivity.
Qed.

Lemma getAllSkills_prefix :
  exists rest, readableSkills fs = getAllSkills fs ++ rest.
Proof.
  unfold getAllSkills.
  match goal with |- context [fst (?m [])] => set (M := m) end.
  assert (Hp : pushes M (readableSkills fs)) by exact pushes_traversal.
  specialize (Hp []).
  destruct (M []) as [skills' [e | a]]; cbn [fst].
  - destruct Hp as [added [rest [-> ->]]]. exists rest. reflexivity.
  - exists []. rewrite app_nil_r. exact (eq_sym Hp).
Qed.

Lemma getAllSkills_quiet : quiet fs -> getAllSkills fs = readableSkills fs.
Proof.
  intros Hq. unfold getAllSkills.
  match goal with |- context [fst (?m [])] => set (M := m) end.
  assert (Hp : pushes M (readableSkills fs)) by exact pushes_traversal.
  specialize (Hp []).
  assert (Hr : returns M).
  { apply returns_bind.
    - intros skills. unfold ensureDirectory.
      destruct (mkdir fs skillsDir) as [e |] eqn:E;
        [rewrite (proj1 Hq _ E) |]; exists skills, tt; reflexivity.
    - intros _. apply returns_bind; [apply returns_getDirectories, Hq |].
      intros domains. apply returns_forEach. intros domain.
      apply returns_bind; [apply returns_getDirectories, Hq |].
      intros categories. apply returns_forEach. intros category.
      apply returns_bind; [apply returns_getDirectories, Hq |].
      intros skillDirs. apply returns_forEach. intros skillDir.
      apply returns_readSkill. }
  destruct (Hr []) as [skills' [a E]]. rewrite E in Hp. rewrite E.
  cbn [fst]. exact Hp.
Qed.

End Traversal.

(** ** The skills returned when a listing throws *)

Lemma upTo_app {A : Type} (stop : A -> bool) (x y : list A) :
  upTo stop (x ++ y) =
  if existsb stop x then upTo stop x else x ++ upTo stop y.
Proof.
  induction x as [|a x IH]; [reflexivity |]. cbn [app upTo existsb].
  destruct (stop a); [reflexivity |]. cbn [orb]. rewrite IH.
  destruct (existsb stop x); reflexivity.
Qed.

Lemma upTo_all {A : Type} (stop : A -> bool) (l : list A) :
  existsb stop l = false -> upTo stop l = l.
Proof.
  induction l as [|a l IH]; [reflexivity |]. cbn [existsb upTo].
  destruct (stop a); [discriminate |]. intros H. rewrite (IH H). reflexivity.
Qed.

Section UntilError.

Import ManagerFiles.

Variable fs : Files.

Lemma runs_ret {A : Type} (a : A) : runs fs (ret a) [].
Proof. intros skills. cbn. rewrite app_nil_r. auto. Qed.

Lemma runs_bind {A B : Type} (m : Try A) (k : A -> Try B)
    (s1 s2 : list (fspath * list Skill)) :
  runs fs m s1 -> (forall a, runs fs (k a) s2) -> runs fs (bind m k) (s1 ++ s2).
Proof.
  intros Hm Hk skills. unfold bind. specialize (Hm skills).
  rewrite upTo_app, existsb_app, flat_map_app.
  destruct (m skills) as [skills' [e | a]].
  - destruct Hm as [-> ->]. auto.
  - destruct Hm as [-> ->]. specialize (Hk a (skills ++ flat_map snd s1)).
    cbn [orb].
    destruct (k a (skills ++ flat_map snd s1)) as [skills'' [e | b]];
      destruct Hk as [-> ->]; rewrite ?flat_map_app, <- ?app_assoc; auto.
Qed.

Lemma runs_forEach {A : Type} (f : A -> Try unit)
    (g : A -> list (fspath * list Skill)) (l : list A) :
  (forall a, runs fs (f a) (g a)) -> runs fs (forEach l f) (flat_map g l).
Proof.
  intros H. induction l as [|a l IH]; cbn [forEach flat_map].
  - apply runs_ret.
  - apply runs_bind; [apply H | intros _; exact IH].
Qed.

(** Listing a directory whose subdirectories are then gone through. *)
Lemma runs_getDirectories {B : Type} (dirPath : fspath)
    (k : list jsstring -> Try B) (rest : list (fspath * list Skill)) :
  (raises fs dirPath = false -> runs fs (k (subdirectories fs dirPath)) rest) ->
  runs fs (bind (getDirectories fs dirPath) k) ((dirPath, []) :: rest).
Proof.
  unfold runs, stops, raises, getDirectories, subdirectories, bind.
  cbn [flat_map upTo existsb fst snd app].
  destruct (readdir fs dirPath) as [[] | entries]; intros H skills;
    cbn [ret throw orb]; rewrite ?app_nil_r; auto; exact (H eq_refl skills).
Qed.

(** Listing a category, whose skill files are then read. *)
Lemma runs_category (domain category : jsstring) :
  runs fs
    (bind (getDirectories fs (skillsDir ++ [domain; category]))
       (fun skillDirs =>
          forEach skillDirs (fun skillDir =>
            readSkill fs (skillsDir ++ [domain; category]) domain category
              skillDir)))
    [(skillsDir ++ [domain; category], categorySkills fs domain category)].
Proof.
  set (p := skillsDir ++ [domain; category]).
  set (loop := fun skillDirs : list jsstring =>
         forEach skillDirs (fun skillDir =>
           readSkill fs p domain category skillDir)).
  assert (Hp : forall l, pushes (loop l)
                 (flat_map (fun skillDir =>
                    match readFile fs
                            (skillFile skillsDir (domain, category, skillDir))
                    with
                    | ReadOk content =>
                        [storedSkill domain category skillDir content]
                    | ReadFailed _ => []
                    end) l)).
  { intros l. apply pushes_forEach. intros skillDir. apply pushes_readSkill. }
  assert (Hr : forall l, returns (loop l)).
  { intros l. apply returns_forEach. intros skillDir. apply returns_readSkill. }
  intros skills. unfold stops, raises, categorySkills, bind, getDirectories,
    subdirectories.
  cbn [flat_map upTo existsb fst snd app]. fold p.
  destruct (readdir fs p) as [[] | entries]; cbn [ret throw orb];
    rewrite ?app_nil_r; auto.
  - unfold loop. cbn [forEach ret]. auto.
  - specialize (Hp (List.map dname (List.filter isDirectory entries)) skills).
    destruct (Hr (List.map dname (List.filter isDirectory entries)) skills)
      as [skills' [a E]].
    fold (loop (List.map dname (List.filter isDirectory entries))).
    rewrite E in Hp |- *. auto.
Qed.

Lemma runs_traversal :
  runs fs
    (bind (getDirectories fs skillsDir) (fun domains =>
     forEach domains (fun domain =>
       let domainPath := skillsDir ++ [domain] in
       bind (getDirectories fs domainPath) (fun categories =>
       forEach categories (fun category =>
         let categoryPath := domainPath ++ [category] in
         bind (getDirectories fs categoryPath) (fun skillDirs =>
         forEach skillDirs (fun skillDir =>
           readSkill fs categoryPath domain category skillDir)))))))
    (visits fs).
Proof.
  unfold visits. apply runs_getDirectories. intros _.
  apply runs_forEach. intros domain. cbv zeta.
  apply runs_getDirectories. intros _.
  replace (List.map
             (fun category =>
                (skillsDir ++ [domain; category],
                 categorySkills fs domain category))
             (subdirectories fs (skillsDir ++ [domain])))
    with (flat_map
            (fun category =>
               [(skillsDir ++ [domain; category],
                 categorySkills fs domain category)])
            (subdirectories fs (skillsDir ++ [domain])))
    by (induction (subdirectories fs (skillsDir ++ [domain])) as [|c l IH];
        [reflexivity | cbn [flat_map List.map app]; rewrite IH; reflexivity]).
  apply runs_forEach. intros category.
  replace ((skillsDir ++ [domain]) ++ [category])
    with (skillsDir ++ [domain; category])
    by (rewrite <- app_assoc; reflexivity).
  apply runs_category.
Qed.

Lemma getAllSkills_before :
  getAllSkills fs =
  if mkdirFails fs then []
  else flat_map snd (upTo (stops fs) (visits fs)).
Proof.
  unfold getAllSkills.
  match goal with
  | |- context [bind (ensureDirectory fs skillsDir) ?k] => set (K := k)
  end.
  assert (H : runs fs (K tt) (visits fs)) by exact runs_traversal.
  specialize (H []).
  assert (Hbody : fst (K tt []) =
                  flat_map snd (upTo (stops fs) (visits fs))).
  { destruct (K tt []) as [skills' [e | a]]; destruct H as [-> He];
      cbn [fst app]; [reflexivity |].
    rewrite (upTo_all _ _ He). reflexivity. }
  unfold mkdirFails, ensureDirectory, bind.
  destruct (mkdir fs skillsDir) as [[] |]; cbn [ret throw fst];
    first [reflexivity | exact Hbody].
Qed.

Lemma visits_readable : flat_map snd (visits fs) = readableSkills fs.
Proof.
  unfold visits, readableSkills, skillDirectories. cbn [flat_map snd app].
  rewrite !flat_map_flat_map. apply flat_map_ext. intros domain.
  cbn [flat_map snd app]. rewrite flat_map_map, flat_map_flat_map.
  apply flat_map_ext. intros category. cbn [snd].
  rewrite flat_map_map. reflexivity.
Qed.

End UntilError.

(** X13: [getAllSkills] lists the skills directory, then every domain and,
    after each domain, its categories, and reads the skill files of a
    category once it is listed.  It returns the skills read before the
    first listing that throws an error other than a missing directory, all
    the readable skills when no listing does, and nothing when [mkdir]
    throws an error other than an existing directory. *)
Theorem getAllSkills_readable (fs : Files) :
  ManagerFiles.getAllSkills fs =
    (if mkdirFails fs then []
     else flat_map snd (upTo (stops fs) (visits fs))) /\
  flat_map snd (visits fs) = readableSkills fs /\
  (quiet fs -> ManagerFiles.getAllSkills fs = readableSkills fs).
Proof.
  split; [exact (getAllSkills_before fs) |].
  split; [exact (visits_readable fs) | exact (getAllSkills_quiet fs)].
Qed.

Lemma exampleDisk_quiet : quiet exampleDisk.
Proof.
  split; [discriminate |]. intros p e. cbn [readdir exampleDisk].
  unfold exampleListing. repeat destruct (bool_decide _); congruence.
Qed.

Lemma getAllSkills_readable_witness :
  ManagerFiles.getAllSkills exampleDisk = readableSkills exampleDisk /\
  ManagerFiles.getAllSkills lockedDisk =
    [storedSkill "ohif" "anti-patterns" "avoiding-direct-state"
       (buildSkillContent avoidSkill reviewSource)].
Proof.
  split.
  - apply (getAllSkills_readable exampleDisk). exact exampleDisk_quiet.
  - rewrite (proj1 (getAllSkills_readable lockedDisk)).
    change (mkdirFails lockedDisk) with false. cbv iota.
    replace (upTo (stops lockedDisk) (visits lockedDisk))
      with [(skillsDir, @nil Skill);
            (skillsDir ++ ["ohif" : jsstring], @nil Skill);
            (skillsDir ++ ["ohif" : jsstring; "anti-patterns" : jsstring],
             categorySkills lockedDisk "ohif" "anti-patterns")].
    + cbn [flat_map snd app]. rewrite app_nil_r. unfold categorySkills.
      replace (subdirectories lockedDisk _)
        with ["avoiding-direct-state" : jsstring; "draft" : jsstring]
        by (vm_compute; reflexivity).
      cbn [flat_map].
      replace (readFile lockedDisk
                 (skillFile skillsDir
                    ("ohif" : jsstring, "anti-patterns" : jsstring,
                     "avoiding-direct-state" : jsstring)))
        with (ReadOk (buildSkillContent avoidSkill reviewSource))
        by (vm_compute; reflexivity).
      replace (readFile lockedDisk
                 (skillFile skillsDir
                    ("ohif" : jsstring, "anti-patterns" : jsstring,
                     "draft" : jsstring)))
        with (ReadFailed "ENOENT: no such file or directory")
        by (vm_compute; reflexivity).
      reflexivity.
    + unfold visits.
      replace (subdirectories lockedDisk skillsDir)
        with ["ohif" : jsstring; "private" : jsstring]
        by (vm_compute; reflexivity).
      cbn [flat_map].
      replace (subdirectories lockedDisk (skillsDir ++ ["ohif" : jsstring]))
        with ["anti-patterns" : jsstring] by (vm_compute; reflexivity).
      replace (subdirectories lockedDisk (skillsDir ++ ["private" : jsstring]))
        with (@nil jsstring) by (vm_compute; reflexivity).
      cbn [List.map app upTo]. unfold stops. cbn [fst].
      replace (raises lockedDisk skillsDir) with false
        by (vm_compute; reflexivity).
      replace (raises lockedDisk (skillsDir ++ ["ohif" : jsstring]))
        with false by (vm_compute; reflexivity).
      replace (raises lockedDisk
                 (skillsDir ++ ["ohif" : jsstring; "anti-patterns" : jsstring]))
        with false by (vm_compute; reflexivity).
      replace (raises lockedDisk (skillsDir ++ ["private" : jsstring]))
        with true by (vm_compute; reflexivity).
      reflexivity.
Defined.

(** ** The reports of the validator *)

Section Reports.

Import ValidatorFiles.

Variable fs : Files.

Lemma validateAllSkills_directories (root : fspath) :
  validateAllSkills fs root =
  List.map (fun d => MkReport (skillFile root d)
                       (validateSkill (readFile fs (skillFile root d))))
    (skillDirectories fs root).
Proof.
  unfold validateAllSkills, skillDirectories.
  change (getDirectories fs) with (subdirectories fs).
  induction (subdirectories fs root) as [|domain l IH]; [reflexivity |].
  cbn [flat_map]. rewrite List.map_app, IH. f_equal.
  induction (subdirectories fs (root ++ [domain])) as [|category l' IH'];
    [reflexivity |].
  cbn [flat_map]. rewrite List.map_app, IH'. f_equal.
  replace ((root ++ [domain]) ++ [category]) with (root ++ [domain; category])
    by (rewrite <- app_assoc; reflexivity).
  rewrite List.map_map. apply map_ext. intros skillDir. unfold skillFile.
  replace ((root ++ [domain; category]) ++ [skillDir; lit "SKILL.md"])
    with (root ++ [domain; category; skillDir; lit "SKILL.md"])
    by (rewrite <- app_assoc; reflexivity).
  reflexivity.
Qed.

Lemma readableSkills_paths :
  sublist (List.map path (readableSkills fs))
    (List.map (skillFile skillsDir) (skillDirectories fs skillsDir)).
Proof.
  unfold readableSkills.
  induction (skillDirectories fs skillsDir) as [|[[domain category] skillDir] l IH];
    [constructor |].
  cbn [flat_map List.map].
  destruct (readFile fs _); cbn [app List.map].
  - apply sublist_skip. exact IH.
  - apply sublist_cons. exact IH.
Qed.

End Reports.

(** X14: [validateAllSkills] reports once on every skill directory, in the
    order of the listings, a directory whose skill file cannot be read
    getting an invalid report with the one issue FILE_ERROR; the files of
    the skills that [getAllSkills] returns are among the reported paths, in
    the same order. *)
Theorem validateAllSkills_reports (fs : Files) :
  (forall root,
     List.map ValidatorFiles.rpath
       (ValidatorFiles.validateAllSkills fs root) =
     List.map (skillFile root) (skillDirectories fs root)) /\
  (forall root r message,
     In r (ValidatorFiles.validateAllSkills fs root) ->
     readFile fs (ValidatorFiles.rpath r) = ReadFailed message ->
     valid (ValidatorFiles.result r) = false /\
     List.map icode (issues (ValidatorFiles.result r)) =
       ["FILE_ERROR" : jsstring]) /\
  sublist (List.map path (ManagerFiles.getAllSkills fs))
    (List.map ValidatorFiles.rpath
       (ValidatorFiles.validateAllSkills fs skillsDir)).
Proof.
  assert (Hp : forall root,
             List.map ValidatorFiles.rpath
               (ValidatorFiles.validateAllSkills fs root) =
             List.map (skillFile root) (skillDirectories fs root)).
  { intros root. rewrite validateAllSkills_directories, List.map_map.
    reflexivity. }
  split; [exact Hp |]. split.
  - intros root r message Hin Hread.
    rewrite validateAllSkills_directories in Hin.
    apply in_map_iff in Hin as [d [<- _]].
    cbn [ValidatorFiles.rpath ValidatorFiles.result] in *.
    rewrite Hread. split; reflexivity.
  - rewrite Hp.
    destruct (getAllSkills_prefix fs) as [rest Hrest].
    etransitivity; [| apply readableSkills_paths].
    rewrite Hrest, List.map_app. apply sublist_inserts_r. reflexivity.
Qed.

Lemma validateAllSkills_reports_witness :
  exists r,
    In r (ValidatorFiles.validateAllSkills exampleDisk skillsDir) /\
    ValidatorFiles.rpath r =
      skillsDir ++ ["ohif" : jsstring; "anti-patterns" : jsstring;
                    "draft" : jsstring; "SKILL.md" : jsstring] /\
    valid (ValidatorFiles.result r) = false /\
    List.map icode (issues (ValidatorFiles.result r)) =
      ["FILE_ERROR" : jsstring].
Proof.
  set (d := ("ohif" : jsstring, "anti-patterns" : jsstring, "draft" : jsstring)).
  set (r := ValidatorFiles.MkReport (skillFile skillsDir d)
              (validateSkill (readFile exampleDisk (skillFile skillsDir d)))).
  assert (Hin : In r (ValidatorFiles.validateAllSkills exampleDisk skillsDir)).
  { rewrite validateAllSkills_directories. apply in_map_iff. exists d.
    split; [reflexivity |]. vm_compute. right. left. reflexivity. }
  exists r. split; [exact Hin |]. split; [reflexivity |].
  apply (proj1 (proj2 (validateAllSkills_reports exampleDisk)) skillsDir r
           "ENOENT: no such file or directory" Hin).
  reflexivity.
Defined.

(** ** Merging into a skill read from disk *)

Lemma getAllSkills_stored (fs : Files) (e : Skill) :
  In e (ManagerFiles.getAllSkills fs) ->
  exists domain category skillDir content,
    readFile fs (skillsDir ++ [domain; category; skillDir;
                               "SKILL.md" : jsstring]) = ReadOk content /\
    e = storedSkill domain category skillDir content.
Proof.
  intros Hin. destruct (getAllSkills_prefix fs) as [rest Hrest].
  assert (Hr : In e (readableSkills fs))
    by (rewrite Hrest; apply in_or_app; now left).
  unfold readableSkills in Hr. apply in_flat_map in Hr as [d [_ Hd]].
  destruct d as [[domain category] skillDir]. unfold skillFile in Hd.
  destruct (readFile fs _) as [content |] eqn:E; [| destruct Hd].
  destruct Hd as [<- | []]. exists domain, category, skillDir, content. auto.
Qed.

(** X15: when the skill that a new one is merged into was read from disk,
    the document written for the merged skill has the frontmatter, the
    title, the two instructions made concise and the metadata of the
    incoming source only: it has no category section and no examples,
    whatever the new skill holds, and it names no additional source. *)
Theorem mergeSkills_stored_document (fs : Files) (existing newSkill : Skill)
    (sourceInfo : option SourceInfo) :
  In existing (ManagerFiles.getAllSkills fs) ->
  let merged := mergeSkills existing newSkill in
  sources merged = Some [sourceEntry (source newSkill)] /\
  buildSkillContent merged sourceInfo =
    "---" ++ LF ++
    "name: " ++
      normalizeSkillName (orElse (skillName existing) (title existing)) ++ LF ++
    "description: " ++ enhanceDescription merged ++ LF ++
    "---" ++ LF ++ LF ++
    "# " ++ title existing ++ LF ++ LF ++
    "## Instructions" ++ LF ++ LF ++
    makeConcise (instructions existing ++ LF ++ LF ++ "---" ++ LF ++ LF ++
                 instructions newSkill) ++ LF ++ LF ++
    LF ++ "<!--" ++ LF ++
    "Source Metadata (not visible to Claude):" ++ LF ++
    sourceLines sourceInfo ++
    "-->" ++ LF.
Proof.
  intros Hin merged.
  destruct (getAllSkills_stored fs existing Hin)
    as (dom & cat & dir & content & _ & ->).
  split; [reflexivity |].
  unfold buildSkillContent, categorySection, examplesSection.
  subst merged. cbn [mergeSkills storedSkill parseSkillFile antiPattern
    bestPractice badExample goodExample sources title instructions category
    optList app length].
  cbn [isEmpty negb andb orb]. rewrite !andb_false_r. cbn [Nat.ltb Nat.leb].
  rewrite <- !app_assoc. reflexivity.
Qed.

Lemma mergeSkills_stored_document_witness :
  sources (mergeSkills
             (storedSkill "ohif" "anti-patterns" "avoiding-direct-state"
                (buildSkillContent avoidSkill reviewSource))
             longExampleSkill) =
  Some [sourceEntry (source longExampleSkill)].
Proof.
  apply (mergeSkills_stored_document exampleDisk _ longExampleSkill None).
  rewrite (getAllSkills_quiet exampleDisk exampleDisk_quiet).
  unfold readableSkills.
  replace (skillDirectories exampleDisk skillsDir)
    with [("ohif" : jsstring, "anti-patterns" : jsstring,
           "avoiding-direct-state" : jsstring);
          ("ohif" : jsstring, "anti-patterns" : jsstring, "draft" : jsstring)]
    by (vm_compute; reflexivity).
  cbn [flat_map].
  replace (readFile exampleDisk
             (skillFile skillsDir
                ("ohif" : jsstring, "anti-patterns" : jsstring,
                 "avoiding-direct-state" : jsstring)))
    with (ReadOk (buildSkillContent avoidSkill reviewSource))
    by (vm_compute; reflexivity).
  left. reflexivity.
Defined.

(** ** Reading a skill file back *)

(** *** Searching for a pattern that starts with a text *)

Lemma matchAt_Str_none (key : jsstring) (r : regex) (bef aft : jsstring) :
  startsWith key aft = false ->
  matchAt plain (Seq (Str key) r) (Pos bef aft) = None.
Proof.
  intros H. unfold matchAt.
  rewrite run_Seq, (run_Str plain eq_refl), H. reflexivity.
Qed.

Lemma matchAt_Str_noneM (key : jsstring) (r : regex) (bef aft : jsstring) :
  startsWith key aft = false ->
  matchAt flagM (Seq (Str key) r) (Pos bef aft) = None.
Proof.
  intros H. unfold matchAt.
  rewrite run_Seq, (run_Str flagM eq_refl), H. reflexivity.
Qed.

Lemma search_skip_char (p0 : ascii) (key : jsstring) (r : regex)
    (a : jsstring) :
  forall bef rest,
    Forall (fun c => Ascii.eqb p0 c = false) a ->
    search plain (Seq (Str (p0 :: key)) r) bef (a ++ rest) =
    search plain (Seq (Str (p0 :: key)) r) (rev a ++ bef) rest.
Proof.
  induction a as [|c a IH]; intros bef rest Ha; [reflexivity |].
  inversion Ha as [|? ? Hc Ha']; subst. cbn [app rev].
  rewrite search_next.
  - rewrite IH by exact Ha'. rewrite <- app_assoc. reflexivity.
  - apply matchAt_Str_none. cbn [startsWith]. rewrite Hc. reflexivity.
Qed.

(** A key that holds a character which the text lacks does not start
    before the end of the line. *)
Lemma startsWith_stop (P : ascii -> Prop) (sep t : ascii) (k1 : jsstring) :
  (forall c, P c -> Ascii.eqb sep c = false) ->
  Ascii.eqb sep t = false ->
  Forall (fun c => Ascii.eqb c t = false) k1 ->
  forall k2 n rest,
    Forall P n ->
    startsWith (k1 ++ sep :: k2) (n ++ t :: rest) = false.
Proof.
  intros HP Hsep Hk1. induction Hk1 as [|y k1 Hy Hk1 IH]; intros k2 n rest Hn.
  - destruct Hn as [|c n Hc Hn]; cbn [app startsWith].
    + rewrite Hsep. reflexivity.
    + rewrite (HP c Hc). reflexivity.
  - destruct Hn as [|c n Hc Hn]; cbn [app startsWith].
    + rewrite Hy. reflexivity.
    + rewrite (IH k2 n rest Hn). apply andb_false_r.
Qed.

Lemma search_skip_line (P : ascii -> Prop) (sep t : ascii) (k1 k2 : jsstring)
    (r : regex) :
  (forall c, P c -> Ascii.eqb sep c = false) ->
  Ascii.eqb sep t = false ->
  Forall (fun c => Ascii.eqb c t = false) k1 ->
  forall n bef rest,
    Forall P n ->
    search plain (Seq (Str (k1 ++ sep :: k2)) r) bef (n ++ t :: rest) =
    search plain (Seq (Str (k1 ++ sep :: k2)) r) (t :: rev n ++ bef) rest.
Proof.
  intros HP Hsep Hk1 n. induction n as [|c n IH]; intros bef rest Hn.
  - cbn [app rev]. apply search_next, matchAt_Str_none.
    apply (startsWith_stop P sep t k1 HP Hsep Hk1 k2 [] rest). constructor.
  - cbn [app rev]. rewrite search_next.
    + inversion Hn as [|? ? Hc Hn']; subst. rewrite IH by exact Hn'.
      rewrite <- app_assoc. reflexivity.
    + apply matchAt_Str_none.
      apply (startsWith_stop P sep t k1 HP Hsep Hk1 k2 (c :: n) rest Hn).
Qed.

(** *** The two fields of the frontmatter *)

Lemma run_dots (fl : flags) (bef v t : jsstring) (v0 : ascii) (cs : caps) :
  isLineTerminator v0 = false ->
  Forall (fun c => isLineTerminator c = false) v ->
  endsLine t = true ->
  run fl (Group 1 (Plus dot)) (Pos bef (v0 :: v ++ t)) cs finish =
  Some (Pos (rev v ++ v0 :: bef) t, (1, v0 :: v) :: cs).
Proof.
  intros Hv0 Hv Ht. rewrite run_Group. unfold Plus, dot.
  rewrite run_Seq, run_Cls. unfold step. cbn [after before].
  rewrite Hv0. cbn [negb]. rewrite run_greedy_cls.
  apply greedyScan_reach.
  - eapply List.Forall_impl; [| exact Hv]. intros c Hc. cbn beta.
    rewrite Hc. reflexivity.
  - rewrite greedyScan_stop.
    + change (v0 :: v ++ t) with ((v0 :: v) ++ t). rewrite consumed_app.
      reflexivity.
    + destruct t as [|c t]; [reflexivity |]. cbn [endsLine] in Ht.
      rewrite Ht. reflexivity.
Qed.

Lemma run_yamlTail_value (fl : flags) (bef w v t : jsstring) (v0 : ascii) :
  Forall (fun c => isWhiteSpace c = true) w ->
  isWhiteSpace v0 = false ->
  Forall (fun c => isLineTerminator c = false) v ->
  endsLine t = true ->
  run fl yamlTail (Pos bef (w ++ v0 :: v ++ t)) [] finish =
  Some (Pos (rev v ++ v0 :: rev w ++ bef) t, [(1, v0 :: v)]).
Proof.
  intros Hw Hv0 Hv Ht. unfold yamlTail, space. cbn [seqs].
  rewrite run_Seq, run_greedy_cls.
  apply greedyScan_reach; [exact Hw |].
  rewrite greedyScan_stop by (rewrite Hv0; reflexivity).
  apply run_dots; auto using whitespace_not_terminator.
Qed.

Lemma run_yamlTail_blank (fl : flags) (bef w : jsstring) (c : ascii) :
  Forall (fun c => isWhiteSpace c = true) w ->
  isWhiteSpace c = true ->
  isLineTerminator c = false ->
  run fl yamlTail (Pos bef (w ++ [c])) [] finish =
  Some (Pos (c :: rev w ++ bef) [], [(1, [c])]).
Proof.
  intros Hw Hc Hlt. unfold yamlTail, space. cbn [seqs].
  rewrite run_Seq, run_greedy_cls.
  apply greedyScan_reach; [exact Hw |].
  cbn [greedyScan]. rewrite Hc.
  replace (run fl (Group 1 (Plus dot)) (Pos (c :: rev w ++ bef) []) [] finish)
    with (@None (pos * caps)) by reflexivity.
  apply (run_dots fl (rev w ++ bef) [] [] c [] Hlt); auto.
Qed.

(** What [\s*(.+)] captures in the rest of a line that ends the text: the
    line without the white space before it, up to white space at its end. *)
Lemma yamlTail_line (fl : flags) (bef d : jsstring) :
  oneLine d ->
  exists p' g,
    run fl yamlTail (Pos bef (" " ++ d)) [] finish = Some (p', [(1, g)]) /\
    trim g = trim d.
Proof.
  intros Hd.
  destruct (trimStart_split (" " ++ d)) as [w [Ew Hw]].
  pose proof (trimStart_head (" " ++ d)) as Hhead.
  assert (Htrim : trimStart (" " ++ d) = trimStart d) by reflexivity.
  rewrite Htrim in *. clear Htrim.
  destruct (trimStart d) as [|v0 v] eqn:Ev.
  - rewrite app_nil_r in Ew.
    destruct (exists_last (l := w)) as [w' [c Ewc]].
    { rewrite <- Ew. discriminate. }
    rewrite Ewc in Ew, Hw. clear w Ewc. apply Forall_app in Hw as [Hw' Hc].
    inversion Hc as [|? ? Hc' _]; subst.
    assert (Hlt : isLineTerminator c = false).
    { assert (Hin : In c (" " ++ d))
        by (rewrite Ew; apply in_or_app; right; left; reflexivity).
      destruct Hin as [<- | Hin]; [reflexivity |].
      unfold oneLine in Hd. rewrite List.Forall_forall in Hd. apply Hd, Hin. }
    eexists _, [c]. rewrite Ew. split.
    + apply run_yamlTail_blank; auto.
    + unfold trim. rewrite Ev. unfold trimEnd. cbn [rev app trimStart].
      rewrite Hc'. reflexivity.
  - cbn [negb] in Hhead. apply negb_true_iff in Hhead.
    assert (Hv : Forall (fun c => isLineTerminator c = false) v).
    { assert (Hsub : forall c, In c (v0 :: v) -> In c (" " ++ d)).
      { intros c Hc. rewrite Ew. apply in_or_app. right. exact Hc. }
      apply List.Forall_forall. intros c Hc.
      destruct (Hsub c (or_intror Hc)) as [<- | Hin]; [reflexivity |].
      unfold oneLine in Hd. rewrite List.Forall_forall in Hd. apply Hd, Hin. }
    eexists _, (v0 :: v). rewrite Ew. split.
    + replace (w ++ v0 :: v) with (w ++ v0 :: v ++ [])
        by (rewrite app_nil_r; reflexivity).
      apply run_yamlTail_value; auto.
    + unfold trim. rewrite Ev, trimStart_id by exact Hhead. reflexivity.
Qed.

Lemma colon_not_nameChar (c : ascii) :
  nameChar c = true -> Ascii.eqb ":" c = false.
Proof. each_char c. Qed.

(** The fields read from the frontmatter that [buildSkillContent] writes. *)
Lemma yaml_fields (N D : jsstring) :
  Forall (fun c => nameChar c = true) N ->
  oneLine D ->
  let yaml := "name: " ++ N ++ LF ++ "description: " ++ D in
  (N <> [] -> trimmedGroup (exec plain (yamlFieldRe "name:") yaml) = N) /\
  trimmedGroup (exec plain (yamlFieldRe "description:") yaml) = trim D.
Proof.
  intros HN HD yaml. subst yaml. split.
  - intros Hne. destruct N as [|n0 N]; [congruence |].
    inversion HN as [|? ? Hn0 HN']; subst.
    unfold exec.
    assert (Hrun : run plain (yamlFieldRe "name:")
                     (Pos [] ("name: " ++ (n0 :: N) ++ LF ++ "description: " ++ D))
                     [] finish =
                   Some (Pos (rev N ++ n0 :: rev " " ++ rev "name:" ++ [])
                           (LF ++ "description: " ++ D), [(1, n0 :: N)])).
    { unfold yamlFieldRe. cbn [seqs].
      rewrite run_Seq, (run_Str plain eq_refl).
      change ("name: " ++ (n0 :: N) ++ LF ++ "description: " ++ D)
        with ("name:" ++ " " ++ n0 :: N ++ (LF ++ "description: " ++ D)).
      rewrite startsWith_app, skipn_length_app.
      apply (run_yamlTail_value plain); auto.
      - repeat constructor.
      - apply nameChar_not_space, Hn0.
      - apply nameChar_terminator_list, HN'. }
    destruct (matchAt_group _ _ _ _ _ Hrun) as [m [Hm Hg]].
    rewrite (search_here _ _ _ _ _ Hm). unfold trimmedGroup, group.
    rewrite Hg. cbn [lookupGroup Nat.eqb]. apply trim_id.
    eapply List.Forall_impl; [| exact HN]. apply nameChar_not_space.
  - unfold exec, yamlFieldRe. cbn [seqs].
    change ("name: " ++ N ++ LF ++ "description: " ++ D)
      with ("name: " ++ (N ++ LF ++ "description: " ++ D)).
    rewrite (search_skip_char "d" "escription:") by (repeat constructor).
    change (lit "description:") with ("description" ++ ":"%char :: []).
    change (N ++ LF ++ "description: " ++ D)
      with (N ++ ascii_of_nat 10 :: ("description: " ++ D)).
    rewrite (search_skip_line (fun c => nameChar c = true) ":" (ascii_of_nat 10)
               "description" [] _ colon_not_nameChar eq_refl)
      by (repeat constructor || exact HN).
    destruct (yamlTail_line plain
                (rev "description:" ++ ascii_of_nat 10 :: rev N ++ rev "name: " ++ [])
                D HD) as [p' [g [Hrun Hg]]].
    assert (Hrun' : run plain
              (Seq (Str ("description" ++ [":"%char]))
                 (Seq (Star true space) (Group 1 (Plus dot))))
              (Pos (ascii_of_nat 10 :: rev N ++ rev "name: " ++ [])
                 ("description: " ++ D)) [] finish = Some (p', [(1, g)])).
    { rewrite run_Seq, (run_Str plain eq_refl).
      change ("description: " ++ D) with ("description:" ++ " " ++ D).
      change ("description" ++ [":"%char]) with (lit "description:").
      rewrite startsWith_app, skipn_length_app. exact Hrun. }
    destruct (matchAt_group _ _ _ _ _ Hrun') as [m [Hm Hgm]].
    rewrite (search_here _ _ _ _ _ Hm). unfold trimmedGroup, group.
    rewrite Hgm. cbn [lookupGroup Nat.eqb]. exact Hg.
Qed.

(** *** The title *)

Lemma titleRe_none (bef aft : jsstring) (x : ascii) :
  Ascii.eqb x "#" = false ->
  matchAt flagM titleRe (Pos bef (x :: aft)) = None.
Proof.
  intros Hx. unfold matchAt, titleRe. cbn [seqs].
  rewrite run_Seq, run_Bol. destruct (atLineStart flagM _); [| reflexivity].
  rewrite run_Seq. cbn [run]. unfold step, canon. cbn [after ignoreCase flagM].
  rewrite Hx. reflexivity.
Qed.

Lemma search_title_line (x : ascii) (l bef b : jsstring) :
  Ascii.eqb x "#" = false ->
  isLineTerminator x = false ->
  oneLine l ->
  search flagM titleRe bef (x :: l ++ LF ++ b) =
  search flagM titleRe (ascii_of_nat 10 :: rev l ++ x :: bef) b.
Proof.
  intros Hx Hlt Hl. rewrite search_next by (apply titleRe_none, Hx).
  unfold titleRe. cbn [seqs].
  apply (search_inside_line _ l bef x (ascii_of_nat 10) b Hlt Hl).
Qed.

Lemma search_title_blank (bef b : jsstring) :
  search flagM titleRe bef (LF ++ b) =
  search flagM titleRe (ascii_of_nat 10 :: bef) b.
Proof. apply search_next, titleRe_none. reflexivity. Qed.

Lemma titleRe_here (bef T t : jsstring) (v0 : ascii) (v : jsstring) :
  atLineStart flagM (Pos bef []) = true ->
  oneLine T ->
  trimStart T = v0 :: v ->
  endsLine t = true ->
  exists m,
    matchAt flagM titleRe (Pos bef ("# " ++ T ++ t)) = Some m /\
    group 1 m = v0 :: v.
Proof.
  intros Hb HT Ev Ht.
  destruct (trimStart_split T) as [w [Ew Hw]]. rewrite Ev in Ew.
  pose proof (trimStart_head T) as Hhead. rewrite Ev in Hhead.
  apply negb_true_iff in Hhead.
  assert (Hv : Forall (fun c => isLineTerminator c = false) v).
  { unfold oneLine in HT. rewrite Ew in HT. apply Forall_app in HT as [_ HT].
    inversion HT; assumption. }
  assert (Hrun : run flagM titleRe (Pos bef ("# " ++ T ++ t)) [] finish =
                 Some (Pos (rev v ++ v0 :: rev w ++ " " ++ "#" ++ bef) t,
                       [(1, v0 :: v)])).
  { unfold titleRe. cbn [seqs]. rewrite run_Seq, run_Bol.
    replace (atLineStart flagM (Pos bef ("# " ++ T ++ t))) with true
      by (symmetry; exact Hb).
    rewrite run_Seq. cbn [run]. unfold step at 1. unfold canon.
    cbn [after app lit list_ascii_of_string ignoreCase flagM].
    change (Ascii.eqb "#" "#") with true. cbv iota. cbn [before].
    unfold Plus at 1. rewrite !run_Seq. unfold space at 1.
    rewrite run_Cls. unfold step. cbn [after before].
    change (isWhiteSpace " ") with true. cbv iota.
    rewrite Ew, <- app_assoc. cbn [app].
    pose proof (run_fieldTail_value (" "%char :: "#"%char :: bef) w v t v0 []
                  finish _ Hw Hhead Hv Ht eq_refl) as Hf.
    unfold fieldTail in Hf. cbn [seqs] in Hf. rewrite run_Seq in Hf.
    exact Hf. }
  destruct (matchAt_group _ _ _ _ _ Hrun) as [m [Hm Hg]].
  exists m. split; [exact Hm |]. unfold group. rewrite Hg. reflexivity.
Qed.

Lemma trim_trimStart (s : jsstring) : trim (trimStart s) = trim s.
Proof.
  unfold trim. f_equal. pose proof (trimStart_head s) as H.
  destruct (trimStart s) as [|c t]; [reflexivity |].
  apply negb_true_iff in H. apply trimStart_id, H.
Qed.

Lemma hash_not_nameChar (c : ascii) :
  nameChar c = true -> isChar 35 c = false.
Proof. each_char c. Qed.

(** The title read from a document that starts as [buildSkillContent]
    writes it. *)
Lemma title_of_document (N D T rest : jsstring) :
  Forall (fun c => nameChar c = true) N ->
  oneLine D ->
  oneLine T ->
  trim T <> [] ->
  trimmedGroup
    (exec flagM titleRe
       ("---" ++ LF ++ "name: " ++ N ++ LF ++ "description: " ++ D ++ LF ++
        "---" ++ LF ++ LF ++ "# " ++ T ++ LF ++ rest)) = trim T.
Proof.
  intros HN HD HT Hne. unfold exec.
  change ("---" ++ LF ++ "name: " ++ N ++ LF ++ "description: " ++ D ++ LF ++
          "---" ++ LF ++ LF ++ "# " ++ T ++ LF ++ rest)
    with ("-"%char :: "--" ++ LF ++
          ("n"%char :: ("ame: " ++ N) ++ LF ++
           ("d"%char :: ("escription: " ++ D) ++ LF ++
            ("-"%char :: "--" ++ LF ++
             (LF ++ ("# " ++ T ++ (LF ++ rest))))))).
  rewrite search_title_line by first [reflexivity | repeat constructor].
  rewrite search_title_line;
    [| reflexivity | reflexivity |
     apply Forall_app; split;
       [repeat constructor | apply nameChar_terminator_list, HN]].
  rewrite search_title_line;
    [| reflexivity | reflexivity |
     apply Forall_app; split; [repeat constructor | exact HD]].
  rewrite search_title_line by first [reflexivity | repeat constructor].
  rewrite search_title_blank.
  destruct (trimStart T) as [|v0 v] eqn:Ev.
  { exfalso. apply Hne. unfold trim. rewrite Ev. reflexivity. }
  match goal with |- context [search flagM titleRe ?b _] =>
    destruct (titleRe_here b T (LF ++ rest) v0 v eq_refl HT Ev eq_refl)
      as [m [Hm Hg]] end.
  rewrite (search_here _ _ _ _ _ Hm). unfold trimmedGroup. rewrite Hg.
  rewrite <- Ev. apply trim_trimStart.
Qed.

(** *** The instructions *)

Lemma run_instructionsEnd (bef s : jsstring) (cs : caps) :
  match run plain instructionsEnd (Pos bef s) cs finish with
  | Some _ => true
  | None => false
  end = ahead s.
Proof.
  unfold instructionsEnd, ahead. cbn [run].
  change (run plain (Str (LF ++ "## ")) (Pos bef s) cs finish)
    with (run plain (Str (LF ++ "## ")) (Pos bef s) cs finish).
  rewrite (run_Str plain eq_refl).
  destruct (startsWith (LF ++ "## ") s); [reflexivity |].
  destruct s; reflexivity.
Qed.

Lemma lazyScan_ahead (F : pos -> nat * jsstring) (aft : jsstring) :
  forall bef cs,
    lazyScan
      (fun p' cs' =>
         match run plain instructionsEnd p' (F p' :: cs') finish with
         | Some _ => Some (p', F p' :: cs')
         | None => None
         end) bef aft cs =
    let p' := Pos (rev (beforeAhead aft) ++ bef)
                (skipn (length (beforeAhead aft)) aft) in
    Some (p', F p' :: cs).
Proof.
  induction aft as [|c aft IH]; intros bef cs.
  - reflexivity.
  - cbn [lazyScan beforeAhead].
    pose proof (run_instructionsEnd bef (c :: aft)
                  (F (Pos bef (c :: aft)) :: cs)) as Ha.
    destruct (run plain instructionsEnd (Pos bef (c :: aft)) _ finish).
    + rewrite <- Ha. reflexivity.
    + rewrite <- Ha. rewrite IH. cbn [length skipn rev].
      rewrite <- app_assoc. reflexivity.
Qed.

Lemma beforeAhead_prefix (s : jsstring) :
  s = beforeAhead s ++ skipn (length (beforeAhead s)) s.
Proof.
  induction s as [|c s IH]; [reflexivity |].
  cbn [beforeAhead]. destruct (ahead (c :: s)); [reflexivity |].
  cbn [length skipn app]. f_equal. exact IH.
Qed.

Lemma matchAtAhead_none (key : jsstring) (r a : regex) (bef aft : jsstring) :
  startsWith key aft = false ->
  matchAtAhead plain (Seq (Str key) r) a (Pos bef aft) = None.
Proof.
  intros H. unfold matchAtAhead.
  rewrite run_Seq, (run_Str plain eq_refl), H. reflexivity.
Qed.

Lemma searchAhead_skip (p0 : ascii) (key : jsstring) (r a : regex)
    (s : jsstring) :
  forall bef rest,
    Forall (fun c => Ascii.eqb p0 c = false) s ->
    searchAhead plain (Seq (Str (p0 :: key)) r) a bef (s ++ rest) =
    searchAhead plain (Seq (Str (p0 :: key)) r) a (rev s ++ bef) rest.
Proof.
  induction s as [|c s IH]; intros bef rest Hs; [reflexivity |].
  inversion Hs as [|? ? Hc Hs']; subst. cbn [app rev searchAhead].
  rewrite matchAtAhead_none by (cbn [startsWith]; rewrite Hc; reflexivity).
  rewrite IH by exact Hs'. rewrite <- app_assoc. reflexivity.
Qed.

Lemma instructions_here (bef R : jsstring) :
  exists m,
    matchAtAhead plain instructionsRe instructionsEnd
      (Pos bef (("## Instructions" ++ LF) ++ R)) = Some m /\
    group 1 m = beforeAhead R.
Proof.
  unfold matchAtAhead, instructionsRe. cbn [seqs].
  rewrite run_Seq, (run_Str plain eq_refl), startsWith_app, skipn_length_app.
  rewrite run_Group, run_lazy_any.
  rewrite (lazyScan_ahead
             (fun p' => (1, consumed
                              (Pos (rev ("## Instructions" ++ LF) ++ bef) R) p'))).
  cbv zeta. eexists. split; [reflexivity |].
  unfold group. cbn [groups lookupGroup Nat.eqb].
  pose proof (beforeAhead_prefix R) as E.
  remember (skipn (length (beforeAhead R)) R) as post eqn:Epost.
  match goal with |- consumed (Pos ?b0 R) (Pos ?b1 post) = _ =>
    transitivity (consumed (Pos b0 (beforeAhead R ++ post)) (Pos b1 post));
      [rewrite <- E; reflexivity | apply consumed_app] end.
Qed.

Lemma hash_eqb (c : ascii) : isChar 35 c = false -> Ascii.eqb "#" c = false.
Proof. each_char c. Qed.

Lemma noHash_eqb (s : jsstring) :
  noHash s -> Forall (fun c => Ascii.eqb "#" c = false) s.
Proof. apply List.Forall_impl. exact hash_eqb. Qed.

(** The instructions read from a document that starts as
    [buildSkillContent] writes it. *)
Lemma instructions_of_document (N D T R : jsstring) :
  Forall (fun c => nameChar c = true) N ->
  noHash D ->
  noHash T ->
  trimmedGroup
    (execAhead plain instructionsRe instructionsEnd
       ("---" ++ LF ++ "name: " ++ N ++ LF ++ "description: " ++ D ++ LF ++
        "---" ++ LF ++ LF ++ "# " ++ T ++ LF ++ LF ++
        "## Instructions" ++ LF ++ R)) = trim (beforeAhead R).
Proof.
  intros HN HD HT. unfold execAhead.
  change ("---" ++ LF ++ "name: " ++ N ++ LF ++ "description: " ++ D ++ LF ++
          "---" ++ LF ++ LF ++ "# " ++ T ++ LF ++ LF ++
          "## Instructions" ++ LF ++ R)
    with (("---" ++ LF ++ "name: ") ++ N ++ (LF ++ "description: ") ++ D ++
          (LF ++ "---" ++ LF ++ LF) ++
          ("#"%char :: (" " ++ T ++ (LF ++ LF) ++
                        (("## Instructions" ++ LF) ++ R)))).
  assert (HN' : Forall (fun c => Ascii.eqb "#" c = false) N).
  { apply noHash_eqb. eapply List.Forall_impl; [| exact HN].
    apply hash_not_nameChar. }
  unfold instructionsRe. cbn [seqs].
  change (Str ("## Instructions" ++ LF))
    with (Str ("#"%char :: "# Instructions" ++ LF)).
  rewrite searchAhead_skip by (repeat constructor).
  rewrite searchAhead_skip by exact HN'.
  rewrite searchAhead_skip by (repeat constructor).
  rewrite searchAhead_skip by (apply noHash_eqb, HD).
  rewrite searchAhead_skip by (repeat constructor).
  cbn [searchAhead].
  rewrite matchAtAhead_none by reflexivity.
  rewrite searchAhead_skip by (repeat constructor).
  rewrite searchAhead_skip by (apply noHash_eqb, HT).
  rewrite searchAhead_skip by (repeat constructor).
  match goal with |- context [searchAhead _ _ _ ?b _] =>
    destruct (instructions_here b R) as [m [Hm Hg]] end.
  unfold instructionsRe in Hm. cbn [seqs] in Hm.
  destruct (("## Instructions" ++ LF) ++ R) as [|c0 R0] eqn:ER;
    [discriminate |].
  cbn [searchAhead].
  change (Str ("#"%char :: "# Instructions" ++ LF))
    with (Str ("## Instructions" ++ LF)).
  rewrite Hm. unfold trimmedGroup. rewrite Hg. reflexivity.
Qed.

Lemma LF_eqb (c : ascii) :
  isChar 10 c = false -> Ascii.eqb (ascii_of_nat 10) c = false.
Proof. each_char c. Qed.

Lemma beforeAhead_line (l rest : jsstring) :
  noLF l -> beforeAhead (l ++ rest) = l ++ beforeAhead rest.
Proof.
  induction 1 as [|c l Hc Hl IH]; [reflexivity |].
  cbn [app beforeAhead]. unfold ahead at 1. cbn [app LF startsWith isEmpty].
  rewrite (LF_eqb c Hc). cbn [andb orb]. rewrite IH. reflexivity.
Qed.

Lemma beforeAhead_LF (s : jsstring) :
  startsWith "## " s = false -> beforeAhead (LF ++ s) = LF ++ beforeAhead s.
Proof.
  intros H.
  change (beforeAhead (LF ++ s))
    with (if startsWith "## " s || false then []
          else ascii_of_nat 10 :: beforeAhead s).
  rewrite H. reflexivity.
Qed.

Lemma beforeAhead_stop (s : jsstring) :
  startsWith "## " s = true -> beforeAhead (LF ++ s) = [].
Proof.
  intros H.
  change (beforeAhead (LF ++ s))
    with (if startsWith "## " s || false then []
          else ascii_of_nat 10 :: beforeAhead s).
  rewrite H. reflexivity.
Qed.

(** A text without line feed starts a line as it starts alone. *)
Lemma startsWith_line (k : jsstring) :
  noLF k ->
  forall l rest, startsWith k (l ++ LF ++ rest) = startsWith k l.
Proof.
  induction 1 as [|y k Hy Hk IH]; intros l rest; [reflexivity |].
  destruct l as [|c l]; cbn [app LF startsWith].
  - assert (E : Ascii.eqb y (ascii_of_nat 10) = false).
    { rewrite Ascii.eqb_sym. apply LF_eqb, Hy. }
    rewrite E. reflexivity.
  - f_equal. exact (IH l rest).
Qed.

Lemma trimStart_app (x y : jsstring) (c : ascii) :
  isWhiteSpace c = false ->
  trimStart (x ++ c :: y) = trimStart x ++ c :: y.
Proof.
  intros Hc. induction x as [|a x IH]; cbn [app trimStart].
  - rewrite Hc. reflexivity.
  - destruct (isWhiteSpace a); [exact IH | reflexivity].
Qed.

Lemma trimEnd_app (a b : jsstring) (c : ascii) :
  isWhiteSpace c = false ->
  trimEnd (a ++ c :: b) = a ++ c :: trimEnd b.
Proof.
  intros Hc. unfold trimEnd. rewrite rev_app_distr. cbn [rev].
  rewrite <- app_assoc. cbn [app]. rewrite trimStart_app by exact Hc.
  rewrite rev_app_distr. cbn [rev]. rewrite rev_involutive, <- app_assoc.
  reflexivity.
Qed.

Lemma trim_between (s : jsstring) :
  standsInside isWhiteSpace s = true -> trim (LF ++ s ++ LF) = s.
Proof.
  unfold standsInside. intros H. apply andb_true_iff in H as [Ha He].
  destruct s as [|c s]; [reflexivity |].
  assert (Hc : isWhiteSpace c = false).
  { cbn [standsApart] in Ha. destruct (isWhiteSpace c); [discriminate |].
    reflexivity. }
  unfold trim. change (trimStart (LF ++ (c :: s) ++ LF))
    with (trimStart ((c :: s) ++ LF)).
  cbn [app]. rewrite trimStart_id by exact Hc.
  rewrite endsOutside_rev in He.
  destruct (rev (c :: s)) as [|d r] eqn:Er.
  { apply (f_equal (@length ascii)) in Er. rewrite length_rev in Er.
    discriminate. }
  apply negb_true_iff in He.
  assert (Es : c :: s = rev r ++ [d]).
  { rewrite <- (rev_involutive (c :: s)), Er. reflexivity. }
  change (c :: s ++ LF) with ((c :: s) ++ LF). rewrite Es, <- app_assoc.
  cbn [app]. rewrite trimEnd_app by exact He. reflexivity.
Qed.

(** *** A built document, read back *)

Lemma buildSkillContent_text (skillData : Skill)
    (sourceInfo : option SourceInfo) :
  exists M,
    buildSkillContent skillData sourceInfo =
    "---" ++ LF ++ "name: " ++ frontmatterName skillData ++ LF ++
    "description: " ++ enhanceDescription skillData ++ LF ++
    "---" ++ LF ++ LF ++ "# " ++ title skillData ++ LF ++ LF ++
    "## Instructions" ++ LF ++
    (LF ++ makeConcise (instructions skillData) ++ LF ++ LF ++
     (categorySection skillData ++ examplesSection skillData) ++
     LF ++ "<!--" ++ LF ++ M).
Proof.
  eexists. unfold buildSkillContent. rewrite <- !app_assoc. reflexivity.
Qed.

Lemma sections_start (skillData : Skill) (M : jsstring) :
  categorySection skillData ++ examplesSection skillData <> [] ->
  startsWith "## "
    ((categorySection skillData ++ examplesSection skillData) ++ M) = true.
Proof.
  unfold categorySection, examplesSection.
  destruct (_ && _); [reflexivity |].
  destruct (_ && _); [reflexivity |].
  destruct (_ || _); [reflexivity |]. intros H. exfalso. apply H. reflexivity.
Qed.

Lemma yaml_frontmatter (content : jsstring) :
  match exec plain yamlRe content with
  | Some m => group 1 m
  | None => []
  end = frontmatter (parseSkillContent content).
Proof. reflexivity. Qed.

Lemma yaml_of_build (skillData : Skill) (sourceInfo : option SourceInfo) :
  oneLine (enhanceDescription skillData) ->
  match exec plain yamlRe (buildSkillContent skillData sourceInfo) with
  | Some m => group 1 m
  | None => []
  end =
  "name: " ++ frontmatterName skillData ++ LF ++
  "description: " ++ enhanceDescription skillData.
Proof.
  intros HD. rewrite yaml_frontmatter.
  destruct (frontmatter_of_build skillData sourceInfo)
    as (pre & tl & ED & Hlines & EF).
  assert (Htl : tl = []).
  { apply Hlines. apply forallb_forall. intros c Hc.
    unfold oneLine in HD. rewrite List.Forall_forall in HD.
    rewrite (HD c Hc). reflexivity. }
  subst tl. rewrite app_nil_r in ED. subst pre. exact EF.
Qed.

Lemma oneLine_test (s : jsstring) :
  forallb (fun c => negb (isLineTerminator c)) s = true -> oneLine s.
Proof.
  intros H. apply List.Forall_forall. intros c Hc.
  rewrite forallb_forall in H. apply negb_true_iff, H, Hc.
Qed.

Lemma noHash_test (s : jsstring) :
  forallb (fun c => negb (isChar 35 c)) s = true -> noHash s.
Proof.
  intros H. apply List.Forall_forall. intros c Hc.
  rewrite forallb_forall in H. apply negb_true_iff, H, Hc.
Qed.

Lemma parseSkillFile_fields (skillData : Skill)
    (sourceInfo : option SourceInfo) :
  frontmatterName skillData <> [] ->
  oneLine (enhanceDescription skillData) ->
  oneLine (title skillData) ->
  trim (title skillData) <> [] ->
  let read := parseSkillFile (buildSkillContent skillData sourceInfo) in
  name read = frontmatterName skillData /\
  description read = trim (enhanceDescription skillData) /\
  title read = trim (title skillData) /\
  keywords read = Some [].
Proof.
  intros HN HD HT Hne read. subst read.
  pose proof (normalizeSkillName_chars
                (orElse (skillName skillData) (title skillData))) as Hc.
  fold (frontmatterName skillData) in Hc.
  unfold parseSkillFile. cbn [name description title keywords].
  rewrite (yaml_of_build skillData sourceInfo HD).
  destruct (yaml_fields _ _ Hc HD) as [Hname Hdesc].
  split; [exact (Hname HN) |]. split; [exact Hdesc |].
  split; [| reflexivity].
  destruct (buildSkillContent_text skillData sourceInfo) as [M ->].
  apply title_of_document; assumption.
Qed.

(** X16: a document that [buildSkillContent] has written is read back by
    [parseSkillFile] with the name of its frontmatter, when that name is
    not empty, with the description of its frontmatter and with its title,
    both without the white space at their ends, when they hold no line
    terminator and the title is not blank; the keywords read are empty,
    whatever the keywords of the record were. *)
Theorem parseSkillFile_of_build (skillData : Skill)
    (sourceInfo : option SourceInfo) :
  frontmatterName skillData <> [] ->
  oneLine (enhanceDescription skillData) ->
  oneLine (title skillData) ->
  trim (title skillData) <> [] ->
  let read := parseSkillFile (buildSkillContent skillData sourceInfo) in
  name read = frontmatterName skillData /\
  description read = trim (enhanceDescription skillData) /\
  title read = trim (title skillData) /\
  keywords read = Some [].
Proof. exact (parseSkillFile_fields skillData sourceInfo). Qed.

Lemma parseSkillFile_of_build_witness :
  let read := parseSkillFile (buildSkillContent avoidSkill reviewSource) in
  name read = frontmatterName avoidSkill /\
  description read = trim (enhanceDescription avoidSkill) /\
  title read = trim (title avoidSkill) /\
  keywords read = Some [].
Proof.
  apply (parseSkillFile_of_build avoidSkill reviewSource).
  - vm_compute. discriminate.
  - apply oneLine_test. vm_compute. reflexivity.
  - apply oneLine_test. vm_compute. reflexivity.
  - vm_compute. discriminate.
Defined.

(** X17: the instructions that [parseSkillFile] reads from a built
    document whose description and title hold no [#] are the concise
    instructions written there when a category section or examples follow
    them; when none follows, what is read goes on into the metadata
    comment that ends the document. *)
Theorem parseSkillFile_instructions (skillData : Skill)
    (sourceInfo : option SourceInfo) :
  noHash (enhanceDescription skillData) ->
  noHash (title skillData) ->
  startsWith "## " (makeConcise (instructions skillData)) = false ->
  let read := parseSkillFile (buildSkillContent skillData sourceInfo) in
  (categorySection skillData ++ examplesSection skillData <> [] ->
   instructions read = makeConcise (instructions skillData)) /\
  (categorySection skillData ++ examplesSection skillData = [] ->
   makeConcise (instructions skillData) <> [] ->
   exists more,
     instructions read =
     makeConcise (instructions skillData) ++ LF ++ LF ++ LF ++ "<!--" ++ more).
Proof.
  intros HD HT HI read. subst read.
  pose proof (normalizeSkillName_chars
                (orElse (skillName skillData) (title skillData))) as Hc.
  fold (frontmatterName skillData) in Hc.
  destruct (buildSkillContent_text skillData sourceInfo) as [M ->].
  unfold parseSkillFile. cbn [instructions].
  rewrite (instructions_of_document _ _ _ _ Hc HD HT).
  set (I := makeConcise (instructions skillData)) in *.
  set (S := categorySection skillData ++ examplesSection skillData).
  assert (HIl : noLF I) by apply noLF_makeConcise.
  assert (HIs : standsInside isWhiteSpace I = true) by apply makeConcise_inside.
  assert (Hhead : forall rest, startsWith "## " (I ++ LF ++ rest) = false).
  { intros rest. rewrite startsWith_line; [exact HI | repeat constructor]. }
  rewrite (beforeAhead_LF _ (Hhead _)).
  rewrite beforeAhead_line by exact HIl.
  rewrite (beforeAhead_LF (LF ++ S ++ LF ++ "<!--" ++ LF ++ M)) by reflexivity.
  split.
  - intros HS.
    rewrite beforeAhead_stop
      by (exact (sections_start skillData (LF ++ "<!--" ++ LF ++ M) HS)).
    rewrite app_nil_r. apply trim_between, HIs.
  - intros HS Hne. fold S. rewrite HS. cbn [app].
    rewrite (beforeAhead_LF (LF ++ "<!--" ++ LF ++ M)) by reflexivity.
    rewrite (beforeAhead_LF ("<!--" ++ LF ++ M)) by reflexivity.
    rewrite (beforeAhead_line "<!--") by (repeat constructor).
    set (more := beforeAhead (LF ++ M)).
    exists (trimEnd more). unfold trim.
    destruct I as [|c I'] eqn:EI; [congruence |].
    assert (Hc0 : isWhiteSpace c = false).
    { unfold standsInside in HIs. apply andb_true_iff in HIs as [Ha _].
      cbn [standsApart] in Ha. destruct (isWhiteSpace c); [discriminate |].
      reflexivity. }
    change (trimStart (LF ++ (c :: I') ++ LF ++ LF ++ LF ++ "<!--" ++ more))
      with (trimStart ((c :: I') ++ LF ++ LF ++ LF ++ "<!--" ++ more)).
    cbn [app]. rewrite trimStart_id by exact Hc0.
    change (c :: I' ++ LF ++ LF ++ LF ++ "<!--" ++ more)
      with ((c :: I') ++ LF ++ LF ++ LF ++ "<!-" ++ "-"%char :: more).
    rewrite !app_assoc. rewrite trimEnd_app by reflexivity.
    rewrite <- !app_assoc. reflexivity.
Qed.

Lemma parseSkillFile_instructions_witness :
  instructions (parseSkillFile (buildSkillContent avoidSkill reviewSource)) =
    makeConcise (instructions avoidSkill) /\
  exists more,
    instructions (parseSkillFile (buildSkillContent plainSkill reviewSource)) =
    makeConcise (instructions plainSkill) ++ LF ++ LF ++ LF ++ "<!--" ++ more.
Proof.
  split.
  - apply (parseSkillFile_instructions avoidSkill reviewSource).
    + apply noHash_test. vm_compute. reflexivity.
    + apply noHash_test. vm_compute. reflexivity.
    + vm_compute. reflexivity.
    + vm_compute. discriminate.
  - apply (parseSkillFile_instructions plainSkill reviewSource).
    + apply noHash_test. vm_compute. reflexivity.
    + apply noHash_test. vm_compute. reflexivity.
    + vm_compute. reflexivity.
    + vm_compute. reflexivity.
    + vm_compute. discriminate.
Defined.

(** ** The validation of a built document *)

Lemma parsed_fields (content : jsstring) :
  pname (parseSkillContent content) =
    fieldOf "name:" (frontmatter (parseSkillContent content)) /\
  pdescription (parseSkillContent content) =
    fieldOf "description:" (frontmatter (parseSkillContent content)).
Proof. split; reflexivity. Qed.

Lemma parsed_of_build (skillData : Skill) (sourceInfo : option SourceInfo) :
  frontmatterName skillData <> [] ->
  oneLine (enhanceDescription skillData) ->
  pname (parseSkillContent (buildSkillContent skillData sourceInfo)) =
    frontmatterName skillData /\
  pdescription (parseSkillContent (buildSkillContent skillData sourceInfo)) =
    trim (enhanceDescription skillData).
Proof.
  intros Hne HD.
  destruct (parsed_fields (buildSkillContent skillData sourceInfo))
    as [-> ->].
  rewrite <- yaml_frontmatter, (yaml_of_build skillData sourceInfo HD).
  pose proof (normalizeSkillName_chars
                (orElse (skillName skillData) (title skillData))) as HN.
  fold (frontmatterName skillData) in HN.
  generalize dependent (frontmatterName skillData). intros N Hne HN.
  generalize dependent (enhanceDescription skillData). intros D HD.
  split.
  - destruct N as [|n0 N]; [congruence |].
    inversion HN as [|? ? Hn0 HN']; subst.
    change ("name: " ++ (n0 :: N) ++ LF ++ "description: " ++ D)
      with ("name:" ++ " " ++ n0 :: N ++ (LF ++ "description: " ++ D)).
    rewrite fieldOf_first_line.
    + apply trim_id. eapply List.Forall_impl; [| exact HN].
      apply nameChar_not_space.
    + repeat constructor.
    + apply nameChar_not_space. exact Hn0.
    + apply nameChar_terminator_list. exact HN'.
    + reflexivity.
  - change ("name: " ++ N ++ LF ++ "description: " ++ D)
      with (("n"%char :: "ame: " ++ N) ++ LF ++
            ("d"%char :: "escription:") ++ " " ++ D).
    apply fieldOf_second_line.
    + reflexivity.
    + constructor; [reflexivity |]. apply Forall_app. split.
      * repeat constructor.
      * apply nameChar_terminator_list. exact HN.
    + exact HD.
Qed.

Lemma length_trimStart (s : jsstring) : length (trimStart s) <= length s.
Proof.
  induction s as [|c s IH]; [reflexivity |]. cbn [trimStart].
  destruct (isWhiteSpace c); cbn [length]; lia.
Qed.

Lemma length_trim (s : jsstring) : length (trim s) <= length s.
Proof.
  unfold trim, trimEnd. rewrite length_rev.
  etransitivity; [apply length_trimStart |]. rewrite length_rev.
  apply length_trimStart.
Qed.

Lemma enhanceDescription_length (skillData : Skill) :
  length (enhanceDescription skillData) <= 1024.
Proof.
  unfold enhanceDescription. cbv zeta.
  destruct (1024 <? _) eqn:E; [| apply Nat.ltb_ge, E].
  rewrite length_app, length_firstn. cbn [length lit list_ascii_of_string]. lia.
Qed.

Lemma nameFormat_normalized (n : jsstring) :
  n <> [] ->
  Forall (fun c => nameChar c = true) n ->
  test plain nameFormatRe n = negb (existsb isUnderscore n).
Proof.
  intros Hne Hc. rewrite test_nameFormatRe.
  destruct n as [|x n]; [congruence |]. cbn [isEmpty negb andb]. clear Hne.
  induction Hc as [|c l Hc Hl IH]; [reflexivity |].
  cbn [forallb existsb]. rewrite IH, (nameChar_cases c Hc).
  rewrite negb_orb. reflexivity.
Qed.

Lemma errors_if (b : bool) (i : Issue) :
  List.map icode (List.filter isError (if b then [i] else [])) =
  if b then (if isError i then [icode i] else []) else [].
Proof. destruct b; [| reflexivity]. cbn [List.filter]. destruct (isError i); reflexivity. Qed.

(** The errors that [validateFrontmatter] raises for a name and a
    description that are within the two lengths. *)
Lemma validateFrontmatter_errors (fm n d : jsstring) :
  n <> [] ->
  length n <= maxNameLength ->
  length d <= maxDescriptionLength ->
  List.map icode (List.filter isError (validateFrontmatter fm n d)) =
  (if negb (test plain nameFormatRe n)
   then ["INVALID_NAME_FORMAT" : jsstring] else []) ++
  (if existsb (fun w => includes w n) reservedWords
   then ["RESERVED_WORD" : jsstring] else []) ++
  (if isEmpty d then ["MISSING_DESCRIPTION" : jsstring]
   else if test plain xmlTagRe d then ["XML_IN_DESCRIPTION" : jsstring]
   else []).
Proof.
  intros Hne Hn Hd. unfold validateFrontmatter.
  destruct n as [|n0 n'] eqn:En; [congruence |]. cbn [isEmpty].
  rewrite <- En in *. clear En n0 n' Hne.
  replace (maxNameLength <? length n) with false
    by (symmetry; apply Nat.ltb_ge; exact Hn).
  replace (maxDescriptionLength <? length d) with false
    by (symmetry; apply Nat.ltb_ge; exact Hd).
  rewrite !List.filter_app, !List.map_app.
  rewrite !errors_if. cbn [app].
  destruct (isEmpty d).
  - cbn [List.filter List.map isError severity icode].
    destruct (negb (isGerundForm n)); cbn [app];
      rewrite ?app_nil_r, <- ?app_assoc; reflexivity.
  - rewrite !List.filter_app, !List.map_app, !errors_if.
    cbn [isError severity icode app].
    destruct (negb (isGerundForm n)), (isFirstOrSecondPerson d),
      (negb (SkillValidator.hasWhenToUse d)); cbn [app];
      rewrite ?app_nil_r, <- ?app_assoc, ?app_nil_r; reflexivity.
Qed.

Lemma validateSkill_errors (content : jsstring) :
  List.filter isError (issues (validateSkill (ReadOk content))) =
  List.filter isError
    (validateFrontmatter (frontmatter (parseSkillContent content))
       (pname (parseSkillContent content))
       (pdescription (parseSkillContent content))).
Proof.
  unfold validateSkill. cbn [issues]. rewrite !List.filter_app.
  rewrite validateContent_no_error, validateStructure_no_error,
    validateConciseness_no_error, !app_nil_r. reflexivity.
Qed.

Lemma validateSkill_valid (read : ReadResult) :
  valid (validateSkill read) =
  isEmpty_list (List.map icode (List.filter isError (issues (validateSkill read)))).
Proof.
  unfold validateSkill. cbn [issues valid].
  destruct (List.filter isError _); reflexivity.
Qed.

(** X18: the validation of a document that [buildSkillContent] has
    written, for a name that is not empty and a description of one line,
    can only raise four errors: INVALID_NAME_FORMAT when the name holds an
    underscore, RESERVED_WORD when it holds a reserved word,
    MISSING_DESCRIPTION when the description is blank and
    XML_IN_DESCRIPTION when it holds a tag; the document is valid when none
    of the four is raised. *)
Theorem validateSkill_of_build (skillData : Skill)
    (sourceInfo : option SourceInfo) :
  frontmatterName skillData <> [] ->
  oneLine (enhanceDescription skillData) ->
  List.map icode
    (List.filter isError
       (issues (validateSkill
                  (ReadOk (buildSkillContent skillData sourceInfo))))) =
    builtErrors (frontmatterName skillData)
      (trim (enhanceDescription skillData)) /\
  valid (validateSkill (ReadOk (buildSkillContent skillData sourceInfo))) =
    isEmpty_list
      (builtErrors (frontmatterName skillData)
         (trim (enhanceDescription skillData))).
Proof.
  intros Hne HD.
  destruct (parsed_of_build skillData sourceInfo Hne HD) as [Hn Hd].
  pose proof (normalizeSkillName_chars
                (orElse (skillName skillData) (title skillData))) as Hc.
  pose proof (normalizeSkillName_length
                (orElse (skillName skillData) (title skillData))) as Hl.
  fold (frontmatterName skillData) in Hc, Hl.
  assert (HDl : length (trim (enhanceDescription skillData)) <= 1024).
  { etransitivity; [apply length_trim | apply enhanceDescription_length]. }
  rewrite validateSkill_valid, validateSkill_errors, Hn, Hd.
  rewrite (validateFrontmatter_errors _ _ _ Hne Hl HDl).
  rewrite (nameFormat_normalized _ Hne Hc), negb_involutive.
  split; reflexivity.
Qed.

Lemma validateSkill_of_build_witness :
  valid (validateSkill (ReadOk (buildSkillContent avoidSkill reviewSource))) =
  true.
Proof.
  assert (HN : frontmatterName avoidSkill <> []) by (vm_compute; discriminate).
  assert (HD : oneLine (enhanceDescription avoidSkill))
    by (apply oneLine_test; vm_compute; reflexivity).
  destruct (validateSkill_of_build avoidSkill reviewSource HN HD) as [_ Hv].
  transitivity (isEmpty_list
                  (builtErrors (frontmatterName avoidSkill)
                     (trim (enhanceDescription avoidSkill))));
    [exact Hv | vm_compute; reflexivity].
Defined.

(** ** The keyword classifier *)

Lemma includes_split (p s : jsstring) :
  includes p s = true -> exists a b, s = a ++ p ++ b.
Proof.
  induction s as [|c s IH]; cbn [includes]; intros H.
  - rewrite orb_false_r in H. exists [], []. destruct p; [reflexivity | discriminate].
  - apply orb_true_iff in H as [H | H].
    + exists [], (skipn (length p) (c :: s)). apply startsWith_true, H.
    + destruct (IH H) as [a [b ->]]. exists (c :: a), b. reflexivity.
Qed.

Lemma includes_part (pre sub post s : jsstring) :
  includes (pre ++ sub ++ post) s = true -> includes sub s = true.
Proof.
  intros H. apply includes_split in H as [a [b ->]].
  replace (a ++ (pre ++ sub ++ post) ++ b)
    with ((a ++ pre) ++ sub ++ (post ++ b))
    by (rewrite <- !app_assoc; reflexivity).
  apply includes_app_r, includes_startsWith, startsWith_app.
Qed.

Ltac find_in :=
  cbn [In AIProcessor.antiPatternKeywords AIProcessor.bestPracticeKeywords
       lits List.map];
  repeat (first [left; reflexivity | right]).

Ltac shadowed pre sub post :=
  split; [find_in |
          exists (lit pre), (lit sub), (lit post);
          split; [reflexivity | find_in]].

Lemma shadowed_keywords :
  Forall (fun kw =>
            In kw AIProcessor.antiPatternKeywords /\
            exists pre sub post,
              kw = pre ++ sub ++ post /\
              In sub AIProcessor.bestPracticeKeywords)
    shadowedKeywords.
Proof.
  unfold shadowedKeywords, lits. cbn [List.map].
  constructor; [shadowed EmptyString "should" " not" |].
  constructor; [shadowed EmptyString "should" "n't" |].
  constructor; [shadowed "in" "correct" EmptyString |].
  constructor; [shadowed "anti-" "pattern" EmptyString |].
  constructor; [shadowed "anti" "pattern" EmptyString |].
  constructor.
Qed.

(** X19: a comment that holds [should not], [shouldn't], [incorrect],
    [anti-pattern] or [antipattern] is never classified as an anti-pattern
    by the keyword classifier: each of these holds a best-practice keyword,
    so the comment is neutral. *)
Theorem fallbackCategorization_shadowed (commentBody kw : jsstring) :
  In kw shadowedKeywords ->
  includes kw (toLowerCase commentBody) = true ->
  category (AIProcessor.skillData
              (AIProcessor.fallbackCategorization commentBody)) = "neutral".
Proof.
  intros Hin Hk.
  pose proof shadowed_keywords as Hall. rewrite List.Forall_forall in Hall.
  destruct (Hall kw Hin) as [Ha [pre [sub [post [E Hb]]]]].
  unfold AIProcessor.fallbackCategorization.
  cbn [AIProcessor.skillData category].
  assert (H1 : existsb (fun k => includes k (toLowerCase commentBody))
                 AIProcessor.antiPatternKeywords = true).
  { apply existsb_exists. exists kw. auto. }
  assert (H2 : existsb (fun k => includes k (toLowerCase commentBody))
                 AIProcessor.bestPracticeKeywords = true).
  { apply existsb_exists. exists sub. split; [exact Hb |].
    apply (includes_part pre sub post). rewrite <- E. exact Hk. }
  rewrite H1, H2. reflexivity.
Qed.

Lemma fallbackCategorization_shadowed_witness :
  category (AIProcessor.skillData
              (AIProcessor.fallbackCategorization
                 "This is Incorrect, never mutate the store")) = "neutral".
Proof.
  apply (fallbackCategorization_shadowed _ "incorrect").
  - right. right. left. reflexivity.
  - vm_compute. reflexivity.
Defined.

(** *** The name that the classifier makes *)

Lemma replaceAll_Cls_rep (fl : flags) (cls : ascii -> bool)
    (rep s : jsstring) :
  replaceAll fl (Cls cls) rep s =
  flat_map (fun c => if cls c then rep else [c]) s.
Proof.
  unfold replaceAll.
  exact (stitch_Cls fl cls rep s (S (length s)) [] [] []
           (Nat.lt_succ_diag_r _)).
Qed.

Lemma Forall_splitRunsFrom (P : ascii -> Prop) (cls : ascii -> bool)
    (s : jsstring) :
  Forall (fun c => cls c = false -> P c) s ->
  forall inRun, Forall (Forall P) (splitRunsFrom inRun cls s).
Proof.
  induction 1 as [|c s Hc Hs IH]; intros inRun; cbn [splitRunsFrom].
  - repeat constructor.
  - destruct (cls c) eqn:E.
    + destruct inRun; [apply IH |]. constructor; [constructor | apply IH].
    + specialize (IH false). destruct (splitRunsFrom false cls s) as [|w ws].
      * repeat constructor. auto.
      * inversion IH; subst. constructor; [constructor; auto | assumption].
Qed.

Lemma kept_lowerWordChar (x : ascii) :
  let c := lowerChar x in
  negb (isWordChar c || isWhiteSpace c) = false ->
  isWhiteSpace c = false ->
  lowerWordChar c = true.
Proof. each_char x. Qed.

Lemma fallbackWords_eq (commentBody : jsstring) :
  fallbackWords commentBody =
  firstn 4
    (List.filter (fun w => 3 <? length w)
       (splitRuns isWhiteSpace
          (flat_map
             (fun c => if negb (isWordChar c || isWhiteSpace c)
                       then lit " " else [c])
             (toLowerCase commentBody)))).
Proof.
  unfold fallbackWords, AIProcessor.fallbackCategorization.
  cbn [AIProcessor.skillData keywords optList].
  unfold AIProcessor.notWordSpace, space.
  rewrite replaceAll_Cls_rep.
  rewrite (split_Plus plain isWhiteSpace (Cls isWhiteSpace)) by reflexivity.
  reflexivity.
Qed.

Lemma In_firstn {A : Type} (n : nat) (l : list A) (x : A) :
  In x (firstn n l) -> In x l.
Proof.
  revert l. induction n as [|n IH]; intros l H; [destruct H |].
  destruct l as [|y l]; [destruct H |]. destruct H as [-> | H].
  - now left.
  - right. apply IH, H.
Qed.

Lemma fallbackWords_chars (commentBody : jsstring) :
  Forall (fun w => 3 < length w /\ Forall (fun c => lowerWordChar c = true) w)
    (fallbackWords commentBody).
Proof.
  rewrite fallbackWords_eq.
  apply List.Forall_forall. intros w Hw.
  apply In_firstn, filter_In in Hw as [Hw Hlen].
  split; [apply Nat.ltb_lt, Hlen |]. clear Hlen.
  revert w Hw. apply List.Forall_forall.
  apply Forall_splitRunsFrom.
  apply List.Forall_forall. intros c Hc Hws.
  apply in_flat_map in Hc as [x [Hx Hc]].
  unfold toLowerCase in Hx. apply in_map_iff in Hx as [y [<- _]].
  destruct (negb (isWordChar (lowerChar y) || isWhiteSpace (lowerChar y)))
    eqn:E.
  - destruct Hc as [<- | []]. discriminate.
  - destruct Hc as [<- | []]. apply kept_lowerWordChar; assumption.
Qed.

Lemma lowerWordChar_nameChar (c : ascii) :
  lowerWordChar c = true -> nameChar c = true /\ isHyphen c = false.
Proof. each_char c. Qed.

Lemma standsApart_none (cls : ascii -> bool) (w rest : jsstring) (b : bool) :
  Forall (fun c => cls c = false) w ->
  standsApart cls b (w ++ rest) =
  match w with [] => standsApart cls b rest | _ => standsApart cls false rest end.
Proof.
  intros H. revert b. induction H as [|c w Hc Hw IH]; intros b; [reflexivity |].
  cbn [app standsApart]. rewrite Hc, IH. destruct w; reflexivity.
Qed.

Lemma join_hyphen_shape (ws : list jsstring) :
  Forall (fun w => 3 < length w /\ Forall (fun c => lowerWordChar c = true) w)
    ws ->
  ws <> [] ->
  Forall (fun c => nameChar c = true) (join "-" ws) /\
  hyphensInside (join "-" ws) = true /\
  join "-" ws <> [].
Proof.
  intros H Hne. unfold hyphensInside, standsInside.
  induction H as [|w ws [Hlen Hw] Hws IH]; [congruence |]. clear Hne.
  assert (Hn : Forall (fun c => nameChar c = true) w).
  { eapply List.Forall_impl; [| exact Hw]. intros c Hc.
    apply lowerWordChar_nameChar, Hc. }
  assert (Hh : Forall (fun c => isHyphen c = false) w).
  { eapply List.Forall_impl; [| exact Hw]. intros c Hc.
    apply lowerWordChar_nameChar, Hc. }
  destruct (exists_last (l := w)) as [w0 [c Ew]].
  { intros ->. cbn in Hlen. lia. }
  assert (Hc : isHyphen c = false).
  { rewrite List.Forall_forall in Hh. apply Hh. rewrite Ew.
    apply in_or_app. right. now left. }
  destruct ws as [|w' ws].
  - cbn [join]. split; [exact Hn |]. split; [| intros ->; cbn in Hlen; lia].
    apply andb_true_iff. split.
    + rewrite <- (app_nil_r w), standsApart_none by exact Hh.
      destruct w; reflexivity.
    + rewrite Ew, endsOutside_app. cbn [endsOutside]. rewrite Hc. reflexivity.
  - destruct IH as [IHn [IHs IHe]]; [discriminate |].
    apply andb_true_iff in IHs as [IHa IHo].
    change (join "-" (w :: w' :: ws)) with (w ++ "-" ++ join "-" (w' :: ws)).
    split; [| split].
    + apply Forall_app. split; [exact Hn |].
      apply Forall_app. split; [repeat constructor | exact IHn].
    + apply andb_true_iff. split.
      * rewrite standsApart_none by exact Hh.
        destruct w as [|c0 w1]; [cbn in Hlen; lia |].
        change (lit "-" ++ join "-" (w' :: ws))
          with ("-"%char :: join "-" (w' :: ws)).
        cbn [standsApart]. change (isHyphen "-") with true. cbv iota.
        exact IHa.
      * destruct (join "-" (w' :: ws)) as [|d r] eqn:Ej; [congruence |].
        change (w ++ "-" ++ d :: r) with (w ++ "-"%char :: d :: r).
        rewrite (endsOutside_app isHyphen (w ++ ["-"%char]) d r) || idtac.
        replace (w ++ "-"%char :: d :: r) with ((w ++ ["-"%char]) ++ d :: r)
          by (rewrite <- app_assoc; reflexivity).
        rewrite endsOutside_app. exact IHo.
    + destruct w; [cbn in Hlen; lia | discriminate].
Qed.

(** X20: the keyword classifier keeps at most four words of the comment,
    each of more than three characters and made of lower-case letters,
    digits and underscores; the skill name it makes, these words joined by
    hyphens or [unknown-skill] when there is none, is never empty and has
    the characters and the hyphens of a normalized name. *)
Theorem fallbackCategorization_skillName (commentBody : jsstring) :
  length (fallbackWords commentBody) <= 4 /\
  Forall (fun w => 3 < length w /\ Forall (fun c => lowerWordChar c = true) w)
    (fallbackWords commentBody) /\
  skillName (AIProcessor.skillData
               (AIProcessor.fallbackCategorization commentBody)) =
    (if isEmpty_list (fallbackWords commentBody) then "unknown-skill"
     else join "-" (fallbackWords commentBody)) /\
  skillName (AIProcessor.skillData
               (AIProcessor.fallbackCategorization commentBody)) <> [] /\
  Forall (fun c => nameChar c = true)
    (skillName (AIProcessor.skillData
                  (AIProcessor.fallbackCategorization commentBody))) /\
  hyphensInside
    (skillName (AIProcessor.skillData
                  (AIProcessor.fallbackCategorization commentBody))) = true.
Proof.
  pose proof (fallbackWords_chars commentBody) as Hw.
  assert (Hname :
    skillName (AIProcessor.skillData
                 (AIProcessor.fallbackCategorization commentBody)) =
    orElse (join "-" (fallbackWords commentBody)) "unknown-skill")
    by reflexivity.
  split; [rewrite fallbackWords_eq; rewrite length_firstn; lia |].
  split; [exact Hw |].
  rewrite Hname. clear Hname.
  destruct (fallbackWords commentBody) as [|w ws] eqn:E.
  - cbn [join orElse isEmpty isEmpty_list].
    split; [reflexivity |]. split; [discriminate |].
    split; [repeat constructor | reflexivity].
  - destruct (join_hyphen_shape (w :: ws) Hw) as [Hn [Hs Hne]];
      [discriminate |].
    unfold orElse. destruct (join "-" (w :: ws)) eqn:Ej; [congruence |].
    cbn [isEmpty isEmpty_list]. auto.
Qed.

(** ** The words of a stored skill *)

Section KeptPieces.

Variable cls : ascii -> bool.
Variable keep : jsstring -> bool.
Hypothesis keep_empty : keep [] = false.

Lemma kept_from (s : jsstring) (inRun : bool) :
  List.filter keep (splitRunsFrom inRun cls s) =
  List.filter keep (splitRunsFrom false cls s).
Proof.
  destruct s as [|c s]; [reflexivity |]. cbn [splitRunsFrom].
  destruct (cls c); [| reflexivity].
  destruct inRun; [| reflexivity].
  cbn [List.filter]. rewrite keep_empty. reflexivity.
Qed.

Lemma kept_app_from (c : ascii) (b : jsstring) :
  cls c = true ->
  forall a : jsstring,
    exists w ws ws',
      splitRunsFrom false cls (a ++ c :: b) = w :: ws /\
      splitRunsFrom false cls a = w :: ws' /\
      List.filter keep ws =
      List.filter keep ws' ++ List.filter keep (splitRunsFrom false cls b).
Proof.
  intros Hc. induction a as [|x a (w & ws & ws' & E1 & E2 & Hk)].
  - exists [], (splitRunsFrom true cls b), []. cbn [app splitRunsFrom].
    rewrite Hc. split; [reflexivity |]. split; [reflexivity |].
    apply kept_from.
  - cbn [app splitRunsFrom]. destruct (cls x).
    + exists [], (splitRunsFrom true cls (a ++ c :: b)),
        (splitRunsFrom true cls a).
      split; [reflexivity |]. split; [reflexivity |].
      rewrite (kept_from (a ++ c :: b) true), (kept_from a true), E1, E2.
      cbn [List.filter]. rewrite Hk. destruct (keep w); reflexivity.
    + rewrite E1, E2. exists (x :: w), ws, ws'. auto.
Qed.

Lemma kept_app (a b : jsstring) (c : ascii) :
  cls c = true ->
  List.filter keep (splitRuns cls (a ++ c :: b)) =
  List.filter keep (splitRuns cls a) ++ List.filter keep (splitRuns cls b).
Proof.
  intros Hc. unfold splitRuns.
  destruct (kept_app_from c b Hc a) as (w & ws & ws' & E1 & E2 & Hk).
  rewrite E1, E2. cbn [List.filter]. rewrite Hk.
  destruct (keep w); reflexivity.
Qed.

Lemma kept_run (w : jsstring) :
  Forall (fun c => cls c = true) w ->
  List.filter keep (splitRuns cls w) = [].
Proof.
  unfold splitRuns. induction 1 as [|c w Hc Hw IH].
  - cbn. rewrite keep_empty. reflexivity.
  - cbn [splitRunsFrom]. rewrite Hc. cbn [List.filter].
    rewrite keep_empty, kept_from. exact IH.
Qed.

Lemma kept_leading (w s : jsstring) :
  Forall (fun c => cls c = true) w ->
  List.filter keep (splitRuns cls (w ++ s)) =
  List.filter keep (splitRuns cls s).
Proof.
  unfold splitRuns. induction 1 as [|c w Hc Hw IH]; [reflexivity |].
  cbn [app splitRunsFrom]. rewrite Hc. cbn [List.filter].
  rewrite keep_empty, kept_from. exact IH.
Qed.

Lemma kept_trailing (s w : jsstring) :
  Forall (fun c => cls c = true) w ->
  List.filter keep (splitRuns cls (s ++ w)) =
  List.filter keep (splitRuns cls s).
Proof.
  intros Hw. destruct Hw as [|c w Hc Hw]; [rewrite app_nil_r; reflexivity |].
  rewrite (kept_app s w c Hc), (kept_run w Hw). apply app_nil_r.
Qed.

End KeptPieces.

Lemma longWords_app (a b : jsstring) :
  longWords (a ++ " " ++ b) = longWords a ++ longWords b.
Proof. apply (kept_app isWhiteSpace); reflexivity. Qed.

Lemma longWords_trim (s : jsstring) : longWords (trim s) = longWords s.
Proof.
  unfold longWords, trim.
  destruct (trimStart_split s) as [w [E Hw]].
  destruct (trimEnd_split (trimStart s)) as [w' [E' Hw']].
  rewrite E at 2. rewrite (kept_leading isWhiteSpace) by (reflexivity || exact Hw).
  rewrite E' at 2.
  rewrite (kept_trailing isWhiteSpace) by (reflexivity || exact Hw').
  reflexivity.
Qed.

Lemma significantWords_longWords (text : jsstring) :
  significantWords (toLowerCase text) =
  list_to_set (List.map toLowerCase (longWords text)).
Proof.
  rewrite significantWords_lists. unfold longWords, splitRuns.
  rewrite splitRunsFrom_toLowerCase. f_equal.
  induction (splitRunsFrom false isWhiteSpace text) as [|w l IH];
    [reflexivity |].
  cbn [List.map List.filter]. unfold toLowerCase at 1. rewrite length_map.
  destruct (3 <? length w); cbn [List.map]; rewrite IH; reflexivity.
Qed.

(** The words that [calculateSimilarity] compares are those of the title,
    of the description and of the keywords. *)
Lemma significantWords_parts (sk : Skill) :
  significantWords (similarityText sk) =
  significantWords (toLowerCase (title sk)) ∪
  significantWords (toLowerCase (description sk)) ∪
  significantWords (toLowerCase (join " " (optList (keywords sk)))).
Proof.
  unfold similarityText. rewrite !significantWords_longWords.
  replace (match keywords sk with Some ks => join " " ks | None => [] end)
    with (join " " (optList (keywords sk)))
    by (destruct (keywords sk); reflexivity).
  rewrite !longWords_app, !List.map_app, !list_to_set_app_L.
  rewrite (assoc_L (∪)). reflexivity.
Qed.

Lemma stored_words (skillData : Skill) (sourceInfo : option SourceInfo)
    (dom cat dir : jsstring) :
  frontmatterName skillData <> [] ->
  oneLine (enhanceDescription skillData) ->
  oneLine (title skillData) ->
  trim (title skillData) <> [] ->
  significantWords
    (similarityText
       (storedSkill dom cat dir (buildSkillContent skillData sourceInfo))) =
  significantWords (toLowerCase (title skillData)) ∪
  significantWords (toLowerCase (enhanceDescription skillData)).
Proof.
  intros HN HD HT Hne.
  destruct (parseSkillFile_fields skillData sourceInfo HN HD HT Hne)
    as (_ & Hd & Ht & Hk).
  rewrite significantWords_parts.
  unfold storedSkill. cbn [title description keywords].
  rewrite Hd, Ht, Hk. cbn [optList join].
  rewrite !significantWords_longWords, !longWords_trim.
  change (longWords []) with (@nil jsstring). cbn [List.map].
  rewrite list_to_set_nil. apply (right_id_L ∅ (∪)).
Qed.

(** X21: a skill read back from a document that [buildSkillContent] wrote
    is compared, by [calculateSimilarity], on the words of the title and of
    the description written in the frontmatter: the keywords of the record
    that was written take no part any more. *)
Theorem storedSkill_words (skillData : Skill)
    (sourceInfo : option SourceInfo) (dom cat dir : jsstring) :
  frontmatterName skillData <> [] ->
  oneLine (enhanceDescription skillData) ->
  oneLine (title skillData) ->
  trim (title skillData) <> [] ->
  significantWords
    (similarityText
       (storedSkill dom cat dir (buildSkillContent skillData sourceInfo))) =
  significantWords (toLowerCase (title skillData)) ∪
  significantWords (toLowerCase (enhanceDescription skillData)).
Proof. exact (stored_words skillData sourceInfo dom cat dir). Qed.

Lemma storedSkill_words_witness :
  significantWords
    (similarityText
       (storedSkill "ohif" "anti-patterns" "avoiding-direct-state"
          (buildSkillContent avoidSkill reviewSource))) =
  significantWords (toLowerCase (title avoidSkill)) ∪
  significantWords (toLowerCase (enhanceDescription avoidSkill)).
Proof.
  apply (storedSkill_words avoidSkill reviewSource).
  - vm_compute. discriminate.
  - apply oneLine_test. vm_compute. reflexivity.
  - apply oneLine_test. vm_compute. reflexivity.
  - vm_compute. discriminate.
Defined.

(** X22: a record without keywords whose description is written as it is,
    and that holds a word of more than 3 characters, scores 1 against the
    skill read back from its own document; so when that skill is among the
    existing ones, a second run with the same title and description merges
    instead of creating a skill. *)
Theorem generateSkill_recognises (corpus : list Skill) (skillData : Skill)
    (written again : option SourceInfo) (dom cat dir : jsstring) :
  frontmatterName skillData <> [] ->
  oneLine (description skillData) ->
  oneLine (title skillData) ->
  trim (title skillData) <> [] ->
  enhanceDescription skillData = description skillData ->
  optList (keywords skillData) = [] ->
  significantWords
    (toLowerCase (title skillData ++ " " ++ description skillData)) <> ∅ ->
  let stored :=
    storedSkill dom cat dir (buildSkillContent skillData written) in
  (calculateSimilarity (probe skillData) stored == 1)%Q /\
  (In stored corpus ->
   merged (generateSkill corpus skillData again) = true).
Proof.
  intros HN HD HT Hne He Hk Hw stored.
  assert (Hp : significantWords (similarityText (probe skillData)) =
               significantWords (toLowerCase (title skillData)) ∪
               significantWords (toLowerCase (description skillData))).
  { rewrite significantWords_parts. unfold probe.
    cbn [title description keywords optList]. rewrite Hk. cbn [join].
    rewrite (significantWords_longWords []).
    change (longWords []) with (@nil jsstring). cbn [List.map].
    rewrite list_to_set_nil. apply (right_id_L ∅ (∪)). }
  assert (Hs : significantWords (similarityText stored) =
               significantWords (toLowerCase (title skillData)) ∪
               significantWords (toLowerCase (description skillData))).
  { subst stored. rewrite <- He in HD.
    rewrite (stored_words skillData written dom cat dir HN HD HT Hne), He.
    reflexivity. }
  assert (H1 : (calculateSimilarity (probe skillData) stored == 1)%Q).
  { rewrite calculateSimilarity_jaccard. apply jaccard_one.
    split; [rewrite Hp, Hs; reflexivity |].
    rewrite Hp. rewrite !significantWords_longWords in *.
    rewrite longWords_app, List.map_app, list_to_set_app_L in Hw. exact Hw. }
  split; [exact H1 |]. intros Hin.
  unfold generateSkill.
  pose proof (findSimilarSkills_head corpus (probe skillData)) as Hhead.
  unfold resolveSkill.
  change (similarTo corpus skillData)
    with (findSimilarSkills corpus (probe skillData)).
  destruct (findSimilarSkills corpus (probe skillData)) as [|m rest].
  - exfalso. specialize (Hhead stored Hin). rewrite H1 in Hhead.
    unfold similarityThreshold in Hhead. revert Hhead.
    unfold Qlt. cbn. lia.
  - destruct (renderSkill _ _ _). reflexivity.
Qed.

Lemma generateSkill_recognises_witness :
  let stored :=
    storedSkill "general" "best-practices" "many-sources"
      (buildSkillContent manySourcesSkill None) in
  (calculateSimilarity (probe manySourcesSkill) stored == 1)%Q /\
  (In stored [stored] ->
   merged (generateSkill [stored] manySourcesSkill None) = true).
Proof.
  apply (generateSkill_recognises _ manySourcesSkill None None).
  - vm_compute. discriminate.
  - apply oneLine_test. vm_compute. reflexivity.
  - apply oneLine_test. vm_compute. reflexivity.
  - vm_compute. discriminate.
  - vm_compute. reflexivity.
  - reflexivity.
  - rewrite significantWords_longWords.
    replace (longWords _) with ["Many" : jsstring; "sources" : jsstring;
                               "when" : jsstring; "testing" : jsstring]
      by (vm_compute; reflexivity).
    cbn [List.map list_to_set]. intros H.
    apply (not_elem_of_empty (C := gset jsstring) (toLowerCase "Many")).
    rewrite <- H. apply elem_of_union_l, elem_of_singleton. reflexivity.
Defined.

(** ** What makes a skill file valid *)

Lemma noError_app (a b : list Issue) :
  isEmpty_list (List.filter isError (a ++ b)) =
  isEmpty_list (List.filter isError a) && isEmpty_list (List.filter isError b).
Proof.
  rewrite List.filter_app. destruct (List.filter isError a); reflexivity.
Qed.

Lemma noError_if (b : bool) (i : Issue) :
  isEmpty_list (List.filter isError (if b then [i] else [])) =
  negb (b && isError i).
Proof. destruct b; [| reflexivity]. cbn. destruct (isError i); reflexivity. Qed.

Lemma validateFrontmatter_accepted (fm n d : jsstring) :
  isEmpty_list (List.filter isError (validateFrontmatter fm n d)) =
  frontmatterAccepted n d.
Proof.
  unfold validateFrontmatter, frontmatterAccepted.
  rewrite noError_app, !Nat.leb_antisym.
  assert (Hn :
    forall l i, isEmpty_list (List.filter isError
                  (if isEmpty n then [i] else l)) =
                if isEmpty n then negb (isError i)
                else isEmpty_list (List.filter isError l)).
  { intros l i. destruct (isEmpty n); [| reflexivity].
    cbn. destruct (isError i); reflexivity. }
  assert (Hd :
    forall l i, isEmpty_list (List.filter isError
                  (if isEmpty d then [i] else l)) =
                if isEmpty d then negb (isError i)
                else isEmpty_list (List.filter isError l)).
  { intros l i. destruct (isEmpty d); [| reflexivity].
    cbn. destruct (isError i); reflexivity. }
  rewrite Hn, Hd, !noError_app, !noError_if.
  cbn [isError severity andb negb]. rewrite !andb_true_r, !andb_false_r.
  cbn [negb]. rewrite !andb_true_r, !negb_involutive.
  destruct (isEmpty n), (isEmpty d); cbn [negb andb];
    rewrite ?andb_false_r, ?andb_true_r, ?andb_assoc; reflexivity.
Qed.

(** X23: a skill file that can be read is valid exactly when the name read
    from its frontmatter is not empty, has at most 64 characters, is made of
    lower-case letters, digits and hyphens and holds no reserved word, and
    the description read is not empty, has at most 1024 characters and holds
    no tag; the checks of the content, of the structure and of the
    conciseness, and the three style checks of the frontmatter, never make
    it invalid. *)
Theorem validateSkill_valid_frontmatter (content : jsstring) :
  valid (validateSkill (ReadOk content)) =
  frontmatterAccepted (pname (parseSkillContent content))
    (pdescription (parseSkillContent content)).
Proof.
  rewrite <- (validateFrontmatter_accepted
                (frontmatter (parseSkillContent content))).
  rewrite <- validateSkill_errors.
  unfold validateSkill. cbn [valid issues].
  destruct (List.filter isError _); reflexivity.
Qed.

(** ** The when-to-use clause of a document read back *)

Lemma whitespace_not_word (c : ascii) :
  isWhiteSpace c = true -> isWordChar c = false.
Proof. each_char c. Qed.

Section Locality.

Variable fl : flags.

(** A match looks at the text before its start through the last character
    only. *)
Lemma run_before (r : regex) :
  simple r = true ->
  forall p1 p2 cs1 cs2 (k1 k2 : cont),
    after p1 = after p2 ->
    headIsWord (before p1) = headIsWord (before p2) ->
    (forall q1 q2 c1 c2,
       after q1 = after q2 ->
       headIsWord (before q1) = headIsWord (before q2) ->
       k1 q1 c1 <> None -> k2 q2 c2 <> None) ->
    run fl r p1 cs1 k1 <> None -> run fl r p2 cs2 k2 <> None.
Proof.
  induction r as [| c | cls | r1 IH1 r2 IH2 | r1 IH1 r2 IH2 | g r1 IH1
                 | n r1 IH1 | | |];
    cbn [simple]; intros Hs p1 p2 cs1 cs2 k1 k2 Ha Hb Hk; try discriminate;
    cbn [run].
  - apply Hk; assumption.
  - unfold step. rewrite <- Ha. destruct (after p1) as [|x rest]; [auto |].
    destruct (Ascii.eqb _ _); [| auto]. apply Hk; reflexivity.
  - unfold step. rewrite <- Ha. destruct (after p1) as [|x rest]; [auto |].
    destruct (cls x); [| auto]. apply Hk; reflexivity.
  - apply andb_true_iff in Hs as [Hs1 Hs2].
    apply (IH1 Hs1); [assumption | assumption |].
    intros q1 q2 c1 c2 Hqa Hqb. apply (IH2 Hs2); assumption.
  - apply andb_true_iff in Hs as [Hs1 Hs2]. intros H.
    destruct (run fl r1 p2 cs2 k2) eqn:E2; [discriminate |].
    destruct (run fl r1 p1 cs1 k1) eqn:E1.
    + exfalso. apply (IH1 Hs1 p1 p2 cs1 cs2 k1 k2 Ha Hb Hk); [| exact E2].
      rewrite E1. discriminate.
    + apply (IH2 Hs2 p1 p2 cs1 cs2 k1 k2 Ha Hb Hk H).
  - apply (IH1 Hs); [assumption | assumption |].
    intros q1 q2 c1 c2 Hqa Hqb. apply Hk; assumption.
  - unfold atWordBoundary. rewrite <- Ha, <- Hb.
    destruct (xorb _ _); [| auto]. apply Hk; assumption.
Qed.

Lemma matchAt_run (r : regex) (p : pos) :
  matchAt fl r p <> None <-> run fl r p [] finish <> None.
Proof.
  unfold matchAt, finish.
  destruct (run fl r p [] _) as [[p' cs'] |]; split; congruence.
Qed.

Lemma matchAt_before (r : regex) (b1 b2 a : jsstring) :
  simple r = true ->
  headIsWord b1 = headIsWord b2 ->
  matchAt fl r (Pos b1 a) <> None -> matchAt fl r (Pos b2 a) <> None.
Proof.
  intros Hs Hb H. apply matchAt_run. apply matchAt_run in H.
  apply (run_before r Hs (Pos b1 a) (Pos b2 a) [] [] finish finish
           eq_refl Hb); [discriminate | exact H].
Qed.

Lemma search_before (r : regex) :
  simple r = true ->
  forall s b1 b2,
    headIsWord b1 = headIsWord b2 ->
    search fl r b1 s <> None -> search fl r b2 s <> None.
Proof.
  intros Hs. induction s as [|x s IH]; intros b1 b2 Hb H.
  - cbn [search] in *.
    pose proof (matchAt_before r b1 b2 [] Hs Hb) as Hm.
    destruct (matchAt fl r (Pos b1 [])); [| congruence].
    destruct (matchAt fl r (Pos b2 [])); [discriminate |].
    apply Hm. discriminate.
  - cbn [search] in *.
    pose proof (matchAt_before r b1 b2 (x :: s) Hs Hb) as Hm.
    destruct (matchAt fl r (Pos b1 (x :: s))).
    + destruct (matchAt fl r (Pos b2 (x :: s))); [discriminate |].
      exfalso. apply Hm; [discriminate | reflexivity].
    + destruct (matchAt fl r (Pos b2 (x :: s))); [discriminate |].
      apply (IH (x :: b1) (x :: b2)); [reflexivity | exact H].
Qed.

(** At the end of the text a pattern can only hand over to what follows
    it. *)
Lemma run_stays (r : regex) :
  simple r = true ->
  forall p cs (k : cont),
    after p = [] -> (forall cs', k p cs' = None) -> run fl r p cs k = None.
Proof.
  induction r as [| c | cls | r1 IH1 r2 IH2 | r1 IH1 r2 IH2 | g r1 IH1
                 | n r1 IH1 | | |];
    cbn [simple]; intros Hs p cs k Ha Hk; try discriminate; cbn [run].
  - apply Hk.
  - unfold step. rewrite Ha. reflexivity.
  - unfold step. rewrite Ha. reflexivity.
  - apply andb_true_iff in Hs as [Hs1 Hs2]. apply (IH1 Hs1); [exact Ha |].
    intros cs'. apply (IH2 Hs2); assumption.
  - apply andb_true_iff in Hs as [Hs1 Hs2].
    rewrite (IH1 Hs1 p cs k Ha Hk). apply (IH2 Hs2); assumption.
  - apply (IH1 Hs); [exact Ha |]. intros cs'. apply Hk.
  - destruct (atWordBoundary p); [apply Hk | reflexivity].
Qed.

Lemma run_boundary_end (r : regex) :
  simple r = true -> endsAtBoundary r = true ->
  forall p cs (k : cont),
    after p = [] -> headIsWord (before p) = false -> run fl r p cs k = None.
Proof.
  induction r as [| c | cls | r1 IH1 r2 IH2 | r1 IH1 r2 IH2 | g r1 IH1
                 | n r1 IH1 | | |];
    cbn [simple endsAtBoundary]; intros Hs He p cs k Ha Hb;
    try discriminate; cbn [run].
  - apply andb_true_iff in Hs as [Hs1 Hs2]. apply (run_stays r1 Hs1); [exact Ha |].
    intros cs'. apply (IH2 Hs2 He); assumption.
  - unfold atWordBoundary. rewrite Ha, Hb. reflexivity.
Qed.

Variable c : ascii.
Hypothesis c_not_word : isWordChar c = false.

(** A match that works with [c] behind the text, and does not take [c],
    works without it. *)
Lemma run_shorter (r : regex) :
  simple r = true ->
  forall pl ps cs1 cs2 (kl ks : cont),
    before pl = before ps ->
    after pl = after ps ++ [c] ->
    (forall ql qs c1 c2,
       before ql = before qs -> after ql = after qs ++ [c] ->
       kl ql c1 <> None -> ks qs c2 <> None) ->
    (forall q c1,
       after q = [] -> headIsWord (before q) = false -> kl q c1 = None) ->
    run fl r pl cs1 kl <> None -> run fl r ps cs2 ks <> None.
Proof.
  induction r as [| x | cls | r1 IH1 r2 IH2 | r1 IH1 r2 IH2 | g r1 IH1
                 | n r1 IH1 | | |];
    cbn [simple]; intros Hs pl ps cs1 cs2 kl ks Hb Ha K1 K2;
    try discriminate; cbn [run].
  - apply K1; assumption.
  - unfold step. rewrite Ha. destruct (after ps) as [|y rest]; cbn [app].
    + destruct (Ascii.eqb _ _); [| congruence].
      rewrite K2; [congruence | reflexivity | exact c_not_word].
    + destruct (Ascii.eqb _ _); [| congruence].
      apply K1; [cbn; rewrite Hb; reflexivity | reflexivity].
  - unfold step. rewrite Ha. destruct (after ps) as [|y rest]; cbn [app].
    + destruct (cls c); [| congruence].
      rewrite K2; [congruence | reflexivity | exact c_not_word].
    + destruct (cls y); [| congruence].
      apply K1; [cbn; rewrite Hb; reflexivity | reflexivity].
  - apply andb_true_iff in Hs as [Hs1 Hs2].
    apply (IH1 Hs1); [assumption | assumption | |].
    + intros ql qs c1 c2 Hqb Hqa. apply (IH2 Hs2); assumption.
    + intros q c1 Hqa Hqb. apply (run_stays r2 Hs2); [exact Hqa |].
      intros cs'. apply K2; assumption.
  - apply andb_true_iff in Hs as [Hs1 Hs2]. intros H.
    destruct (run fl r1 ps cs2 ks) eqn:E2; [discriminate |].
    destruct (run fl r1 pl cs1 kl) eqn:E1.
    + exfalso.
      apply (IH1 Hs1 pl ps cs1 cs2 kl ks Hb Ha K1 K2); [| exact E2].
      rewrite E1. discriminate.
    + apply (IH2 Hs2 pl ps cs1 cs2 kl ks Hb Ha K1 K2 H).
  - apply (IH1 Hs); [assumption | assumption | |].
    + intros ql qs c1 c2 Hqb Hqa. apply K1; assumption.
    + intros q c1 Hqa Hqb. apply K2; assumption.
  - unfold atWordBoundary. rewrite Hb, Ha.
    replace (headIsWord (after ps ++ [c])) with (headIsWord (after ps))
      by (destruct (after ps); [cbn; rewrite c_not_word |]; reflexivity).
    destruct (xorb _ _); [| congruence]. apply K1; assumption.
Qed.

Lemma run_shorter_boundary (r : regex) :
  simple r = true -> endsAtBoundary r = true ->
  forall pl ps cs1 cs2 (kl ks : cont),
    before pl = before ps ->
    after pl = after ps ++ [c] ->
    (forall ql qs c1 c2,
       before ql = before qs -> after ql = after qs ++ [c] ->
       kl ql c1 <> None -> ks qs c2 <> None) ->
    run fl r pl cs1 kl <> None -> run fl r ps cs2 ks <> None.
Proof.
  induction r as [| x | cls | r1 IH1 r2 IH2 | r1 IH1 r2 IH2 | g r1 IH1
                 | n r1 IH1 | | |];
    cbn [simple endsAtBoundary]; intros Hs He pl ps cs1 cs2 kl ks Hb Ha K1;
    try discriminate; cbn [run].
  - apply andb_true_iff in Hs as [Hs1 Hs2].
    apply (run_shorter r1 Hs1); [assumption | assumption | |].
    + intros ql qs c1 c2 Hqb Hqa. apply (IH2 Hs2 He); assumption.
    + intros q c1 Hqa Hqb. apply (run_boundary_end r2 Hs2 He); assumption.
  - unfold atWordBoundary. rewrite Hb, Ha.
    replace (headIsWord (after ps ++ [c])) with (headIsWord (after ps))
      by (destruct (after ps); [cbn; rewrite c_not_word |]; reflexivity).
    destruct (xorb _ _); [| congruence]. apply K1; assumption.
Qed.

Lemma search_shorter (r : regex) :
  simple r = true -> endsAtBoundary r = true ->
  forall s b,
    search fl r b (s ++ [c]) <> None -> search fl r b s <> None.
Proof.
  intros Hs He.
  assert (Hm : forall b a,
             matchAt fl r (Pos b (a ++ [c])) <> None ->
             matchAt fl r (Pos b a) <> None).
  { intros b a H. apply matchAt_run. apply matchAt_run in H.
    apply (run_shorter_boundary r Hs He (Pos b (a ++ [c])) (Pos b a) [] []
             finish finish eq_refl eq_refl); [discriminate | exact H]. }
  assert (Hend : forall b, matchAt fl r (Pos (c :: b) []) = None).
  { intros b. unfold matchAt.
    rewrite (run_boundary_end r Hs He); [reflexivity | reflexivity |].
    exact c_not_word. }
  induction s as [|x s IH]; intros b H; cbn [app search] in *.
  - destruct (matchAt fl r (Pos b [c])) eqn:E.
    + assert (H1 : matchAt fl r (Pos b ([] ++ [c])) <> None)
        by (cbn [app]; congruence).
      apply Hm in H1. destruct (matchAt fl r (Pos b [])); congruence.
    + rewrite Hend in H. congruence.
  - destruct (matchAt fl r (Pos b (x :: s ++ [c]))) eqn:E.
    + assert (H1 : matchAt fl r (Pos b ((x :: s) ++ [c])) <> None)
        by (cbn [app]; congruence).
      apply Hm in H1. destruct (matchAt fl r (Pos b (x :: s))); congruence.
    + destruct (matchAt fl r (Pos b (x :: s))); [discriminate |].
      apply IH, H.
Qed.

End Locality.

(** A pattern that starts and ends at a word holds in a text without the
    white space at its ends whenever it holds in the text. *)
Lemma test_trim (fl : flags) (r : regex) (s : jsstring) :
  simple r = true -> endsAtBoundary r = true -> startsOutsideSpace fl r ->
  test fl r s = true -> test fl r (trim s) = true.
Proof.
  intros Hs He Hw.
  assert (Hlead : forall w t,
            Forall (fun c => isWhiteSpace c = true) w ->
            search fl r [] (w ++ t) <> None -> search fl r [] t <> None).
  { intros w t Hall. induction Hall as [|c w Hc Hall IH]; [auto |].
    cbn [app search]. rewrite (Hw c [] (w ++ t) Hc). intros H.
    apply IH. apply (search_before fl r Hs (w ++ t) [c] []); [| exact H].
    cbn. apply whitespace_not_word, Hc. }
  assert (Htrail : forall w t,
            Forall (fun c => isWhiteSpace c = true) w ->
            search fl r [] (t ++ w) <> None -> search fl r [] t <> None).
  { intros w. induction w as [|c w IH] using rev_ind; intros t Hall H.
    - rewrite app_nil_r in H. exact H.
    - apply Forall_app in Hall as [Hall Hc]. inversion Hc as [|? ? Hc' _]; subst.
      apply (IH t Hall). rewrite app_assoc in H.
      apply (search_shorter fl c (whitespace_not_word c Hc') r Hs He) in H.
      exact H. }
  unfold test, exec, trim. intros H.
  destruct (trimStart_split s) as [w [E Hall]].
  destruct (trimEnd_split (trimStart s)) as [w' [E' Hall']].
  assert (H1 : search fl r [] s <> None)
    by (destruct (search fl r [] s); congruence).
  rewrite E in H1. apply (Hlead w _ Hall) in H1.
  rewrite E' in H1. apply (Htrail w' _ Hall') in H1.
  destruct (search fl r [] (trimEnd (trimStart s))); congruence.
Qed.

Lemma upper_word (l : ascii) :
  isWordChar l = true -> isWordChar (upperChar l) = true.
Proof. each_char l. Qed.

Lemma upper_space (c : ascii) :
  isWhiteSpace c = true -> isWordChar (upperChar c) = false.
Proof. each_char c. Qed.

Lemma upper_not_space (l c : ascii) :
  isWordChar l = true -> isWhiteSpace c = true ->
  Ascii.eqb (upperChar c) (upperChar l) = false.
Proof.
  intros Hl Hc. destruct (Ascii.eqb _ _) eqn:E; [| reflexivity].
  apply Ascii.eqb_eq in E. apply upper_word in Hl. apply upper_space in Hc.
  congruence.
Qed.

(** A pattern [\b] followed by a letter matches no white space. *)
Lemma boundary_letter_start (l : ascii) (r1 r2 : regex) :
  isWordChar l = true ->
  startsOutsideSpace flagI (Seq WordBoundary (Seq (Seq (Chr l) r1) r2)).
Proof.
  intros Hl c bef aft Hc. unfold matchAt. cbn [run].
  destruct (atWordBoundary _); [| reflexivity].
  unfold step. cbn [after]. unfold canon. cbn [ignoreCase flagI].
  rewrite (upper_not_space l c Hl Hc). reflexivity.
Qed.

Lemma hasWhenToUse_trim (text : jsstring) :
  SkillValidator.hasWhenToUse text = true ->
  SkillValidator.hasWhenToUse (trim text) = true.
Proof.
  unfold SkillValidator.hasWhenToUse, SkillValidator.whenToUsePatterns.
  cbn [existsb]. rewrite !orb_false_r. intros H.
  repeat (apply orb_true_iff in H as [H | H];
          [apply test_trim in H;
           [rewrite H, ?orb_true_r; reflexivity | reflexivity | reflexivity
           | apply boundary_letter_start; reflexivity] |]).
  apply test_trim in H;
    [rewrite H, ?orb_true_r; reflexivity | reflexivity | reflexivity
    | apply boundary_letter_start; reflexivity].
Qed.

(** *** When the validator asks for a when-to-use clause *)

Lemma hasCode_if (code : jsstring) (b : bool) (i : Issue) (l : list Issue) :
  existsb (fun j => strEq (icode j) code) (if b then [i] else l) =
  if b then strEq (icode i) code
  else existsb (fun j => strEq (icode j) code) l.
Proof. destruct b; [| reflexivity]. cbn. apply orb_false_r. Qed.

Ltac compare_codes :=
  cbn [icode];
  repeat match goal with
         | |- context [strEq (lit ?a) (lit ?b)] =>
             let v := eval vm_compute in (strEq (lit a) (lit b)) in
             change (strEq (lit a) (lit b)) with v
         end.

Lemma missingWhenToUse_frontmatter (fm n d : jsstring) :
  existsb (fun i => strEq (icode i) "MISSING_WHEN_TO_USE")
    (validateFrontmatter fm n d) =
  negb (isEmpty d) && negb (SkillValidator.hasWhenToUse d).
Proof.
  unfold validateFrontmatter.
  repeat (rewrite existsb_app || rewrite hasCode_if).
  compare_codes. cbn [existsb].
  destruct (isEmpty n), (isEmpty d); cbn [negb andb orb];
    repeat match goal with
           | |- context [if ?b then false else false] =>
               replace (if b then false else false) with false
                 by (destruct b; reflexivity)
           end; cbn [orb]; try reflexivity;
    destruct (SkillValidator.hasWhenToUse d); reflexivity.
Qed.

Lemma missingWhenToUse_content (content : jsstring) (parsed : Parsed) :
  existsb (fun i => strEq (icode i) "MISSING_WHEN_TO_USE")
    (validateContent content parsed ++ validateStructure parsed ++
     validateConciseness content parsed) = false.
Proof.
  unfold validateContent, validateStructure, validateConciseness. cbv zeta.
  repeat (rewrite existsb_app || rewrite hasCode_if).
  compare_codes. cbn [existsb].
  replace (existsb _ (flat_map _ verbosePatterns)) with false.
  - destruct (List.find _ commonConcepts); split_ifs; reflexivity.
  - symmetry. induction verbosePatterns as [|v l IH]; [reflexivity |].
    cbn [flat_map]. rewrite existsb_app, IH.
    destruct (_ && _); reflexivity.
Qed.

Lemma missingWhenToUse_raised (content : jsstring) :
  raisesMissingWhenToUse (validateSkill (ReadOk content)) =
  negb (isEmpty (pdescription (parseSkillContent content))) &&
  negb (SkillValidator.hasWhenToUse
          (pdescription (parseSkillContent content))).
Proof.
  unfold raisesMissingWhenToUse, validateSkill. cbn [issues].
  rewrite existsb_app, missingWhenToUse_frontmatter,
    missingWhenToUse_content.
  apply orb_false_r.
Qed.

(** X12: the description written to the frontmatter has at most 1024
    characters.  For an anti-pattern or a best practice whose completed
    description needs no cutting, the validation of the document written,
    for a name that is not empty and a description of one line, does not
    ask for a when-to-use clause: the clause is there, and it is still
    found once the description is read back without the white space at its
    ends. *)
Theorem buildSkillContent_when_to_use (skillData : Skill)
    (sourceInfo : option SourceInfo) :
  length (enhanceDescription skillData) <= 1024 /\
  (frontmatterName skillData <> [] ->
   oneLine (enhanceDescription skillData) ->
   category skillData = "anti-pattern" \/
   category skillData = "best-practice" ->
   length (completedDescription skillData) <= 1024 ->
   SkillValidator.hasWhenToUse
     (pdescription
        (parseSkillContent (buildSkillContent skillData sourceInfo))) = true /\
   raisesMissingWhenToUse
     (validateSkill (ReadOk (buildSkillContent skillData sourceInfo))) =
     false).
Proof.
  destruct (enhanceDescription_clause skillData) as [Hlen Hclause].
  split; [exact Hlen |]. intros HN HD Hc Hl.
  assert (H : SkillValidator.hasWhenToUse
                (pdescription
                   (parseSkillContent
                      (buildSkillContent skillData sourceInfo))) = true).
  { destruct (parsed_of_build skillData sourceInfo HN HD) as [_ ->].
    apply hasWhenToUse_trim, Hclause; assumption. }
  split; [exact H |].
  rewrite missingWhenToUse_raised, H. apply andb_false_r.
Qed.

Lemma buildSkillContent_when_to_use_witness :
  raisesMissingWhenToUse
    (validateSkill (ReadOk (buildSkillContent avoidSkill reviewSource))) =
  false.
Proof.
  apply (buildSkillContent_when_to_use avoidSkill reviewSource).
  - vm_compute. discriminate.
  - apply oneLine_test. vm_compute. reflexivity.
  - left. reflexivity.
  - vm_compute. lia.
Defined.
